(** * DilemmaForge: settlement engine, outcome rule and streak tracker

    A shallow embedding of the TypeScript sources

      - [src/utils/game.ts]       (outcome calculator)
      - [src/utils/streaks.ts]    (streak and history tracker)
      - [src/utils/constants.ts]  (Redis key generators, game constants)
      - [src/main.tsx]            (locks, finalizer, awarder, vote handler)

    JavaScript numbers are IEEE 754 binary64 values; they are modelled with
    the executable specification [spec_float] at precision 53.  Numbers the
    program only ever uses as integers (points, scores, counters, streaks,
    timestamps) are carried as [Z].  The Redis store is a finite map from
    key strings to value strings.  Asynchronous code is a tree of store
    commands, one node per [await], which is run either as one uninterrupted
    invocation or interleaved with other invocations. *)

From Stdlib Require Import ZArith QArith Lia List Bool Ascii String Sorted.
From Stdlib Require Import Decimal DecimalString DecimalZ.
From Stdlib Require Import Floats.SpecFloat.
From stdpp Require Import base option list gmap strings.

Open Scope string_scope.
Open Scope Z_scope.

(** ** JavaScript numbers (binary64) *)

Module JSNumber.

Definition number := spec_float.

Definition prec : Z := 53.
Definition emax : Z := 1024.

(** The double nearest to an integer, as an integer literal or [parseInt]
    yields it. *)
Definition of_Z (z : Z) : number := binary_normalize prec emax z 0 false.

Definition add : number -> number -> number := SFadd prec emax.
Definition mul : number -> number -> number := SFmul prec emax.
Definition div : number -> number -> number := SFdiv prec emax.

(** [a === b], [a >= b] and [a > b] on numbers. *)
Definition strict_eq (a b : number) : bool := SFeqb a b.
Definition ge (a b : number) : bool := SFleb b a.
Definition gt (a b : number) : bool := SFltb b a.

Definition isNaN (a : number) : bool :=
  match a with S754_nan => true | _ => false end.

(** The integer a double denotes, when it denotes one. *)
Definition to_Z (a : number) : option Z :=
  match a with
  | S754_zero _ => Some 0
  | S754_finite s m e =>
      let v := if s then Z.neg m else Z.pos m in
      if 0 <=? e then Some (v * 2 ^ e)
      else if (Z.pos m) mod 2 ^ (- e) =? 0 then Some (v / 2 ^ (- e))
      else None
  | _ => None
  end.

End JSNumber.

(** ** Rounding to nearest, ties to even

    The vocabulary in which results of binary64 operations on integers are
    described: a double [m * 2 ^ e] with a 53-bit mantissa, and the integer
    nearest to a fraction. *)

Module Binary64.

(** The position of [m + r / D] between [m] and [m + 1], for [0 <= r < D]. *)
Definition loc_frac (r D : Z) : location :=
  if r =? 0 then loc_Exact else loc_Inexact (Z.compare (2 * r) D).

(** [m + r / D] rounded to the nearest integer, ties to even. *)
Definition nearest_even (m r D : Z) : Z :=
  if 2 * r <? D then m
  else if 2 * r =? D then (if Z.even m then m else m + 1)
  else m + 1.

(** The integer nearest to [A / B], ties to even. *)
Definition rnd (A B : Z) : Z := nearest_even (A / B) (A mod B) B.

(** The positive double [m * 2 ^ e]. *)
Definition F64 (m e : Z) : spec_float := S754_finite false (Z.to_pos m) e.

(** Mantissa and exponent of the double that holds a positive integer below
    [2 ^ 53]: [z = mant z * 2 ^ expo z] with [2 ^ 52 <= mant z < 2 ^ 53]. *)
Definition mant (z : Z) : Z := z * 2 ^ (53 - Zdigits2 z).
Definition expo (z : Z) : Z := Zdigits2 z - 53.

(** [100 = m100 * 2 ^ -46] and [70 = m70 * 2 ^ -46]; [m07] is the least
    mantissa [M] for which [M * 2 ^ -53] times 100 rounds to 70 or more. *)
Definition m100 : Z := 7036874417766400.
Definition m70 : Z := 4925812092436480.
Definition m07 : Z := 6305039478318694.

End Binary64.

(** ** [src/utils/constants.ts]: game configuration *)

Module Config.
Import JSNumber.

Record game_config := {
  COOPERATE_THRESHOLD : number;
  DEFECT_THRESHOLD : number;
  ALL_COOPERATE_POINTS : Z;
  ALL_DEFECT_POINTS : Z;
  MIXED_DEFECT_POINTS : Z;
  MIXED_COOPERATE_POINTS : Z;
  MAX_SHARE_GRID_DAYS : Z;
  SHARE_GRID_ROW_LENGTH : Z
}.

Definition GAME_CONFIG : game_config := {|
  COOPERATE_THRESHOLD := of_Z 70;
  DEFECT_THRESHOLD := of_Z 70;
  ALL_COOPERATE_POINTS := 3;
  ALL_DEFECT_POINTS := 1;
  MIXED_DEFECT_POINTS := 5;
  MIXED_COOPERATE_POINTS := 0;
  MAX_SHARE_GRID_DAYS := 30;
  SHARE_GRID_ROW_LENGTH := 10
|}.

End Config.

(** ** [src/utils/game.ts]: outcome calculator *)

Module Game.
Import JSNumber Config.

(** [type Choice = 'cooperate' | 'defect' | null] *)
Inductive Choice := cooperate | defect | no_choice.

Inductive Outcome := all_cooperate | all_defect | mixed.

Record Payoff := {
  outcome : Outcome;
  pointsForCooperators : Z;
  pointsForDefectors : Z
}.

Definition cooperatePercent (cooperateCount defectCount : number) : number :=
  mul (div cooperateCount (add cooperateCount defectCount)) (of_Z 100).

Definition defectPercent (cooperateCount defectCount : number) : number :=
  mul (div defectCount (add cooperateCount defectCount)) (of_Z 100).

Definition calculateResults (cooperateCount defectCount : number) : Payoff :=
  let totalVotes := add cooperateCount defectCount in
  if strict_eq totalVotes (of_Z 0) then
    {| outcome := mixed; pointsForCooperators := 0; pointsForDefectors := 0 |}
  else
    let cooperatePercent := mul (div cooperateCount totalVotes) (of_Z 100) in
    let defectPercent := mul (div defectCount totalVotes) (of_Z 100) in
    if ge cooperatePercent (COOPERATE_THRESHOLD GAME_CONFIG) then
      {| outcome := all_cooperate;
         pointsForCooperators := ALL_COOPERATE_POINTS GAME_CONFIG;
         pointsForDefectors := ALL_COOPERATE_POINTS GAME_CONFIG |}
    else if ge defectPercent (DEFECT_THRESHOLD GAME_CONFIG) then
      {| outcome := all_defect;
         pointsForCooperators := ALL_DEFECT_POINTS GAME_CONFIG;
         pointsForDefectors := ALL_DEFECT_POINTS GAME_CONFIG |}
    else
      {| outcome := mixed;
         pointsForCooperators := MIXED_COOPERATE_POINTS GAME_CONFIG;
         pointsForDefectors := MIXED_DEFECT_POINTS GAME_CONFIG |}.

(** The three results the function returns for a positive total. *)
Definition AllCooperate : Payoff :=
  {| outcome := all_cooperate; pointsForCooperators := 3; pointsForDefectors := 3 |}.
Definition AllDefect : Payoff :=
  {| outcome := all_defect; pointsForCooperators := 1; pointsForDefectors := 1 |}.
Definition Mixed : Payoff :=
  {| outcome := mixed; pointsForCooperators := 0; pointsForDefectors := 5 |}.

(** The rule in exact arithmetic: the percentage [count / total * 100] as a
    rational number, compared with 70. *)
Definition exactPercent (count total : Z) : Q :=
  (inject_Z count / inject_Z total * 100)%Q.

Definition spec_calculateResults (c d : Z) : Payoff :=
  if Qle_bool 70 (exactPercent c (c + d)) then AllCooperate
  else if Qle_bool 70 (exactPercent d (c + d)) then AllDefect
  else Mixed.

End Game.

(** ** JSON documents and the JavaScript view of them *)

Module Json.

(** A parsed JSON document.  [JNum] holds an integer-valued number and
    [JFloat] any other double; JavaScript itself has a single number type,
    and [of_number] picks the constructor. *)
#[local] Unset Elimination Schemes.
Inductive json :=
| JNull
| JBool (b : bool)
| JNum (z : Z)
| JFloat (x : spec_float)
| JStr (s : string)
| JArr (items : list json)
| JObj (members : list (string * json)).
#[local] Set Elimination Schemes.

Fixpoint assoc (name : string) (members : list (string * json)) : option json :=
  match members with
  | [] => None
  | (k, v) :: rest => if String.eqb k name then Some v else assoc name rest
  end.

(** [o.name]; [None] is [undefined].  Reading a property of a primitive
    that does not have it gives [undefined] as well. *)
Definition prop (o : json) (name : string) : option json :=
  match o with
  | JObj members => assoc name members
  | _ => None
  end.

Fixpoint assign (name : string) (v : json) (members : list (string * json))
  : list (string * json) :=
  match members with
  | [] => [(name, v)]
  | (k, w) :: rest =>
      if String.eqb k name then (k, v) :: rest else (k, w) :: assign name v rest
  end.

(** [o.name = v] on an object. *)
Definition set_prop (name : string) (v : json) (o : json) : json :=
  match o with
  | JObj members => JObj (assign name v members)
  | _ => o
  end.

(** ToBoolean. *)
Definition truthy (j : json) : bool :=
  match j with
  | JNull => false
  | JBool b => b
  | JNum z => negb (z =? 0)
  | JFloat x =>
      match x with S754_nan | S754_zero _ => false | _ => true end
  | JStr s => negb (String.eqb s "")
  | JArr _ | JObj _ => true
  end.

(** [v === 'text'] on a possibly [undefined] value. *)
Definition is_text (v : option json) (text : string) : bool :=
  match v with
  | Some (JStr s) => String.eqb s text
  | _ => false
  end.

(** ToBoolean of a possibly [undefined] value. *)
Definition truthy_opt (o : option json) : bool :=
  match o with Some j => truthy j | None => false end.

(** A number as JSON.stringify writes it and JSON.parse reads it back:
    NaN and the infinities become [null]. *)
Definition of_number (x : spec_float) : json :=
  match JSNumber.to_Z x with
  | Some z => JNum z
  | None =>
      match x with
      | S754_finite _ _ _ => JFloat x
      | _ => JNull
      end
  end.

End Json.

(** ** The host platform

    The program calls three things it does not define: [JSON.parse]
    ([None] when it throws), [JSON.stringify], and the [Date] constructor
    on a string ([None] when the date is invalid, else milliseconds since
    the epoch).  Everything below is parametric in them. *)

Class Host := {
  JSON_parse : string -> option Json.json;
  JSON_stringify : Json.json -> string;
  Date_parse : string -> option Z
}.

(** ** [src/utils/streaks.ts]: streak and history tracker *)

Module Streaks.
Import Json Game.

Record HistEntry := { day : string; choice : Choice }.

Record Streak := { currentStreak : Z; longestStreak : Z }.

Record UserStats := {
  totalScore : Z;
  statsCurrentStreak : Z;
  statsLongestStreak : Z;
  totalVotes : Z;
  cooperateCount : Z;
  defectCount : Z;
  history : list json
}.

Definition MS_PER_DAY : Z := 1000 * 60 * 60 * 24.

(** [date.setUTCHours(0, 0, 0, 0)] on a valid time value. *)
Definition setUTCHours0 (t : Z) : Z := t - t mod MS_PER_DAY.

Section WithHost.
Context `{Host}.

(** [new Date(item.day).getTime()]; [None] is NaN. *)
Definition getTime (item : HistEntry) : option Z := Date_parse (day item).

(** The comparator [(a, b) => new Date(b.day).getTime() -
    new Date(a.day).getTime()]. *)
Definition byDayDescending (a b : HistEntry) : option Z :=
  match getTime b, getTime a with
  | Some tb, Some ta => Some (tb - ta)
  | _, _ => None
  end.

(** [Array.prototype.sort] with that comparator: a stable sort, in which
    a comparator result that is NaN counts as 0.  On histories whose
    days all parse, every conforming engine returns this list. *)
Fixpoint sort_insert (x : HistEntry) (sorted : list HistEntry) : list HistEntry :=
  match sorted with
  | [] => [x]
  | y :: rest =>
      match byDayDescending x y with
      | Some v => if 0 <? v then y :: sort_insert x rest else x :: y :: rest
      | None => x :: y :: rest
      end
  end.

Fixpoint sort (l : list HistEntry) : list HistEntry :=
  match l with
  | [] => []
  | x :: rest => sort_insert x (sort rest)
  end.

(** The first loop: [i] is the index, [expected] days back from today. *)
Fixpoint currentStreakLoop (today : Z) (items : list HistEntry)
         (i currentStreak : Z) : Z :=
  match items with
  | [] => currentStreak
  | item :: rest =>
      let historyDate := setUTCHours0 <$> getTime item in
      let expectedDate := today - i * MS_PER_DAY in
      match historyDate with
      | Some t =>
          if t =? expectedDate
          then currentStreakLoop today rest (i + 1) (currentStreak + 1)
          else currentStreak
      | None => currentStreak
      end
  end.

(** [Math.floor((lastDate.getTime() - currentDate.getTime()) /
    (1000 * 60 * 60 * 24))]; [None] is NaN. *)
Definition daysDiff (lastDate currentDate : option Z) : option Z :=
  match lastDate, currentDate with
  | Some l, Some c => Some ((l - c) / MS_PER_DAY)
  | _, _ => None
  end.

(** The second loop.  [lastDate] is [None] while it is still [null];
    the date inside may itself be invalid. *)
Fixpoint longestStreakLoop (items : list HistEntry)
         (lastDate : option (option Z))
         (longestStreak tempStreak : Z) : Z * Z :=
  match items with
  | [] => (longestStreak, tempStreak)
  | item :: rest =>
      let currentDate := setUTCHours0 <$> getTime item in
      let '(longestStreak', tempStreak') :=
        match lastDate with
        | None => (longestStreak, 1)
        | Some last =>
            match daysDiff last currentDate with
            | Some 1 => (longestStreak, tempStreak + 1)
            | _ => (Z.max longestStreak tempStreak, 1)
            end
        end in
      longestStreakLoop rest (Some currentDate) longestStreak' tempStreak'
  end.

(** [calculateStreak(history)], with the clock reading [now] that
    [new Date()] returns. *)
Definition calculateStreak (now : Z) (history : list HistEntry) : Streak :=
  match history with
  | [] => {| currentStreak := 0; longestStreak := 0 |}
  | _ =>
      let sortedHistory := sort history in
      let today := setUTCHours0 now in
      let currentStreak := currentStreakLoop today sortedHistory 0 0 in
      let '(longestStreak, tempStreak) :=
        longestStreakLoop sortedHistory None 0 0 in
      {| currentStreak := currentStreak;
         longestStreak := Z.max longestStreak tempStreak |}
  end.

Definition isValidChoice (choice : option json) : bool :=
  match choice with
  | Some (JStr s) => String.eqb s "cooperate" || String.eqb s "defect"
  | _ => false
  end.

(** [v === null] *)
Definition is_null (v : option json) : bool :=
  match v with Some JNull => true | _ => false end.

(** [typeof v === 'string'] *)
Definition is_string (v : option json) : bool :=
  match v with Some (JStr _) => true | _ => false end.

Definition is_digit (c : ascii) : bool :=
  ((48 <=? nat_of_ascii c) && (nat_of_ascii c <=? 57))%nat.

(** [/^\d{4}-\d{2}-\d{2}$/.test(entry)] *)
Definition legacy_day_format (entry : string) : bool :=
  match list_ascii_of_string entry with
  | [y1; y2; y3; y4; h1; m1; m2; h2; d1; d2] =>
      is_digit y1 && is_digit y2 && is_digit y3 && is_digit y4
      && Ascii.eqb h1 "-" && is_digit m1 && is_digit m2
      && Ascii.eqb h2 "-" && is_digit d1 && is_digit d2
  | _ => false
  end.

(** The shape test that both the parser and the normaliser apply:
    [e && typeof e.day === 'string' &&
     (e.choice === null || isValidChoice(e.choice))]. *)
Definition well_shaped (e : json) : bool :=
  truthy e && is_string (prop e "day")
  && (is_null (prop e "choice") || isValidChoice (prop e "choice")).

Definition parseHistoryEntry (entry : string) : option json :=
  let parsed :=
    match JSON_parse entry with
    | Some parsed =>
        if well_shaped parsed then
          match prop parsed "day", prop parsed "choice" with
          | Some d, Some c => Some (JObj [("day", d); ("choice", c)])
          | _, _ => None
          end
        else None
    | None => None
    end in
  match parsed with
  | Some e => Some e
  | None =>
      if legacy_day_format entry
      then Some (JObj [("day", JStr entry); ("choice", JNull)])
      else None
  end.

Definition normalizeHistoryEntry (entry : json) : option json :=
  match entry with
  | JStr s => parseHistoryEntry s
  | _ => if well_shaped entry then Some entry else None
  end.

Definition choice_to_json (c : Choice) : json :=
  match c with
  | cooperate => JStr "cooperate"
  | defect => JStr "defect"
  | no_choice => JNull
  end.

(** The object literal [{ day: v.day, choice: v.choice }]. *)
Definition entry_to_json (v : HistEntry) : json :=
  JObj [("day", JStr (day v)); ("choice", choice_to_json (choice v))].

(** A normalised entry read at its TypeScript type
    [{ day: string; choice: Choice }]. *)
Definition as_entry (e : json) : HistEntry :=
  {| day := match prop e "day" with Some (JStr d) => d | _ => "" end;
     choice :=
       match prop e "choice" with
       | Some (JStr s) =>
           if String.eqb s "cooperate" then cooperate
           else if String.eqb s "defect" then defect else no_choice
       | _ => no_choice
       end |}.

Definition is_cooperate (c : Choice) : bool :=
  match c with cooperate => true | _ => false end.
Definition is_defect (c : Choice) : bool :=
  match c with defect => true | _ => false end.

Definition updateUserStats (now : Z) (currentStats : UserStats)
           (newVote : HistEntry) (points : Z) : UserStats :=
  let history := (history currentStats ++ [entry_to_json newVote])%list in
  let normalizedHistory := omap normalizeHistoryEntry history in
  let s := calculateStreak now (as_entry <$> normalizedHistory) in
  {| totalScore := totalScore currentStats + points;
     statsCurrentStreak := currentStreak s;
     statsLongestStreak := Z.max (longestStreak s) (statsLongestStreak currentStats);
     totalVotes := totalVotes currentStats + 1;
     cooperateCount :=
       cooperateCount currentStats + (if is_cooperate (choice newVote) then 1 else 0);
     defectCount :=
       defectCount currentStats + (if is_defect (choice newVote) then 1 else 0);
     history := normalizedHistory |}.

(** The calendar day of an entry, as a day count since the epoch. *)
Definition dayNumber (item : HistEntry) : option Z :=
  (fun t => t / MS_PER_DAY) <$> getTime item.

Definition on_day (item : HistEntry) (d : Z) : Prop := dayNumber item = Some d.

(** The two loops of [calculateStreak] read on day counts: what they
    compute when every day of the sorted history parses. *)
Fixpoint current_days (today : Z) (days : list Z) (i currentStreak : Z) : Z :=
  match days with
  | [] => currentStreak
  | d :: rest =>
      if d =? today - i
      then current_days today rest (i + 1) (currentStreak + 1)
      else currentStreak
  end.

Fixpoint longest_days (days : list Z) (lastDay : option Z)
         (longestStreak tempStreak : Z) : Z * Z :=
  match days with
  | [] => (longestStreak, tempStreak)
  | d :: rest =>
      let '(longestStreak', tempStreak') :=
        match lastDay with
        | None => (longestStreak, 1)
        | Some last =>
            if last - d =? 1 then (longestStreak, tempStreak + 1)
            else (Z.max longestStreak tempStreak, 1)
        end in
      longest_days rest (Some d) longestStreak' tempStreak'
  end.

(** The rule for the longest streak in the words of the specification:
    the history sorted by day is cut into runs, a gap of exactly one
    calendar day between neighbours continuing a run and any other gap
    ending it, and the longest run counts, the final one included. *)
Fixpoint spec_runs (days : list Z) : list (list Z) :=
  match days with
  | [] => []
  | d :: rest =>
      match spec_runs rest with
      | (d' :: run) :: runs =>
          if d - d' =? 1 then (d :: d' :: run) :: runs
          else [d] :: (d' :: run) :: runs
      | _ => [[d]]
      end
  end.

Definition spec_longest_run (days : list Z) : Z :=
  foldr Z.max 0 ((fun run => Z.of_nat (length run)) <$> spec_runs days).

(** Two orders on entries, used to describe sorted histories: [a] is on a strictly later calendar day than [b]. *)
Definition later (a b : HistEntry) : Prop :=
  exists da db, on_day a da /\ on_day b db /\ db < da.

Definition not_before (a b : HistEntry) : Prop :=
  exists ta tb, getTime a = Some ta /\ getTime b = Some tb /\ tb <= ta.

(** The entries that the normaliser keeps, whatever they hold. *)
Definition kept (entry : json) : Prop :=
  is_Some (normalizeHistoryEntry entry).

#[global] Instance kept_dec (entry : json) : Decision (kept entry).
Proof. unfold kept. apply _. Defined.

Definition with_history (s : UserStats) (h : list json) : UserStats :=
  {| totalScore := totalScore s;
     statsCurrentStreak := statsCurrentStreak s;
     statsLongestStreak := statsLongestStreak s;
     totalVotes := totalVotes s;
     cooperateCount := cooperateCount s;
     defectCount := defectCount s;
     history := h |}.

End WithHost.

End Streaks.

(** ** An older copy of the tracker

    The repository also holds an earlier version of [streaks.ts] (its
    file name is not recorded).  Its [calculateStreak] is the one above;
    its [updateUserStats] types the stored history as [string[]] and reads
    every stored string as a day with the choice ['cooperate']. *)

Module StreaksOld.
Import Json Game.

Record UserStats := {
  totalScore : Z;
  currentStreak : Z;
  longestStreak : Z;
  totalVotes : Z;
  cooperateCount : Z;
  defectCount : Z;
  history : list string
}.

Section WithHost.
Context `{Host}.

Definition updateUserStats (now : Z) (currentStats : UserStats)
           (newVote : Streaks.HistEntry) (points : Z) : UserStats :=
  let history : list (string + Streaks.HistEntry) :=
    ((inl <$> history currentStats) ++ [inr newVote])%list in
  let s :=
    Streaks.calculateStreak now
      ((fun h => match h with
                 | inl day => {| Streaks.day := day; Streaks.choice := cooperate |}
                 | inr entry => entry
                 end) <$> history) in
  {| totalScore := totalScore currentStats + points;
     currentStreak := Streaks.currentStreak s;
     longestStreak := Z.max (Streaks.longestStreak s) (longestStreak currentStats);
     totalVotes := totalVotes currentStats + 1;
     cooperateCount :=
       cooperateCount currentStats
       + (if Streaks.is_cooperate (Streaks.choice newVote) then 1 else 0);
     defectCount :=
       defectCount currentStats
       + (if Streaks.is_defect (Streaks.choice newVote) then 1 else 0);
     history :=
       (fun h => match h with
                 | inl text => text
                 | inr entry => JSON_stringify (Streaks.entry_to_json entry)
                 end) <$> history |}.

End WithHost.

End StreaksOld.

(** ** Strings holding integers *)

Module IntString.

(** [String(n)] for an integer [n]. *)
Definition String_of_Z (z : Z) : string :=
  NilZero.string_of_int (Z.to_int z).

Definition digit_value (c : ascii) : Z := Z.of_nat (nat_of_ascii c) - 48.

Definition is_digit (c : ascii) : bool :=
  ((48 <=? nat_of_ascii c) && (nat_of_ascii c <=? 57))%nat.

(** StrWhiteSpaceChar, on the ASCII range. *)
Definition is_space (c : ascii) : bool :=
  let n := nat_of_ascii c in
  ((n =? 32) || ((9 <=? n) && (n <=? 13)))%nat.

Fixpoint skip_spaces (s : string) : string :=
  match s with
  | String c rest => if is_space c then skip_spaces rest else s
  | EmptyString => s
  end.

(** The longest prefix of decimal digits, read as a number; [None] when
    there is no digit. *)
Fixpoint digits_prefix (s : string) (acc : option Z) : option Z :=
  match s with
  | String c rest =>
      if is_digit c
      then digits_prefix rest (Some (10 * default 0 acc + digit_value c))
      else acc
  | EmptyString => acc
  end.

(** [parseInt(s, 10)]; [None] is NaN. *)
Definition parseInt (s : string) : option Z :=
  match skip_spaces s with
  | String "-" rest => Z.opp <$> digits_prefix rest None
  | String "+" rest => digits_prefix rest None
  | t => digits_prefix t None
  end.

(** The integer a Redis string value holds, as INCRBY reads it: a
    canonical decimal in the signed 64-bit range. *)
Definition redis_int (s : string) : option Z :=
  match NilZero.int_of_string s with
  | Some d =>
      let z := Z.of_int d in
      if String.eqb (String_of_Z z) s
         && (- 2 ^ 63 <=? z) && (z <? 2 ^ 63)
      then Some z else None
  | None => None
  end.

End IntString.

(** ** The Redis store and asynchronous programs over it *)

Module Redis.

(** [data] holds the values, [expires] the expiry time of keys written
    with an [expiration] option, and [version] counts the modifications
    of each key, which is what WATCH compares. *)
Record store := {
  data : gmap string string;
  expires : gmap string Z;
  version : gmap string nat
}.

Definition empty_store : store :=
  {| data := ∅; expires := ∅; version := ∅ |}.

Definition version_of (σ : store) (key : string) : nat :=
  default 0%nat (version σ !! key).

Definition snapshot := list (string * nat).

(** The commands a transaction queues between [multi] and [exec]. *)
Inductive tx_cmd :=
| TX_INCRBY (key : string) (n : Z)
| TX_SET (key value : string).

Inductive log_msg :=
| ErrorReleasingLock (label : string)
| InvalidVoteCounts (day : string)
| FinalizedResults (day : string)
| ErrorFinalizing (day : string)
| InvalidVoteData (userId day : string)
| InvalidResultsData (day : string)
| AwardedPoints (points : Z) (userId day : string)
| ErrorAwarding (userId day : string)
| JSONParseError
| FailedToSubmitVote.

Inductive ui_effect :=
| SetHasVotedToday
| SetUserChoice (choice : Json.json)
| BumpRefreshKey
| ToastAlreadyVoted
| ToastVoteSubmitted
| ToastFailedToSubmit.

(** One [await]ed call.  [CONSOLE] and [UI] do not touch the store; they
    are kept so that a trace shows which branch ran. *)
Inductive cmd :=
| GET (key : string)
| SET (key value : string)
| SET_NX (key value : string) (expiration : option Z)
| DEL (key : string)
| INCRBY (key : string) (n : Z)
| MSET (pairs : list (string * string))
| WATCH (keys : list string)
| EXEC (watched : snapshot) (queued : list tx_cmd)
| CONSOLE (m : log_msg)
| UI (e : ui_effect).

Inductive exn :=
| TypeError (what : string)
| ReplyError (what : string).

Definition reply (c : cmd) : Type :=
  match c with
  | GET _ => option string
  | SET _ _ => unit
  | SET_NX _ _ _ => bool
  | DEL _ => unit
  | INCRBY _ _ => Z
  | MSET _ => unit
  | WATCH _ => snapshot
  | EXEC _ _ => bool
  | CONSOLE _ => unit
  | UI _ => unit
  end.

Definition touch (key : string) (v : gmap string nat) : gmap string nat :=
  <[key := S (default 0%nat (v !! key))]> v.

Definition write (key value : string) (expiration : option Z) (σ : store) : store :=
  {| data := <[key := value]> (data σ);
     expires :=
       match expiration with
       | Some t => <[key := t]> (expires σ)
       | None => delete key (expires σ)
       end;
     version := touch key (version σ) |}.

Definition remove (key : string) (σ : store) : store :=
  match data σ !! key with
  | Some _ =>
      {| data := delete key (data σ);
         expires := delete key (expires σ);
         version := touch key (version σ) |}
  | None => σ
  end.

(** INCRBY: a missing key counts as 0; a value that is not an integer, or
    a result outside the 64-bit range, is an error and changes nothing.
    The expiry of the key is kept. *)
Definition incr_by (key : string) (n : Z) (σ : store) : (exn + Z) * store :=
  let current :=
    match data σ !! key with
    | Some s => IntString.redis_int s
    | None => Some 0
    end in
  match current with
  | Some z =>
      if (- 2 ^ 63 <=? z + n) && (z + n <? 2 ^ 63) then
        (inr (z + n),
         {| data := <[key := IntString.String_of_Z (z + n)]> (data σ);
            expires := expires σ;
            version := touch key (version σ) |})
      else (inl (ReplyError "increment or decrement would overflow"), σ)
  | None => (inl (ReplyError "value is not an integer or out of range"), σ)
  end.

Definition run_tx_cmd (c : tx_cmd) (σ : store) : store :=
  match c with
  | TX_INCRBY key n => snd (incr_by key n σ)
  | TX_SET key value => write key value None σ
  end.

Definition unchanged_since (watched : snapshot) (σ : store) : bool :=
  forallb (fun kv => Nat.eqb (version_of σ (fst kv)) (snd kv)) watched.

(** The effect of one command on the store, and its reply. *)
Definition perform (c : cmd) (σ : store) : (exn + reply c) * store :=
  match c return (exn + reply c) * store with
  | GET key => (inr (data σ !! key), σ)
  | SET key value => (inr tt, write key value None σ)
  | SET_NX key value expiration =>
      match data σ !! key with
      | Some _ => (inr false, σ)
      | None => (inr true, write key value expiration σ)
      end
  | DEL key => (inr tt, remove key σ)
  | INCRBY key n => incr_by key n σ
  | MSET pairs =>
      (inr tt, foldl (fun τ kv => write (fst kv) (snd kv) None τ) σ pairs)
  | WATCH keys => (inr ((fun k => (k, version_of σ k)) <$> keys), σ)
  | EXEC watched queued =>
      if unchanged_since watched σ
      then (inr true, foldl (fun τ q => run_tx_cmd q τ) σ queued)
      else (inr false, σ)
  | CONSOLE _ => (inr tt, σ)
  | UI _ => (inr tt, σ)
  end.

(** An asynchronous function body: a tree with one [Await] node per
    awaited call, whose continuation receives the reply or the error the
    call rejected with.  [Stuck] marks a JavaScript computation outside
    this model (arithmetic on a document of the wrong shape). *)
Inductive prog (A : Type) : Type :=
| Ret (a : A)
| Throw (e : exn)
| Stuck (why : string)
| Await (c : cmd) (k : exn + reply c -> prog A).

Arguments Ret {A} a.
Arguments Throw {A} e.
Arguments Stuck {A} why.
Arguments Await {A} c k.

Fixpoint bind {A B} (p : prog A) (f : A -> prog B) : prog B :=
  match p with
  | Ret a => f a
  | Throw e => Throw e
  | Stuck why => Stuck why
  | Await c k => Await c (fun r => bind (k r) f)
  end.

(** [await c]: a rejected call throws at the [await]. *)
Definition await (c : cmd) : prog (reply c) :=
  Await c (fun r => match r with inl e => Throw e | inr v => Ret v end).

(** [try { body } catch (error) { handler }] *)
Fixpoint try_catch {A} (body : prog A) (handler : exn -> prog A) : prog A :=
  match body with
  | Ret a => Ret a
  | Throw e => handler e
  | Stuck why => Stuck why
  | Await c k => Await c (fun r => try_catch (k r) handler)
  end.

(** [try { body } finally { cleanup }], also on [return] inside [body]. *)
Fixpoint try_finally {A} (body : prog A) (cleanup : prog unit) : prog A :=
  match body with
  | Ret a => bind cleanup (fun _ => Ret a)
  | Throw e => bind cleanup (fun _ => Throw e)
  | Stuck why => Stuck why
  | Await c k => Await c (fun r => try_finally (k r) cleanup)
  end.

Inductive result (A : Type) :=
| Returned (a : A)
| Thrown (e : exn)
| Unmodelled (why : string).

Arguments Returned {A} a.
Arguments Thrown {A} e.
Arguments Unmodelled {A} why.

(** One invocation run to its end with no other invocation in between:
    the result, the final store and the commands issued, in order. *)
Fixpoint run {A} (p : prog A) (σ : store) : result A * store * list cmd :=
  match p with
  | Ret a => (Returned a, σ, [])
  | Throw e => (Thrown e, σ, [])
  | Stuck why => (Unmodelled why, σ, [])
  | Await c k =>
      let '(r, σ') := perform c σ in
      let '(res, σ'', trace) := run (k r) σ' in
      (res, σ'', c :: trace)
  end.

(** Interleaved invocations: the scheduler either lets one invocation
    perform its next awaited call, or lets the expiry time of a key
    pass. *)
Inductive action :=
| Step (i : nat)
| Expire (key : string).

Definition step_prog {A} (p : prog A) (σ : store) : prog A * store :=
  match p with
  | Await c k => let '(r, σ') := perform c σ in (k r, σ')
  | _ => (p, σ)
  end.

Definition expire (key : string) (σ : store) : store :=
  match expires σ !! key with
  | Some _ => remove key σ
  | None => σ
  end.

Definition schedule1 {A} (a : action) (cfg : list (prog A) * store)
  : list (prog A) * store :=
  let '(threads, σ) := cfg in
  match a with
  | Step i =>
      match threads !! i with
      | Some p => let '(p', σ') := step_prog p σ in (<[i := p']> threads, σ')
      | None => cfg
      end
  | Expire key => (threads, expire key σ)
  end.

Definition schedule {A} (actions : list action) (cfg : list (prog A) * store)
  : list (prog A) * store :=
  foldl (fun c a => schedule1 a c) cfg actions.

Definition finished {A} (p : prog A) : bool :=
  match p with Await _ _ => false | _ => true end.

(** Commands that only report: they never read or change the store. *)
Definition silent (c : cmd) : bool :=
  match c with CONSOLE _ | UI _ => true | _ => false end.

(** Commands that can change the store. *)
Definition is_write (c : cmd) : bool :=
  match c with
  | SET _ _ | SET_NX _ _ _ | DEL _ | INCRBY _ _ | MSET _ | EXEC _ _ => true
  | _ => false
  end.

(** A lock acquisition attempt: a conditional create with an expiry. *)
Definition acquires_lock (c : cmd) : bool :=
  match c with SET_NX _ _ (Some _) => true | _ => false end.

#[global] Instance prog_ret : MRet prog := @Ret.
#[global] Instance prog_bind : MBind prog := fun A B f p => bind p f.

End Redis.


(** ** [src/utils/constants.ts]: Redis key generators *)

Module Keys.

(** The members of [REDIS_KEYS] that [main.tsx] reads.  The object
    literal declares the first seven; a member it does not declare reads
    as [undefined], which is [None] here, and calling it throws. *)
Record redis_keys := {
  userVote : string -> string -> string -> string;
  dailyCooperateCount : string -> string -> string;
  dailyDefectCount : string -> string -> string;
  dailyResults : string -> string -> string;
  dailyFinalized : string -> string -> string;
  userStats : string -> string -> string;
  userHistory : string -> string -> string;
  dailyFinalizeLock : option (string -> string -> string);
  userAwardLock : option (string -> string -> string -> string);
  userScore : option (string -> string -> string)
}.

Definition REDIS_KEYS : redis_keys := {|
  userVote := fun postId userId day =>
    "post:" ++ postId ++ ":user:" ++ userId ++ ":day:" ++ day ++ ":vote";
  dailyCooperateCount := fun postId day =>
    "post:" ++ postId ++ ":day:" ++ day ++ ":cooperate";
  dailyDefectCount := fun postId day =>
    "post:" ++ postId ++ ":day:" ++ day ++ ":defect";
  dailyResults := fun postId day =>
    "post:" ++ postId ++ ":day:" ++ day ++ ":results";
  dailyFinalized := fun postId day =>
    "post:" ++ postId ++ ":day:" ++ day ++ ":finalized";
  userStats := fun postId userId =>
    "post:" ++ postId ++ ":user:" ++ userId ++ ":stats";
  userHistory := fun postId userId =>
    "post:" ++ postId ++ ":user:" ++ userId ++ ":history";
  dailyFinalizeLock := None;
  userAwardLock := None;
  userScore := None
|}%string.

(** The table with the three undeclared members filled in, on the key
    pattern of the file header ([post:{postId}:...]).  It stands for any
    table in which they are defined; the names of the new keys are not
    taken from the source. *)
Definition completed (K : redis_keys) : redis_keys := {|
  userVote := userVote K;
  dailyCooperateCount := dailyCooperateCount K;
  dailyDefectCount := dailyDefectCount K;
  dailyResults := dailyResults K;
  dailyFinalized := dailyFinalized K;
  userStats := userStats K;
  userHistory := userHistory K;
  dailyFinalizeLock := Some (fun postId day =>
    "post:" ++ postId ++ ":day:" ++ day ++ ":finalize-lock");
  userAwardLock := Some (fun postId userId day =>
    "post:" ++ postId ++ ":user:" ++ userId ++ ":day:" ++ day ++ ":award-lock");
  userScore := Some (fun postId userId =>
    "post:" ++ postId ++ ":user:" ++ userId ++ ":score")
|}%string.

(** Every member [main.tsx] calls is a function. *)
Definition complete (K : redis_keys) : Prop :=
  is_Some (dailyFinalizeLock K) /\ is_Some (userAwardLock K) /\ is_Some (userScore K).

End Keys.

(** ** [src/main.tsx]: locks, finalizer, awarder, vote handler *)

Module Main.
Import JSNumber Json Game Redis Keys IntString.

(** [!data] on a value read from the store. *)
Definition falsy (data : option string) : bool :=
  match data with
  | Some s => String.eqb s ""
  | None => true
  end.

(** [data || fallback] on strings. *)
Definition or_else (data : option string) (fallback : string) : string :=
  match data with
  | Some s => if String.eqb s "" then fallback else s
  | None => fallback
  end.

(** [typeof v === 'number' && !isNaN(v)] *)
Definition is_real_number (v : option json) : bool :=
  match v with
  | Some (JNum _) => true
  | Some (JFloat x) => negb (isNaN x)
  | _ => false
  end.

(** Calling a member of [REDIS_KEYS]. *)
Definition member {F} (name : string) (f : option F) : prog F :=
  match f with
  | Some g => Ret g
  | None => Throw (TypeError ("REDIS_KEYS." ++ name ++ " is not a function"))
  end.

Definition outcome_name (o : Outcome) : string :=
  match o with
  | all_cooperate => "all-cooperate"
  | all_defect => "all-defect"
  | mixed => "mixed"
  end.

Section WithHost.
Context `{Host}.
Variable K : redis_keys.

(** [safeJSONParse(data, fallback)]; [fallback] is [JNull] for the
    one-argument overload. *)
Definition safeJSONParse (data : option string) (fallback : json) : prog json :=
  if falsy data then Ret fallback
  else
    match JSON_parse (or_else data "") with
    | Some parsed => Ret parsed
    | None => await (CONSOLE JSONParseError);; Ret fallback
    end.

(** [String(n)] for a number held in a document. *)
Definition String_of (n : json) : string :=
  match n with
  | JNum z => String_of_Z z
  | _ => JSON_stringify n
  end.

Definition releaseLock (lockKey lockId label : string) : prog unit :=
  try_catch
    (currentLockId ← await (GET lockKey);
     if bool_decide (currentLockId = Some lockId)
     then await (DEL lockKey)
     else Ret tt)
    (fun _ => await (CONSOLE (ErrorReleasingLock label))).

(** The [DailyResults] object that the finalizer stores. *)
Definition results_document (day : string) (cooperateCount defectCount : number)
  : json :=
  let r := calculateResults cooperateCount defectCount in
  JObj [
    ("day", JStr day);
    ("totalVotes", of_number (add cooperateCount defectCount));
    ("cooperateCount", of_number cooperateCount);
    ("defectCount", of_number defectCount);
    ("cooperatePercent",
      of_number (mul (div cooperateCount (add cooperateCount defectCount)) (of_Z 100)));
    ("defectPercent",
      of_number (mul (div defectCount (add cooperateCount defectCount)) (of_Z 100)));
    ("outcome", JStr (outcome_name (outcome r)));
    ("pointsForCooperators", JNum (pointsForCooperators r));
    ("pointsForDefectors", JNum (pointsForDefectors r))
  ].

(** [finalizeDailyResults(context, postId, day)].  [lockId] is what
    [createLockId()] returns and [now] what [Date.now()] returns. *)
Definition finalizeDailyResults (lockId : string) (now : Z)
           (postId day : string) : prog unit :=
  try_catch
    (dailyFinalizeLock ← member "dailyFinalizeLock" (dailyFinalizeLock K);
     let lockKey := dailyFinalizeLock postId day in
     lockAcquired ← await (SET_NX lockKey lockId (Some (now + 30000)));
     if negb lockAcquired then Ret tt
     else
       try_finally
         (let finalizedKey := dailyFinalized K postId day in
          let resultsKey := dailyResults K postId day in
          alreadyFinalized ← await (GET finalizedKey);
          existingResultsData ← await (GET resultsKey);
          if negb (falsy existingResultsData) then
            if falsy alreadyFinalized
            then await (SET finalizedKey "true")
            else Ret tt
          else
            let cooperateKey := dailyCooperateCount K postId day in
            let defectKey := dailyDefectCount K postId day in
            cooperateCountStr ← await (GET cooperateKey);
            defectCountStr ← await (GET defectKey);
            match parseInt (or_else cooperateCountStr "0"),
                  parseInt (or_else defectCountStr "0") with
            | Some c, Some d =>
                let cooperateCount := of_Z c in
                let defectCount := of_Z d in
                if strict_eq cooperateCount (of_Z 0)
                   && strict_eq defectCount (of_Z 0)
                then Ret tt
                else
                  let results := results_document day cooperateCount defectCount in
                  await (MSET [(resultsKey, JSON_stringify results);
                               (finalizedKey, "true")]);;
                  await (CONSOLE (FinalizedResults day))
            | _, _ => await (CONSOLE (InvalidVoteCounts day))
            end)
         (releaseLock lockKey lockId "finalize"))
    (fun _ => await (CONSOLE (ErrorFinalizing day))).

(** The argument of [tx.incrBy]: the points read from the results
    document, which the client sends as an integer. *)
Definition points_argument (points : option json) : prog Z :=
  match points with
  | Some (JNum n) => Ret n
  | _ => Stuck "incrBy with an argument that is not an integer"
  end.

(** The transaction of [awardUserPoints] (from [context.redis.watch] to
    [tx.exec()]): the increment and the flagged vote are queued and sent
    with [exec], whose result the code does not look at. *)
Definition applyAward (voteKey scoreKey : string) (points : option json)
           (freshVote : json) (userId day : string) : prog unit :=
  tx ← await (WATCH [voteKey; scoreKey]);
  n ← points_argument points;
  await (EXEC tx [TX_INCRBY scoreKey n;
                  TX_SET voteKey (JSON_stringify freshVote)]);;
  await (CONSOLE (AwardedPoints n userId day)).

(** The part of [awardUserPoints] that runs while the award lock is held:
    the [try { ... } finally { releaseLock }] block. *)
Definition awardUnderLock (voteKey scoreKey lockKey lockId : string)
           (points : option json) (now : Z) (userId day : string) : prog unit :=
  try_finally
    (freshVoteData ← await (GET voteKey);
     freshVote ← safeJSONParse freshVoteData JNull;
     if negb (truthy_opt (prop freshVote "choice"))
     then await (CONSOLE (InvalidVoteData userId day))
     else
     if truthy_opt (prop freshVote "pointsAwarded") then Ret tt
     else
     let freshVote := set_prop "pointsAwarded" (JBool true) freshVote in
     let freshVote := set_prop "pointsAwardedAt" (JNum now) freshVote in
     applyAward voteKey scoreKey points freshVote userId day)
    (releaseLock lockKey lockId "award").

(** [awardUserPoints(context, postId, userId, day)].  [lockId] and
    [finalizeLockId] are the two lock ids drawn, [now] the clock. *)
Definition awardUserPoints (lockId finalizeLockId : string) (now : Z)
           (postId userId day : string) : prog unit :=
  try_catch
    (let voteKey := userVote K postId userId day in
     voteData ← await (GET voteKey);
     if falsy voteData then Ret tt
     else
     vote ← safeJSONParse voteData JNull;
     if negb (truthy_opt (prop vote "choice"))
     then await (CONSOLE (InvalidVoteData userId day))
     else
     if truthy_opt (prop vote "pointsAwarded") then Ret tt
     else
     let resultsKey := dailyResults K postId day in
     resultsData ← await (GET resultsKey);
     resultsData ←
       (if falsy resultsData
        then finalizeDailyResults finalizeLockId now postId day;;
             await (GET resultsKey)
        else Ret resultsData);
     if falsy resultsData then Ret tt
     else
     results ← safeJSONParse resultsData JNull;
     if negb (truthy results)
     then await (CONSOLE (InvalidResultsData day))
     else
     let points :=
       if is_text (prop vote "choice") "cooperate"
       then prop results "pointsForCooperators"
       else prop results "pointsForDefectors" in
     userScore ← member "userScore" (userScore K);
     let scoreKey := userScore postId userId in
     existingScore ← await (GET scoreKey);
     (if falsy existingScore then
        let statsKey := userStats K postId userId in
        statsData ← await (GET statsKey);
        stats ← safeJSONParse statsData JNull;
        if truthy stats && is_real_number (prop stats "totalScore")
        then
          await (SET_NX scoreKey
                   (String_of (default JNull (prop stats "totalScore"))) None);;
          Ret tt
        else Ret tt
      else Ret tt);;
     userAwardLock ← member "userAwardLock" (userAwardLock K);
     let lockKey := userAwardLock postId userId day in
     lockAcquired ← await (SET_NX lockKey lockId (Some (now + 30000)));
     if negb lockAcquired then Ret tt
     else awardUnderLock voteKey scoreKey lockKey lockId points now userId day)
    (fun _ => await (CONSOLE (ErrorAwarding userId day))).

(** The [UserVote] object that [handleVote] stores. *)
Definition vote_document (choice : Choice) (now : Z) (currentDay : string) : json :=
  JObj [("choice", Streaks.choice_to_json choice);
        ("timestamp", JNum now);
        ("day", JStr currentDay)].

Definition stats_to_json (s : Streaks.UserStats) : json :=
  JObj [("totalScore", JNum (Streaks.totalScore s));
        ("currentStreak", JNum (Streaks.statsCurrentStreak s));
        ("longestStreak", JNum (Streaks.statsLongestStreak s));
        ("totalVotes", JNum (Streaks.totalVotes s));
        ("cooperateCount", JNum (Streaks.cooperateCount s));
        ("defectCount", JNum (Streaks.defectCount s));
        ("history", JArr (Streaks.history s))].

Definition default_stats (totalScore : Z) : json :=
  stats_to_json
    {| Streaks.totalScore := totalScore;
       Streaks.statsCurrentStreak := 0;
       Streaks.statsLongestStreak := 0;
       Streaks.totalVotes := 0;
       Streaks.cooperateCount := 0;
       Streaks.defectCount := 0;
       Streaks.history := [] |}.

(** The stored stats document read at its type [UserStats], after
    [currentStats.totalScore = totalScore].  [updateUserStats] does
    arithmetic on the counters and spreads [history]; a document where
    these are not integers and an array is outside the model. *)
Definition stats_of_json (totalScore : Z) (j : json) : option Streaks.UserStats :=
  match prop j "longestStreak", prop j "totalVotes",
        prop j "cooperateCount", prop j "defectCount", prop j "history" with
  | Some (JNum longest), Some (JNum votes), Some (JNum coop), Some (JNum def),
    Some (JArr entries) =>
      Some {| Streaks.totalScore := totalScore;
              Streaks.statsCurrentStreak :=
                match prop j "currentStreak" with Some (JNum c) => c | _ => 0 end;
              Streaks.statsLongestStreak := longest;
              Streaks.totalVotes := votes;
              Streaks.cooperateCount := coop;
              Streaks.defectCount := def;
              Streaks.history := entries |}
  | _, _, _, _, _ => None
  end.

(** [handleVote(choice)] inside the post component.  [hasVotedToday] is
    the component state, [now] the clock, [currentDay] the value of
    [getCurrentDay()]. *)
Definition handleVote (hasVotedToday : bool) (choice : Choice) (now : Z)
           (postId userId currentDay : string) : prog unit :=
  match choice with
  | no_choice => Ret tt
  | _ =>
  if hasVotedToday then Ret tt
  else
  try_catch
    (let voteKey := userVote K postId userId currentDay in
     let vote := vote_document choice now currentDay in
     setResult ← await (SET_NX voteKey (JSON_stringify vote) None);
     if negb setResult then
       existingVoteData ← await (GET voteKey);
       existingVote ← safeJSONParse existingVoteData JNull;
       (if truthy_opt (prop existingVote "choice") then
          await (UI SetHasVotedToday);;
          await (UI (SetUserChoice (default JNull (prop existingVote "choice"))))
        else Ret tt);;
       await (UI ToastAlreadyVoted)
     else
       (if Streaks.is_cooperate choice
        then await (INCRBY (dailyCooperateCount K postId currentDay) 1)
        else await (INCRBY (dailyDefectCount K postId currentDay) 1));;
       let historyKey := userHistory K postId userId in
       historyData ← await (GET historyKey);
       history ← safeJSONParse historyData (JArr []);
       let newHistoryEntry :=
         {| Streaks.day := currentDay; Streaks.choice := choice |} in
       match history with
       | JArr items =>
           let history := JArr (items ++ [Streaks.entry_to_json newHistoryEntry])%list in
           await (SET historyKey (JSON_stringify history));;
           let statsKey := userStats K postId userId in
           currentStatsData ← await (GET statsKey);
           userScore ← member "userScore" (userScore K);
           let scoreKey := userScore postId userId in
           scoreData ← await (GET scoreKey);
           let totalScore :=
             if falsy scoreData then 0
             else default 0 (parseInt (or_else scoreData "0")) in
           totalScore ←
             (if falsy scoreData && negb (falsy currentStatsData) then
                existingStats ← safeJSONParse currentStatsData JNull;
                if truthy existingStats
                   && is_real_number (prop existingStats "totalScore")
                then
                  match prop existingStats "totalScore" with
                  | Some (JNum z) =>
                      (if 0 <? z
                       then await (SET_NX scoreKey (String_of_Z z) None);; Ret tt
                       else Ret tt);;
                      Ret z
                  | _ => Stuck "a total score that is not an integer"
                  end
                else Ret totalScore
              else Ret totalScore);
           currentStats ← safeJSONParse currentStatsData (default_stats totalScore);
           match stats_of_json totalScore currentStats with
           | Some currentStats =>
               let updatedStats :=
                 Streaks.updateUserStats now currentStats newHistoryEntry 0 in
               await (SET statsKey (JSON_stringify (stats_to_json updatedStats)));;
               await (UI SetHasVotedToday);;
               await (UI (SetUserChoice (Streaks.choice_to_json choice)));;
               await (UI BumpRefreshKey);;
               await (UI ToastVoteSubmitted)
           | None => Stuck "a stats document that is not a UserStats"
           end
       | _ => Throw (TypeError "history.push is not a function")
       end)
    (fun _ =>
       await (CONSOLE FailedToSubmitVote);;
       await (UI ToastFailedToSubmit))
  end.

End WithHost.

End Main.

(** ** A reference host

    An executable instance of [Host], used to run the program on concrete
    stores: a JSON codec for documents whose numbers are written without
    fraction or exponent and whose strings use the short escapes only, and
    the date-only ISO form [YYYY-MM-DD], which ECMAScript reads as midnight
    UTC.  On these inputs it agrees with [JSON.parse], [JSON.stringify] and
    [new Date]. *)

Module Reference.
Import Json IntString.

Definition quote : ascii := ascii_of_nat 34.
Definition backslash : ascii := ascii_of_nat 92.

Fixpoint escape (s : string) : string :=
  match s with
  | EmptyString => EmptyString
  | String c rest =>
      if Ascii.eqb c quote || Ascii.eqb c backslash
      then String backslash (String c (escape rest))
      else String c (escape rest)
  end.

Definition quoted (s : string) : string :=
  String quote (escape s ++ String quote EmptyString).

(** The exact decimal expansion of a double that is not an integer. *)
Definition decimal_of_float (x : spec_float) : string :=
  match x with
  | S754_finite s m e =>
      let k := Z.to_nat (- e) in
      let digits := NilZero.string_of_uint (Pos.to_uint (m * 5 ^ Pos.of_nat k)) in
      let padded :=
        String.string_of_list_ascii (replicate (S k - String.length digits) "0"%char)
        ++ digits in
      let cut := (String.length padded - k)%nat in
      (if s then "-" else "")
      ++ String.substring 0 cut padded ++ "." ++ String.substring cut k padded
  | _ => "null"
  end.

Fixpoint stringify (j : json) : string :=
  match j with
  | JNull => "null"
  | JBool true => "true"
  | JBool false => "false"
  | JNum z => String_of_Z z
  | JFloat x => decimal_of_float x
  | JStr s => quoted s
  | JArr items =>
      "[" ++ (fix elements (l : list json) : string :=
                match l with
                | [] => ""
                | [x] => stringify x
                | x :: rest => stringify x ++ "," ++ elements rest
                end) items ++ "]"
  | JObj members =>
      "{" ++ (fix fields (l : list (string * json)) : string :=
                match l with
                | [] => ""
                | [(k, v)] => quoted k ++ ":" ++ stringify v
                | (k, v) :: rest => quoted k ++ ":" ++ stringify v ++ "," ++ fields rest
                end) members ++ "}"
  end.

Fixpoint expect (word s : string) : option string :=
  match word, s with
  | EmptyString, _ => Some s
  | String a word', String b s' => if Ascii.eqb a b then expect word' s' else None
  | _, _ => None
  end.

(** The characters of a string literal after its opening quote. *)
Fixpoint read_string (s : string) : option (string * string) :=
  match s with
  | EmptyString => None
  | String c rest =>
      if Ascii.eqb c quote then Some (EmptyString, rest)
      else if Ascii.eqb c backslash then
        match rest with
        | String e rest' =>
            let plain (a : ascii) :=
              '(t, r) ← read_string rest'; Some (String a t, r) in
            if Ascii.eqb e quote then plain quote
            else if Ascii.eqb e backslash then plain backslash
            else if Ascii.eqb e "/" then plain "/"%char
            else if Ascii.eqb e "n" then plain (ascii_of_nat 10)
            else if Ascii.eqb e "t" then plain (ascii_of_nat 9)
            else if Ascii.eqb e "r" then plain (ascii_of_nat 13)
            else None
        | EmptyString => None
        end
      else '(t, r) ← read_string rest; Some (String c t, r)
  end.

Fixpoint read_digits (s : string) (acc : Z) : Z * string :=
  match s with
  | String c rest =>
      if is_digit c then read_digits rest (10 * acc + digit_value c) else (acc, s)
  | EmptyString => (acc, s)
  end.

(** An integer literal; a fraction or an exponent after it is refused. *)
Definition read_integer (s : string) : option (Z * string) :=
  let '(negative, t) :=
    match s with
    | String "-" rest => (true, rest)
    | _ => (false, s)
    end in
  match t with
  | String c rest =>
      if is_digit c then
        let '(n, r) := read_digits t 0 in
        let leading_zero :=
          Ascii.eqb c "0" && negb (String.eqb rest r) in
        let continues :=
          match r with
          | String d _ => Ascii.eqb d "." || Ascii.eqb d "e" || Ascii.eqb d "E"
          | EmptyString => false
          end in
        if leading_zero || continues then None
        else Some (if negative then - n else n, r)
      else None
  | EmptyString => None
  end.

Fixpoint read_value (fuel : nat) (s : string) : option (json * string) :=
  match fuel with
  | O => None
  | S fuel =>
      match skip_spaces s with
      | String "n" rest => r ← expect "ull" rest; Some (JNull, r)
      | String "t" rest => r ← expect "rue" rest; Some (JBool true, r)
      | String "f" rest => r ← expect "alse" rest; Some (JBool false, r)
      | String "[" rest =>
          match skip_spaces rest with
          | String "]" r => Some (JArr [], r)
          | _ => '(items, r) ← read_elements fuel rest; Some (JArr items, r)
          end
      | String "{" rest =>
          match skip_spaces rest with
          | String "}" r => Some (JObj [], r)
          | _ => '(members, r) ← read_members fuel rest; Some (JObj members, r)
          end
      | String c rest as t =>
          if Ascii.eqb c quote
          then '(text, r) ← read_string rest; Some (JStr text, r)
          else '(n, r) ← read_integer t; Some (JNum n, r)
      | EmptyString => None
      end
  end
with read_elements (fuel : nat) (s : string) : option (list json * string) :=
  match fuel with
  | O => None
  | S fuel =>
      '(v, r) ← read_value fuel s;
      match skip_spaces r with
      | String "," r' => '(vs, r'') ← read_elements fuel r'; Some (v :: vs, r'')
      | String "]" r' => Some ([v], r')
      | _ => None
      end
  end
with read_members (fuel : nat) (s : string) : option (list (string * json) * string) :=
  match fuel with
  | O => None
  | S fuel =>
      match skip_spaces s with
      | String c rest =>
          if Ascii.eqb c quote then
            '(k, r) ← read_string rest;
            match skip_spaces r with
            | String ":" r1 =>
                '(v, r2) ← read_value fuel r1;
                match skip_spaces r2 with
                | String "," r3 =>
                    '(ms, r4) ← read_members fuel r3;
                    Some ((k, v) :: ms, r4)
                | String "}" r3 => Some ([(k, v)], r3)
                | _ => None
                end
            | _ => None
            end
          else None
      | EmptyString => None
      end
  end.

(** A later member with the same name replaces an earlier one. *)
Fixpoint dedup (j : json) : json :=
  match j with
  | JArr items => JArr (map dedup items)
  | JObj members =>
      JObj (fold_left (fun acc kv => assign (fst kv) (snd kv) acc)
              (map (fun kv => (fst kv, dedup (snd kv))) members) [])
  | _ => j
  end.

Definition parse (s : string) : option json :=
  '(v, r) ← read_value (S (String.length s)) s;
  match skip_spaces r with
  | EmptyString => Some (dedup v)
  | _ => None
  end.

(** Days from 1970-01-01 to a date of the proleptic Gregorian calendar. *)
Definition days_from_civil (y m d : Z) : Z :=
  let y' := if m <=? 2 then y - 1 else y in
  let era := y' / 400 in
  let yoe := y' - era * 400 in
  let doy := (153 * (if 2 <? m then m - 3 else m + 9) + 2) / 5 + d - 1 in
  let doe := yoe * 365 + yoe / 4 - yoe / 100 + doy in
  era * 146097 + doe - 719468.

Definition is_leap (y : Z) : bool :=
  ((y mod 4 =? 0) && negb (y mod 100 =? 0)) || (y mod 400 =? 0).

Definition days_in_month (y m : Z) : Z :=
  if m =? 2 then (if is_leap y then 29 else 28)
  else if (m =? 4) || (m =? 6) || (m =? 9) || (m =? 11) then 30 else 31.

Definition iso_date (s : string) : option Z :=
  if Streaks.legacy_day_format s then
    let y := fst (read_digits (String.substring 0 4 s) 0) in
    let m := fst (read_digits (String.substring 5 2 s) 0) in
    let d := fst (read_digits (String.substring 8 2 s) 0) in
    if (1 <=? m) && (m <=? 12) && (1 <=? d) && (d <=? days_in_month y m)
    then Some (days_from_civil y m d * Streaks.MS_PER_DAY)
    else None
  else None.

Definition host : Host := {|
  JSON_parse := parse;
  JSON_stringify := stringify;
  Date_parse := iso_date
|}.

End Reference.

(** ** Concrete stores and invocations

    One post [p] and one participant [u], on the completed key table and
    the reference host.  [settled] holds an unawarded cooperate vote for
    2026-02-10 and that day's settled outcome (7 against 3: 3 points each);
    [two_days] also holds an unawarded defect vote for 2026-02-09 and that
    day's outcome (2 against 3: mixed, 5 points for defectors). *)

Module Scenario.
Import JSNumber Json Game Redis Keys Main.

Definition K : redis_keys := completed REDIS_KEYS.

Definition day1 : string := "2026-02-10".
Definition day2 : string := "2026-02-09".

Definition voteKey1 : string := userVote K "p" "u" day1.
Definition voteKey2 : string := userVote K "p" "u" day2.
Definition resultsKey1 : string := dailyResults K "p" day1.
Definition resultsKey2 : string := dailyResults K "p" day2.
Definition finalizedKey1 : string := dailyFinalized K "p" day1.
Definition scoreKey : string := "post:p:user:u:score".
Definition finalizeLockKey1 : string := "post:p:day:2026-02-10:finalize-lock".
Definition awardLockKey1 : string := "post:p:user:u:day:2026-02-10:award-lock".

Definition vote1 : string :=
  Reference.stringify (vote_document cooperate 1770700000000 day1).
Definition vote2 : string :=
  Reference.stringify (vote_document defect 1770600000000 day2).
Definition results1 : string :=
  Reference.stringify (results_document day1 (of_Z 7) (of_Z 3)).
Definition results2 : string :=
  Reference.stringify (results_document day2 (of_Z 2) (of_Z 3)).

Definition settled : store :=
  {| data := {[ voteKey1 := vote1; resultsKey1 := results1 ]};
     expires := ∅;
     version := ∅ |}.

Definition two_days : store :=
  {| data := {[ voteKey1 := vote1; resultsKey1 := results1;
                voteKey2 := vote2; resultsKey2 := results2 ]};
     expires := ∅;
     version := ∅ |}.

(** Two sessions of [u] awarding 2026-02-10, and one awarding
    2026-02-09. *)
Definition sessionA : prog unit :=
  awardUserPoints (H := Reference.host) K "1770800000000-a" "1770800000000-fa"
    1770800000000 "p" "u" day1.
Definition sessionB : prog unit :=
  awardUserPoints (H := Reference.host) K "1770800000001-b" "1770800000001-fb"
    1770800000001 "p" "u" day1.
Definition sessionC : prog unit :=
  awardUserPoints (H := Reference.host) K "1770800000002-c" "1770800000002-fc"
    1770800000002 "p" "u" day2.

(** Session A reads the vote under its lock and is then suspended until
    the lock has expired; session B runs from start to end; session A
    resumes. *)
Definition expiry_schedule : list action :=
  (replicate 6 (Step 0%nat) ++ [Expire awardLockKey1]
   ++ replicate 11 (Step 1%nat) ++ replicate 5 (Step 0%nat))%list.

(** Session A runs up to and including its WATCH; session C, which credits
    another day to the same score, runs from start to end; session A
    resumes with its EXEC. *)
Definition conflict_schedule : list action :=
  (replicate 7 (Step 0%nat) ++ replicate 11 (Step 1%nat)
   ++ replicate 4 (Step 0%nat))%list.

(** One session after the other. *)
Definition sequential_schedule : list action :=
  (replicate 11 (Step 0%nat) ++ replicate 11 (Step 1%nat))%list.

End Scenario.

(** ** [src/utils/game.ts]: the share grid *)

Module ShareGrid.
Import Config Game Streaks.

Definition newline : string := String (ascii_of_nat 10) EmptyString.

Definition getEmojiForChoice (choice : Choice) : string :=
  match choice with
  | cooperate => "🤝"
  | defect => "⚔️"
  | no_choice => "⬜"
  end.

(** [items.slice(-n)]: the last [n] items, or all of them when there are
    fewer; [-0] is [0], for which [slice] returns the whole array. *)
Definition slice_last {A} (n : Z) (items : list A) : list A :=
  if n <=? 0 then items
  else drop (Z.to_nat (Z.max (Z.of_nat (length items) - n) 0)) items.

(** The [forEach] callback applied to the items from [index] on, with the
    two variables it updates. *)
Fixpoint forEachItem (items : list HistEntry) (index : Z) (grid row : string)
  : string * string :=
  match items with
  | [] => (grid, row)
  | item :: rest =>
      let row := row ++ getEmojiForChoice (choice item) in
      if (index + 1) mod SHARE_GRID_ROW_LENGTH GAME_CONFIG =? 0
      then forEachItem rest (index + 1) (grid ++ (row ++ newline)) ""
      else forEachItem rest (index + 1) grid row
  end.

Definition header : string := "DilemmaForge Streak:" ++ newline.

Definition generateShareGrid (history : list HistEntry) : string :=
  let recent := slice_last (MAX_SHARE_GRID_DAYS GAME_CONFIG) history in
  let '(grid, row) := forEachItem recent 0 header "" in
  if negb (String.eqb row "") then grid ++ (row ++ newline) else grid.

(** [text.split('\n')[0]] *)
Fixpoint first_line (text : string) : string :=
  match text with
  | EmptyString => EmptyString
  | String c rest =>
      if Ascii.eqb c (ascii_of_nat 10) then EmptyString
      else String c (first_line rest)
  end.

(** The text of the toast that the Copy button of the history view shows;
    [None] when it shows none ([main.tsx], the [onPress] handler). *)
Definition copyToast (parsedHistory : list HistEntry) : option string :=
  if (0 <? length parsedHistory)%nat
  then
    let grid := generateShareGrid (slice_last 30 parsedHistory) in
    Some ("Share your streak: " ++ first_line grid)
  else None.

(** The grid described row by row: the emojis of one row, closed by a
    newline; no row for no emojis. *)
Fixpoint join (cells : list string) : string :=
  match cells with
  | [] => ""
  | cell :: rest => cell ++ join rest
  end.

Definition line (cells : list string) : string :=
  match cells with
  | [] => ""
  | _ => join cells ++ newline
  end.

Definition emojis (items : list HistEntry) : list string :=
  (fun item => getEmojiForChoice (choice item)) <$> items.

End ShareGrid.

(** ** Identifiers in keys *)

Module KeyScheme.

(** An identifier without the separator of the key pattern. *)
Fixpoint colon_free (s : string) : bool :=
  match s with
  | EmptyString => true
  | String c rest => negb (Ascii.eqb c ":") && colon_free rest
  end.

End KeyScheme.

(** ** [src/main.tsx]: the history view *)

Module HistoryView.
Import Json Game Streaks.

Section WithHost.
Context `{Host}.

(** The callback that the history view maps over [userStats.history]:
    [null] is [None]. *)
Definition parseViewEntry (h : json) : option json :=
  match h with
  | JStr s =>
      if legacy_day_format s
      then Some (JObj [("day", JStr s); ("choice", JNull)])
      else
        match JSON_parse s with
        | Some parsed =>
            if well_shaped parsed then
              match prop parsed "day", prop parsed "choice" with
              | Some d, Some c => Some (JObj [("day", d); ("choice", c)])
              | _, _ => None
              end
            else None
        | None => None
        end
  | _ => if well_shaped h then Some h else None
  end.

(** [(userStats?.history ?? []).map(...).filter((h) => h !== null)] *)
Definition parsedHistory (history : list json) : list json :=
  omap parseViewEntry history.

End WithHost.

End HistoryView.

(** ** What one uninterrupted finalization does to the data *)

Module Settlement.
Import JSNumber Json Game Redis Keys Main IntString.

Section WithHost.
Context `{Host}.
Variable K : redis_keys.

(** The data of the store after [finalizeDailyResults] has run alone, as a
    function of the data before: the summary that the properties of the
    finalizer are stated against ([g] is the lock-key generator). *)
Definition finalized_data (g : string -> string -> string) (postId day : string)
           (m : gmap string string) : gmap string string :=
  let lockKey := g postId day in
  let finalizedKey := dailyFinalized K postId day in
  let resultsKey := dailyResults K postId day in
  let cooperateKey := dailyCooperateCount K postId day in
  let defectKey := dailyDefectCount K postId day in
  match m !! lockKey with
  | Some _ => m
  | None =>
      if negb (falsy (m !! resultsKey)) then
        if falsy (m !! finalizedKey) then <[finalizedKey := "true"]> m else m
      else
        match parseInt (or_else (m !! cooperateKey) "0"),
              parseInt (or_else (m !! defectKey) "0") with
        | Some c, Some d =>
            if strict_eq (of_Z c) (of_Z 0) && strict_eq (of_Z d) (of_Z 0) then m
            else
              <[finalizedKey := "true"]>
                (<[resultsKey := JSON_stringify (results_document day (of_Z c) (of_Z d))]> m)
        | _, _ => m
        end
  end.

End WithHost.

End Settlement.

(** A store in which the day 2026-02-10 of post [p] has seven cooperate
    votes and three defect votes counted and is not settled. *)
Module Counted.
Import Redis.

Definition counted : store :=
  {| data := {[ "post:p:day:2026-02-10:cooperate" := "7";
                "post:p:day:2026-02-10:defect" := "3" ]};
     expires := ∅;
     version := ∅ |}.

Definition finalizeLock (postId day : string) : string :=
  "post:" ++ postId ++ ":day:" ++ day ++ ":finalize-lock".

End Counted.

(** ** [src/main.tsx]: the loaders of the post component *)

Module Loaders.
Import JSNumber Json Game Redis Keys Main IntString.

(** [parseInt(data || '0', 10) || 0] *)
Definition count_or_zero (data : option string) : Z :=
  default 0 (parseInt (or_else data "0")).

Section WithHost.
Context `{Host}.
Variable K : redis_keys.

(** The first [useAsync] callback: today's vote of the participant. *)
Definition loadTodayVote (postId userId currentDay : string) : prog json :=
  let voteKey := userVote K postId userId currentDay in
  voteData ← await (GET voteKey);
  if negb (falsy voteData) then
    vote ← safeJSONParse voteData JNull;
    if truthy_opt (prop vote "choice") then
      await (UI SetHasVotedToday);;
      await (UI (SetUserChoice (default JNull (prop vote "choice"))));;
      Ret vote
    else Ret JNull
  else Ret JNull.

(** The object that the second callback builds from the counters. *)
Definition live_results (currentDay : string) (cooperateCount defectCount : number)
  : json :=
  let totalVotes := add cooperateCount defectCount in
  let cooperatePercent :=
    if gt totalVotes (of_Z 0)
    then mul (div cooperateCount totalVotes) (of_Z 100) else of_Z 0 in
  let defectPercent :=
    if gt totalVotes (of_Z 0)
    then mul (div defectCount totalVotes) (of_Z 100) else of_Z 0 in
  let r := calculateResults cooperateCount defectCount in
  JObj [
    ("day", JStr currentDay);
    ("totalVotes", of_number totalVotes);
    ("cooperateCount", of_number cooperateCount);
    ("defectCount", of_number defectCount);
    ("cooperatePercent", of_number cooperatePercent);
    ("defectPercent", of_number defectPercent);
    ("outcome", JStr (outcome_name (outcome r)));
    ("pointsForCooperators", JNum (pointsForCooperators r));
    ("pointsForDefectors", JNum (pointsForDefectors r))
  ].

(** The second callback: today's results, cached or computed from the
    counters. *)
Definition loadTodayResults (postId currentDay : string) : prog json :=
  let resultsKey := dailyResults K postId currentDay in
  resultsData ← await (GET resultsKey);
  cached ←
    (if negb (falsy resultsData) then
       results ← safeJSONParse resultsData JNull;
       Ret (if truthy results then Some results else None)
     else Ret None);
  match cached with
  | Some results => Ret results
  | None =>
      let cooperateKey := dailyCooperateCount K postId currentDay in
      let defectKey := dailyDefectCount K postId currentDay in
      cooperateCountStr ← await (GET cooperateKey);
      defectCountStr ← await (GET defectKey);
      let cooperateCount := of_Z (count_or_zero cooperateCountStr) in
      let defectCount := of_Z (count_or_zero defectCountStr) in
      Ret (live_results currentDay cooperateCount defectCount)
  end.

(** [typeof stats.totalScore === 'number' ? stats.totalScore : 0] *)
Definition stored_total (stats : json) : json :=
  match prop stats "totalScore" with
  | Some (JNum z) => JNum z
  | Some (JFloat x) => JFloat x
  | _ => JNum 0
  end.

(** [totalScore > 0] *)
Definition positive (n : json) : bool :=
  match n with
  | JNum z => 0 <? z
  | JFloat x => gt x (of_Z 0)
  | _ => false
  end.

(** The third callback: yesterday is settled and awarded, then the stats
    are read.  [yesterdayStr] is the date string the callback computes
    from the clock; [finalizeId], [awardId] and [awardFinalizeId] are the
    lock ids drawn on the way. *)
Definition loadUserStats (finalizeId awardId awardFinalizeId : string) (now : Z)
           (postId userId yesterdayStr : string) : prog json :=
  let statsKey := userStats K postId userId in
  userScore ← member "userScore" (userScore K);
  let scoreKey := userScore postId userId in
  finalizeDailyResults K finalizeId now postId yesterdayStr;;
  awardUserPoints K awardId awardFinalizeId now postId userId yesterdayStr;;
  updatedStatsData ← await (GET statsKey);
  scoreData ← await (GET scoreKey);
  stats ←
    (if negb (falsy updatedStatsData)
     then safeJSONParse updatedStatsData JNull
     else Ret JNull);
  if truthy stats then
    let totalScore :=
      if negb (falsy scoreData) then JNum (count_or_zero scoreData)
      else stored_total stats in
    (if falsy scoreData && positive totalScore
     then await (SET_NX scoreKey (String_of totalScore) None);; Ret tt
     else Ret tt);;
    match stats with
    | JObj _ => Ret (set_prop "totalScore" totalScore stats)
    | JArr _ => Stuck "a stats document that is an array"
    | _ => Throw (TypeError "Cannot create property 'totalScore'")
    end
  else
    Ret (default_stats (count_or_zero scoreData)).

End WithHost.

End Loaders.

(** A participant who voted on 2026-02-10 and opens the post the day
    after: the day is settled, the score key holds 4 and the stats
    document is stored. *)
Module Returning.
Import Json Redis Main Scenario.

Definition statsKey : string := "post:p:user:u:stats".

Definition stored_stats : json := default_stats 4.

Definition opened : store :=
  {| data := {[ voteKey1 := vote1; resultsKey1 := results1;
                statsKey := Reference.stringify stored_stats;
                scoreKey := "4" ]};
     expires := ∅;
     version := ∅ |}.

Definition finalized : result unit * store * list cmd :=
  run (finalizeDailyResults (H := Reference.host) K "1770811200123-f"
         1770811200123 "p" day1) opened.

Definition awarded : result unit * store * list cmd :=
  run (awardUserPoints (H := Reference.host) K "1770811200123-a" "1770811200123-fa"
         1770811200123 "p" "u" day1) (snd (fst finalized)).

End Returning.

(** ** [Date]: the time values behind [new Date()]

    A time value is a number of milliseconds since 1970-01-01T00:00:00Z.
    The functions below are the abstract operations of ECMA-262,
    section "Time Values and Time Range", under their names there;
    [YearFromTime], which the standard describes by a property, is
    computed from an estimate and shown to have that property. *)

Module Date.

Definition msPerDay : Z := 86400000.

Definition Day (t : Z) : Z := t / msPerDay.

Definition DaysInYear (y : Z) : Z :=
  if negb (y mod 4 =? 0) then 365
  else if negb (y mod 100 =? 0) then 366
  else if negb (y mod 400 =? 0) then 365
  else 366.

Definition DayFromYear (y : Z) : Z :=
  365 * (y - 1970) + (y - 1969) / 4 - (y - 1901) / 100 + (y - 1601) / 400.

Definition TimeFromYear (y : Z) : Z := msPerDay * DayFromYear y.

(** The largest [y] with [TimeFromYear y <= t]. *)
Definition YearFromTime (t : Z) : Z :=
  let y := 1970 + Day t * 400 / 146097 in
  if DayFromYear (y + 1) <=? Day t then y + 1
  else if DayFromYear y <=? Day t then y
  else y - 1.

Definition leap (y : Z) : Z := if DaysInYear y =? 366 then 1 else 0.

Definition InLeapYear (t : Z) : Z := leap (YearFromTime t).

Definition DayWithinYear (t : Z) : Z := Day t - DayFromYear (YearFromTime t).

Definition MonthFromTime (t : Z) : Z :=
  let d := DayWithinYear t in
  let l := InLeapYear t in
  if d <? 31 then 0
  else if d <? 59 + l then 1
  else if d <? 90 + l then 2
  else if d <? 120 + l then 3
  else if d <? 151 + l then 4
  else if d <? 181 + l then 5
  else if d <? 212 + l then 6
  else if d <? 243 + l then 7
  else if d <? 273 + l then 8
  else if d <? 304 + l then 9
  else if d <? 334 + l then 10
  else 11.

Definition DateFromTime (t : Z) : Z :=
  let d := DayWithinYear t in
  let l := InLeapYear t in
  match MonthFromTime t with
  | 0 => d + 1
  | 1 => d - 30
  | 2 => d - 58 - l
  | 3 => d - 89 - l
  | 4 => d - 119 - l
  | 5 => d - 150 - l
  | 6 => d - 180 - l
  | 7 => d - 211 - l
  | 8 => d - 242 - l
  | 9 => d - 272 - l
  | 10 => d - 303 - l
  | _ => d - 333 - l
  end.

(** The day number of the first day of month [mn] (from 0) of year [ym]:
    the day of the time value [t] that [MakeDay] looks for, with
    [YearFromTime t = ym], [MonthFromTime t = mn] and [DateFromTime t = 1]. *)
Definition FirstOfMonth (ym mn : Z) : Z :=
  let l := leap ym in
  DayFromYear ym
  + match mn with
    | 0 => 0
    | 1 => 31
    | 2 => 59 + l
    | 3 => 90 + l
    | 4 => 120 + l
    | 5 => 151 + l
    | 6 => 181 + l
    | 7 => 212 + l
    | 8 => 243 + l
    | 9 => 273 + l
    | 10 => 304 + l
    | _ => 334 + l
    end.

Definition MakeDay (year month date : Z) : Z :=
  let ym := year + month / 12 in
  let mn := month mod 12 in
  FirstOfMonth ym mn + date - 1.

Definition MakeDate (day time : Z) : Z := day * msPerDay + time.

(** [None] is NaN. *)
Definition TimeClip (time : Z) : option Z :=
  if Z.abs time <=? 8640000000000000 then Some time else None.

(** [Date.UTC(year, month, date, 0, 0, 0, 0)] on integers. *)
Definition UTC (year month date : Z) : option Z :=
  let yr := if (0 <=? year) && (year <=? 99) then 1900 + year else year in
  TimeClip (MakeDate (MakeDay yr month date) 0).

End Date.

(** ** [src/utils/game.ts]: the day of the game *)

Module GameClock.
Import Date IntString.

(** [s.padStart(targetLength, '0')] *)
Definition padStart (targetLength : nat) (s : string) : string :=
  let fillLen := (targetLength - String.length s)%nat in
  String.concat "" (replicate fillLen "0") ++ s.

(** [now] is the time value of [new Date()]. *)
Definition getCurrentDay (now : Z) : string :=
  let year := YearFromTime now in
  let month := padStart 2 (String_of_Z (MonthFromTime now + 1)) in
  let day := padStart 2 (String_of_Z (DateFromTime now)) in
  String_of_Z year ++ "-" ++ month ++ "-" ++ day.

(** The time value of the date returned; [None] is an invalid date. *)
Definition getNextMidnightUTC (now : Z) : option Z :=
  UTC (YearFromTime now) (MonthFromTime now) (DateFromTime now + 1).

(** What [String_of_Z] gives on a year of four digits and on a month or
    day number: checks that are run over the whole range. *)
Definition digit (c : ascii) : bool := Streaks.is_digit c.

Definition four_digits (y : Z) : bool :=
  match String_of_Z y with
  | String a (String b (String c (String d EmptyString))) =>
      digit a && digit b && digit c && digit d
      && (1000 * digit_value a + 100 * digit_value b
          + 10 * digit_value c + digit_value d =? y)
  | _ => false
  end.

Definition two_digits (n : Z) : bool :=
  match padStart 2 (String_of_Z n) with
  | String a (String b EmptyString) =>
      digit a && digit b && (10 * digit_value a + digit_value b =? n)
  | _ => false
  end.

(** The number that a decimal numeral reads as, after the digits [acc]. *)
Fixpoint uint_value (u : Decimal.uint) (acc : Z) : Z :=
  match u with
  | Decimal.Nil => acc
  | Decimal.D0 l => uint_value l (10 * acc + 0)
  | Decimal.D1 l => uint_value l (10 * acc + 1)
  | Decimal.D2 l => uint_value l (10 * acc + 2)
  | Decimal.D3 l => uint_value l (10 * acc + 3)
  | Decimal.D4 l => uint_value l (10 * acc + 4)
  | Decimal.D5 l => uint_value l (10 * acc + 5)
  | Decimal.D6 l => uint_value l (10 * acc + 6)
  | Decimal.D7 l => uint_value l (10 * acc + 7)
  | Decimal.D8 l => uint_value l (10 * acc + 8)
  | Decimal.D9 l => uint_value l (10 * acc + 9)
  end.

Definition from_to (first count : Z) : list Z :=
  (fun i => first + Z.of_nat i) <$> seq 0 (Z.to_nat count).

End GameClock.

(** ** A lock whose holder is slow

    Session A holds the lock and is about to release it; the lock expires
    and session B acquires it with its own token, by the conditional
    create that [finalizeDailyResults] and [awardUserPoints] use. *)
Module LockRace.
Import Redis Main.

Definition lockKey : string := "lock".

Definition held : store :=
  {| data := {[ lockKey := "token-A" ]};
     expires := {[ lockKey := 1770800030000 ]};
     version := ∅ |}.

Definition releasing : prog unit := releaseLock lockKey "token-A" "finalize".

Definition acquiring : prog unit :=
  lockAcquired ← await (SET_NX lockKey "token-B" (Some 1770800061000));
  Ret tt.

(** Session A reads the lock, the lock expires, session B acquires it,
    session A resumes. *)
Definition race : list action :=
  [Step 0%nat; Expire lockKey; Step 1%nat; Step 0%nat].

End LockRace.

(** ** A stored history with an entry whose day is no date *)
Module Undated.
Import Json Game Streaks.

Definition undated : json :=
  JObj [("day", JStr "not a day"); ("choice", JStr "cooperate")].

Definition stored (entries : list json) : UserStats :=
  {| totalScore := 0; statsCurrentStreak := 0; statsLongestStreak := 0;
     totalVotes := 1; cooperateCount := 1; defectCount := 0;
     history := entries |}.

Definition vote : HistEntry := {| day := "2026-02-11"; choice := defect |}.

(** Noon of 2026-02-11 (UTC). *)
Definition now : Z := 1770811200000.

End Undated.

(** * Verified properties *)

(** ** Binary64 arithmetic on vote counts

    The outcome rule divides, multiplies and compares doubles.  This part
    describes those operations on the doubles that vote counts give:
    [binary_round_aux] is related to rounding a fraction to the nearest
    integer, ties to even, and from there the quotient, the product by 100
    and the comparison with 70 are computed in closed form. *)

Section Binary64Rounding.
Import Binary64.

Local Abbreviation prec := 53.
Local Abbreviation emax := 1024.
Local Abbreviation of_Z z := (binary_normalize 53 1024 z 0 false).

Lemma digits2_size (p : positive) : digits2_pos p = Pos.size p.
Proof. induction p; simpl; congruence. Qed.

Lemma digits_bounds (p : positive) :
  2 ^ (Z.pos (digits2_pos p) - 1) <= Z.pos p < 2 ^ Z.pos (digits2_pos p).
Proof.
  rewrite digits2_size. split.
  - pose proof (Pos.size_le p) as Hle.
    assert (E : Z.pos (2 ^ Pos.size p) = 2 ^ Z.pos (Pos.size p)) by apply Pos2Z.inj_pow.
    replace (Z.pos (Pos.size p)) with (Z.pos (Pos.size p) - 1 + 1) in E by lia.
    rewrite Z.pow_add_r in E by lia.
    assert (Z.pos (2 ^ Pos.size p) <= Z.pos p~0) by exact Hle. lia.
  - pose proof (Pos.size_gt p) as Hgt.
    assert (E : Z.pos (2 ^ Pos.size p) = 2 ^ Z.pos (Pos.size p)) by apply Pos2Z.inj_pow.
    assert (Z.pos p < Z.pos (2 ^ Pos.size p)) by exact Hgt. lia.
Qed.

Lemma digits_unique (p : positive) (k : Z) :
  2 ^ (k - 1) <= Z.pos p < 2 ^ k -> Z.pos (digits2_pos p) = k.
Proof.
  intros [Hlo Hhi]. pose proof (digits_bounds p) as [Dlo Dhi].
  set (d := Z.pos (digits2_pos p)) in *.
  assert (0 < d) by (unfold d; lia).
  destruct (Z.lt_trichotomy d k) as [Hlt | [Heq | Hgt]]; [| assumption |].
  - assert (0 <= k - 1) by lia.
    assert (2 ^ d <= 2 ^ (k - 1)) by (apply Z.pow_le_mono_r; lia). lia.
  - assert (k <= d - 1) by lia.
    destruct (Z_lt_le_dec k 0) as [Hk | Hk].
    + rewrite Z.pow_neg_r in Hhi by assumption. lia.
    + assert (2 ^ k <= 2 ^ (d - 1)) by (apply Z.pow_le_mono_r; lia). lia.
Qed.

Lemma iter_pos_nat {A} (f : A -> A) (n : positive) (x : A) :
  SpecFloat.iter_pos f n x = Nat.iter (Pos.to_nat n) f x.
Proof.
  revert x. induction n as [n IH | n IH |]; intros x; cbn [SpecFloat.iter_pos].
  - rewrite !IH. rewrite Pos2Nat.inj_xI.
    replace (S (2 * Pos.to_nat n))%nat with (Pos.to_nat n + (Pos.to_nat n + 1))%nat by lia.
    rewrite !Nat.iter_add. reflexivity.
  - rewrite !IH. rewrite Pos2Nat.inj_xO.
    replace (2 * Pos.to_nat n)%nat with (Pos.to_nat n + Pos.to_nat n)%nat by lia.
    rewrite Nat.iter_add. reflexivity.
  - reflexivity.
Qed.

Lemma shr_1_frac (m r D : Z) :
  0 <= m -> 0 <= r < D ->
  shr_1 (shr_record_of_loc m (loc_frac r D))
  = shr_record_of_loc (m / 2) (loc_frac ((m mod 2) * D + r) (2 * D)).
Proof.
  intros Hm Hr.
  assert (Hdiv : m = 2 * (m / 2) + m mod 2) by (apply Z.div_mod; lia).
  assert (Hmod : 0 <= m mod 2 < 2) by (apply Z.mod_pos_bound; lia).
  unfold loc_frac.
  destruct (Z.eqb_spec r 0) as [-> | Hr0].
  - destruct m as [| [p | p |] |]; try lia; cbn [shr_record_of_loc shr_1 orb].
    + reflexivity.
    + rewrite Pos2Z.inj_xI in *.
      replace ((2 * Z.pos p + 1) / 2) with (Z.pos p) by lia.
      replace ((2 * Z.pos p + 1) mod 2) with 1 by lia.
      replace (1 * D + 0 =? 0) with false by (symmetry; apply Z.eqb_neq; lia).
      replace (2 * (1 * D + 0) ?= 2 * D) with Eq by (symmetry; apply Z.compare_eq_iff; lia).
      reflexivity.
    + rewrite Pos2Z.inj_xO in *.
      replace ((2 * Z.pos p) / 2) with (Z.pos p) by lia.
      replace ((2 * Z.pos p) mod 2) with 0 by lia.
      reflexivity.
    + replace (1 / 2) with 0 by reflexivity. replace (1 mod 2) with 1 by reflexivity.
      replace (1 * D + 0 =? 0) with false by (symmetry; apply Z.eqb_neq; lia).
      replace (2 * (1 * D + 0) ?= 2 * D) with Eq by (symmetry; apply Z.compare_eq_iff; lia).
      reflexivity.
  - assert (Hsticky : forall b, (let '(Build_shr_record _ rb sb) :=
                shr_record_of_loc b (loc_Inexact (2 * r ?= D)) in orb rb sb) = true).
    { intros b. destruct (2 * r ?= D); reflexivity. }
    destruct m as [| [p | p |] |]; try lia.
    + replace (0 / 2) with 0 by reflexivity. replace (0 mod 2) with 0 by reflexivity.
      replace (0 * D + r =? 0) with false by (symmetry; apply Z.eqb_neq; lia).
      replace (2 * (0 * D + r) ?= 2 * D) with Lt by (symmetry; apply Z.compare_lt_iff; lia).
      destruct (2 * r ?= D); reflexivity.
    + rewrite Pos2Z.inj_xI in *.
      replace ((2 * Z.pos p + 1) / 2) with (Z.pos p) by lia.
      replace ((2 * Z.pos p + 1) mod 2) with 1 by lia.
      replace (1 * D + r =? 0) with false by (symmetry; apply Z.eqb_neq; lia).
      replace (2 * (1 * D + r) ?= 2 * D) with Gt by (symmetry; apply Z.compare_gt_iff; lia).
      destruct (2 * r ?= D); reflexivity.
    + rewrite Pos2Z.inj_xO in *.
      replace ((2 * Z.pos p) / 2) with (Z.pos p) by lia.
      replace ((2 * Z.pos p) mod 2) with 0 by lia.
      replace (0 * D + r =? 0) with false by (symmetry; apply Z.eqb_neq; lia).
      replace (2 * (0 * D + r) ?= 2 * D) with Lt by (symmetry; apply Z.compare_lt_iff; lia).
      destruct (2 * r ?= D); reflexivity.
    + replace (1 / 2) with 0 by reflexivity. replace (1 mod 2) with 1 by reflexivity.
      replace (1 * D + r =? 0) with false by (symmetry; apply Z.eqb_neq; lia).
      replace (2 * (1 * D + r) ?= 2 * D) with Gt by (symmetry; apply Z.compare_gt_iff; lia).
      destruct (2 * r ?= D); reflexivity.
Qed.

Lemma frac_bound (a p r D : Z) :
  0 <= a < p -> 0 <= r < D -> 0 <= a * D + r < p * D.
Proof.
  intros Ha Hr. split; [nia |].
  assert (a * D + D <= p * D) by nia. lia.
Qed.

Lemma shr_n_frac (n : nat) (m r D : Z) :
  0 <= m -> 0 <= r < D ->
  Nat.iter n shr_1 (shr_record_of_loc m (loc_frac r D))
  = shr_record_of_loc (m / 2 ^ Z.of_nat n)
      (loc_frac ((m mod 2 ^ Z.of_nat n) * D + r) (2 ^ Z.of_nat n * D)).
Proof.
  intros Hm Hr. induction n as [| n IH].
  - change (2 ^ Z.of_nat 0) with 1.
    change (Nat.iter 0 shr_1 ?x) with x.
    rewrite Z.div_1_r, Z.mod_1_r.
    replace (0 * D + r) with r by lia. replace (1 * D) with D by lia. reflexivity.
  - rewrite Nat.iter_succ, IH.
    assert (Hpow : 0 < 2 ^ Z.of_nat n) by (apply Z.pow_pos_nonneg; lia).
    assert (Hmod : 0 <= m mod 2 ^ Z.of_nat n < 2 ^ Z.of_nat n)
      by (apply Z.mod_pos_bound; assumption).
    rewrite shr_1_frac; [| apply Z.div_pos; [exact Hm | exact Hpow]
                         | apply frac_bound; assumption].
    replace (Z.of_nat (S n)) with (Z.of_nat n + 1) by lia.
    rewrite Z.pow_add_r by lia. change (2 ^ 1) with 2.
    rewrite <- Z.div_div by lia.
    rewrite (Z.rem_mul_r m (2 ^ Z.of_nat n) 2) by lia.
    replace (m / 2 ^ Z.of_nat n mod 2 * (2 ^ Z.of_nat n * D)
             + (m mod 2 ^ Z.of_nat n * D + r))
      with ((m mod 2 ^ Z.of_nat n + 2 ^ Z.of_nat n * (m / 2 ^ Z.of_nat n mod 2)) * D + r)
      by ring.
    replace (2 * (2 ^ Z.of_nat n * D)) with (2 ^ Z.of_nat n * 2 * D) by ring.
    reflexivity.
Qed.

Lemma shr_frac (m r D e n : Z) :
  0 <= m -> 0 <= r < D -> 0 <= n ->
  shr (shr_record_of_loc m (loc_frac r D)) e n
  = (shr_record_of_loc (m / 2 ^ n) (loc_frac ((m mod 2 ^ n) * D + r) (2 ^ n * D)),
     e + n).
Proof.
  intros Hm Hr Hn. destruct n as [| p | p]; [| | lia].
  - cbn [shr]. change (2 ^ 0) with 1.
    rewrite Z.div_1_r, Z.mod_1_r.
    replace (0 * D + r) with r by lia. replace (1 * D) with D by lia.
    replace (e + 0) with e by lia. reflexivity.
  - cbn [shr]. rewrite iter_pos_nat, shr_n_frac by assumption.
    rewrite positive_nat_Z. reflexivity.
Qed.

Lemma loc_of_record (m : Z) (l : location) :
  loc_of_shr_record (shr_record_of_loc m l) = l.
Proof. destruct l as [| []]; reflexivity. Qed.

Lemma shr_m_record (m : Z) (l : location) : shr_m (shr_record_of_loc m l) = m.
Proof. destruct l as [| []]; reflexivity. Qed.

Lemma round_nearest_even_frac (m r D : Z) :
  0 <= r < D -> round_nearest_even m (loc_frac r D) = nearest_even m r D.
Proof.
  intros Hr. unfold loc_frac, nearest_even.
  destruct (Z.eqb_spec r 0) as [-> | Hr0].
  - cbn [round_nearest_even]. destruct (Z.ltb_spec (2 * 0) D); [reflexivity | lia].
  - cbn [round_nearest_even].
    destruct (Z.compare_spec (2 * r) D) as [E | L | G].
    + destruct (Z.ltb_spec (2 * r) D); [lia |].
      destruct (Z.eqb_spec (2 * r) D); [reflexivity | lia].
    + destruct (Z.ltb_spec (2 * r) D); [reflexivity | lia].
    + destruct (Z.ltb_spec (2 * r) D); [lia |].
      destruct (Z.eqb_spec (2 * r) D); [lia | reflexivity].
Qed.

Lemma nearest_even_exact (m D : Z) : 0 < D -> nearest_even m 0 D = m.
Proof.
  intros HD. unfold nearest_even.
  destruct (Z.ltb_spec (2 * 0) D); [reflexivity | lia].
Qed.

Lemma Zdigits2_unique (m k : Z) :
  0 < m -> 2 ^ (k - 1) <= m < 2 ^ k -> Zdigits2 m = k.
Proof.
  intros Hm Hb. destruct m as [| p |]; try lia.
  cbn [Zdigits2]. apply digits_unique. assumption.
Qed.

Lemma Zdigits2_bounds (m : Z) :
  0 < m -> 2 ^ (Zdigits2 m - 1) <= m < 2 ^ Zdigits2 m.
Proof.
  intros Hm. destruct m as [| p |]; try lia. apply digits_bounds.
Qed.

Lemma fexp_normal (e : Z) : -1021 <= e -> fexp prec emax e = e - 53.
Proof. intros He. unfold fexp, emin. lia. Qed.

(** [binary_round_aux] on a value [(mx + r / D) * 2 ^ ex] whose mantissa has
    [53 + n] digits, away from underflow and overflow. *)
Lemma binary_round_aux_normal (s : bool) (mx ex r D n : Z) :
  0 < mx -> Zdigits2 mx = 53 + n -> 0 <= n ->
  -1074 <= ex + n <= 970 -> 0 <= r < D ->
  let m1 := mx / 2 ^ n in
  let M := nearest_even m1 ((mx mod 2 ^ n) * D + r) (2 ^ n * D) in
  2 ^ 52 <= m1 < 2 ^ 53
  /\ binary_round_aux prec emax s mx ex (loc_frac r D)
     = if M <? 2 ^ 53 then S754_finite s (Z.to_pos M) (ex + n)
       else S754_finite s (Z.to_pos (2 ^ 52)) (ex + n + 1).
Proof.
  intros Hmx Hdig Hn Hex Hr m1 M.
  assert (Hpow : 0 < 2 ^ n) by (apply Z.pow_pos_nonneg; lia).
  pose proof (Zdigits2_bounds mx Hmx) as Hb. rewrite Hdig in Hb.
  assert (Hm1 : 2 ^ 52 <= m1 < 2 ^ 53).
  { unfold m1. replace (53 + n - 1) with (52 + n) in Hb by lia.
    rewrite !Z.pow_add_r in Hb by lia. split.
    - apply Z.div_le_lower_bound; lia.
    - apply Z.div_lt_upper_bound; lia. }
  split; [exact Hm1 |].
  assert (Hmod : 0 <= mx mod 2 ^ n < 2 ^ n) by (apply Z.mod_pos_bound; assumption).
  assert (Hr1 : 0 <= (mx mod 2 ^ n) * D + r < 2 ^ n * D)
    by (apply frac_bound; assumption).
  unfold binary_round_aux, shr_fexp.
  rewrite Hdig. rewrite fexp_normal by lia.
  replace (53 + n + ex - 53 - ex) with n by lia.
  rewrite shr_frac by lia.
  rewrite loc_of_record, shr_m_record.
  rewrite round_nearest_even_frac by exact Hr1.
  fold m1. fold M.
  assert (HM : m1 <= M <= m1 + 1).
  { unfold M, nearest_even.
    destruct (_ <? _); [lia |]. destruct (_ =? _); [| lia]. destruct (Z.even m1); lia. }
  destruct (Z.ltb_spec M (2 ^ 53)) as [Hlt | Hge].
  - rewrite (Zdigits2_unique M 53) by lia.
    rewrite fexp_normal by lia.
    replace (53 + (ex + n) - 53 - (ex + n)) with 0 by lia.
    cbn [shr shr_record_of_loc shr_m].
    destruct M as [| pM |]; try lia.
    replace (ex + n <=? emax - prec) with true by (symmetry; apply Z.leb_le; lia).
    reflexivity.
  - assert (M = 2 ^ 53) as -> by lia.
    change (Zdigits2 (2 ^ 53)) with 54.
    rewrite fexp_normal by lia.
    replace (54 + (ex + n) - 53 - (ex + n)) with 1 by lia.
    change (2 ^ 53) with 9007199254740992.
    cbn.
    replace (ex + n + 1 <=? 1024 - 53) with true by (symmetry; apply Z.leb_le; lia).
    reflexivity.
Qed.

Lemma pos_iter_xO (m d : positive) :
  Z.pos (Pos.iter xO m d) = Z.pos m * 2 ^ Z.pos d.
Proof.
  induction d as [| d IH] using Pos.peano_ind.
  - cbn [Pos.iter]. rewrite Pos2Z.inj_xO. change (2 ^ 1) with 2. ring.
  - rewrite Pos.iter_succ, Pos2Z.inj_xO, IH, Pos2Z.inj_succ.
    rewrite Z.pow_succ_r by lia. ring.
Qed.

Lemma shl_align_value (m : positive) (e e' : Z) :
  e' <= e ->
  Z.pos (fst (shl_align m e e')) = Z.pos m * 2 ^ (e - e')
  /\ snd (shl_align m e e') = e'.
Proof.
  intros Hle. unfold shl_align.
  destruct (e' - e) as [| d | d] eqn:Hd; try lia; cbn [fst snd].
  - replace (e - e') with 0 by lia. split; [simpl; lia | lia].
  - rewrite pos_iter_xO. replace (e - e') with (Z.pos d) by lia. split; [reflexivity | lia].
Qed.

Lemma Zdigits2_scaled (w j : Z) :
  2 ^ 52 <= w < 2 ^ 53 -> 0 <= j -> Zdigits2 (w * 2 ^ j) = 53 + j.
Proof.
  intros Hw Hj.
  assert (0 < 2 ^ j) by (apply Z.pow_pos_nonneg; lia).
  apply Zdigits2_unique; [nia |].
  replace (53 + j - 1) with (52 + j) by lia.
  rewrite !Z.pow_add_r by lia. nia.
Qed.

(** [binary_round] of a number that is exactly the normal double
    [w * 2 ^ E]. *)
Lemma binary_round_value (s : bool) (p : positive) (e w E : Z) :
  2 ^ 52 <= w < 2 ^ 53 -> -1074 <= E <= 970 ->
  (e <= E -> Z.pos p = w * 2 ^ (E - e)) ->
  (E <= e -> w = Z.pos p * 2 ^ (e - E)) ->
  binary_round prec emax s p e = S754_finite s (Z.to_pos w) E.
Proof.
  intros Hw HE Hright Hleft. unfold binary_round.
  destruct (Z_le_gt_dec e E) as [Hle | Hgt].
  - (* shift right, exactly *)
    specialize (Hright Hle).
    assert (Hdig : Zdigits2 (Z.pos p) = 53 + (E - e))
      by (rewrite Hright; apply Zdigits2_scaled; lia).
    cbn [Zdigits2] in Hdig. rewrite Hdig, fexp_normal by lia.
    unfold shl_align.
    destruct (53 + (E - e) + e - 53 - e) as [| d | d] eqn:Hd; try lia.
    + pose proof (binary_round_aux_normal s (Z.pos p) e 0 1 (E - e)
                    ltac:(lia) Hdig ltac:(lia) ltac:(lia) ltac:(lia)) as [_ R].
      change (loc_frac 0 1) with loc_Exact in R. rewrite R. clear R.
      replace (E - e) with 0 by lia. change (2 ^ 0) with 1.
      rewrite Z.div_1_r, Z.mod_1_r.
      change (0 * 1 + 0) with 0. change (1 * 1) with 1.
      rewrite nearest_even_exact by lia.
      replace (Z.pos p) with w by (rewrite Hright; replace (E - e) with 0 by lia; lia).
      replace (w <? 2 ^ 53) with true by (symmetry; apply Z.ltb_lt; lia).
      f_equal. lia.
    + pose proof (binary_round_aux_normal s (Z.pos p) e 0 1 (E - e)
                    ltac:(lia) Hdig ltac:(lia) ltac:(lia) ltac:(lia)) as [_ R].
      change (loc_frac 0 1) with loc_Exact in R. rewrite R. clear R.
      assert (Hpow : 0 < 2 ^ (E - e)) by (apply Z.pow_pos_nonneg; lia).
      rewrite Hright.
      rewrite Z.div_mul, Z_mod_mult by lia.
      unfold nearest_even.
      replace (2 * (0 * 1 + 0) <? 2 ^ (E - e) * 1) with true
        by (symmetry; apply Z.ltb_lt; lia).
      replace (w <? 2 ^ 53) with true by (symmetry; apply Z.ltb_lt; lia).
      f_equal. lia.
  - (* shift left *)
    specialize (Hleft ltac:(lia)).
    set (j := e - E) in *.
    assert (Hpow : 0 < 2 ^ j) by (apply Z.pow_pos_nonneg; lia).
    assert (Hj : j <= 52).
    { destruct (Z_le_gt_dec j 52) as [| Hbig]; [assumption |].
      assert (2 ^ 53 <= 2 ^ j) by (apply Z.pow_le_mono_r; lia). nia. }
    assert (Hdig : Z.pos (digits2_pos p) = 53 - j).
    { apply digits_unique.
      assert (E52 : 2 ^ 52 = 2 ^ (53 - j - 1) * 2 ^ j)
        by (rewrite <- Z.pow_add_r by lia; f_equal; lia).
      assert (E53 : 2 ^ 53 = 2 ^ (53 - j) * 2 ^ j)
        by (rewrite <- Z.pow_add_r by lia; f_equal; lia).
      rewrite E52, E53, Hleft in Hw. nia. }
    rewrite Hdig, fexp_normal by lia.
    pose proof (shl_align_value p e (53 - j + e - 53) ltac:(lia)) as [Hm He].
    destruct (shl_align p e (53 - j + e - 53)) as [mz ez].
    cbn [fst snd] in Hm, He. subst ez.
    replace (e - (53 - j + e - 53)) with j in Hm by lia.
    rewrite <- Hleft in Hm.
    replace (53 - j + e - 53) with E by lia.
    pose proof (binary_round_aux_normal s (Z.pos mz) E 0 1 0 ltac:(lia)) as R.
    rewrite Hm in R.
    destruct (R (Zdigits2_unique w 53 ltac:(lia) ltac:(lia)) ltac:(lia) ltac:(lia)
                ltac:(lia)) as [_ R'].
    change (loc_frac 0 1) with loc_Exact in R'. rewrite Hm, R'.
    change (2 ^ 0) with 1. rewrite Z.div_1_r, Z.mod_1_r.
    change (0 * 1 + 0) with 0. change (1 * 1) with 1.
    rewrite nearest_even_exact by lia.
    replace (w <? 2 ^ 53) with true by (symmetry; apply Z.ltb_lt; lia).
    f_equal. lia.
Qed.

Lemma mant_expo_bounds (z : Z) :
  0 < z < 2 ^ 53 ->
  2 ^ 52 <= mant z < 2 ^ 53 /\ -52 <= expo z <= 0
  /\ mant z = z * 2 ^ (- expo z).
Proof.
  intros Hz. pose proof (Zdigits2_bounds z ltac:(lia)) as Hb.
  set (d := Zdigits2 z) in *.
  assert (Hd1 : 1 <= d).
  { destruct (Z_le_gt_dec 1 d); [assumption |].
    rewrite (Z.pow_neg_r 2 (d - 1)) in Hb by lia.
    destruct (Z_le_gt_dec 0 d).
    - replace d with 0 in Hb by lia. simpl in Hb. lia.
    - rewrite (Z.pow_neg_r 2 d) in Hb by lia. lia. }
  assert (Hd53 : d <= 53).
  { destruct (Z_le_gt_dec d 53); [assumption |].
    assert (2 ^ 53 <= 2 ^ (d - 1)) by (apply Z.pow_le_mono_r; lia). lia. }
  unfold mant, expo. fold d.
  assert (Hpow : 0 < 2 ^ (53 - d)) by (apply Z.pow_pos_nonneg; lia).
  assert (E52 : 2 ^ 52 = 2 ^ (d - 1) * 2 ^ (53 - d))
    by (rewrite <- Z.pow_add_r by lia; f_equal; lia).
  assert (E53 : 2 ^ 53 = 2 ^ d * 2 ^ (53 - d))
    by (rewrite <- Z.pow_add_r by lia; f_equal; lia).
  split; [split |]; [rewrite E52; nia | rewrite E53; nia |].
  split; [lia |]. f_equal; f_equal; lia.
Qed.

Lemma of_Z_normal (z : Z) :
  0 < z < 2 ^ 53 ->
  binary_normalize prec emax z 0 false = F64 (mant z) (expo z).
Proof.
  intros Hz. destruct (mant_expo_bounds z Hz) as (Hm & He & Hval).
  destruct z as [| p |]; try lia. cbn [binary_normalize].
  apply binary_round_value; try lia.
  - intros H0. replace (expo (Z.pos p)) with 0 in * by lia.
    rewrite Hval. change (2 ^ (- 0)) with 1. change (2 ^ (0 - 0)) with 1. lia.
  - intros _. rewrite Hval. f_equal; f_equal; lia.
Qed.

Lemma SFadd_of_Z (c d : Z) :
  0 <= c -> 0 <= d -> c + d < 2 ^ 53 ->
  SFadd prec emax (binary_normalize prec emax c 0 false)
                  (binary_normalize prec emax d 0 false)
  = binary_normalize prec emax (c + d) 0 false.
Proof.
  intros Hc Hd Hsum.
  destruct (Z.eq_dec c 0) as [-> | Hc0].
  { change (0 + d) with d. cbn [binary_normalize]. destruct (binary_normalize prec emax d 0 false) eqn:E;
      try reflexivity.
    destruct d as [| p |]; try lia; [cbn in E; inversion E; reflexivity |].
    rewrite of_Z_normal in E by lia. discriminate. }
  destruct (Z.eq_dec d 0) as [-> | Hd0].
  { rewrite Z.add_0_r. rewrite (of_Z_normal c) by lia. reflexivity. }
  rewrite (of_Z_normal c), (of_Z_normal d), (of_Z_normal (c + d)) by lia.
  destruct (mant_expo_bounds c ltac:(lia)) as (Hmc & Hec & Hvc).
  destruct (mant_expo_bounds d ltac:(lia)) as (Hmd & Hed & Hvd).
  destruct (mant_expo_bounds (c + d) ltac:(lia)) as (Hms & Hes & Hvs).
  unfold F64 at 1 2. cbn [SFadd cond_Zopp].
  set (ez := Z.min (expo c) (expo d)).
  pose proof (shl_align_value (Z.to_pos (mant c)) (expo c) ez ltac:(lia)) as [Hac _].
  pose proof (shl_align_value (Z.to_pos (mant d)) (expo d) ez ltac:(lia)) as [Had _].
  rewrite Z2Pos.id in Hac, Had by lia.
  assert (Hc' : mant c * 2 ^ (expo c - ez) = c * 2 ^ (- ez)).
  { rewrite Hvc, <- Z.mul_assoc, <- Z.pow_add_r by lia. f_equal; f_equal; lia. }
  assert (Hd' : mant d * 2 ^ (expo d - ez) = d * 2 ^ (- ez)).
  { rewrite Hvd, <- Z.mul_assoc, <- Z.pow_add_r by lia. f_equal; f_equal; lia. }
  rewrite Hc' in Hac. rewrite Hd' in Had.
  assert (Hpow : 0 < 2 ^ (- ez)) by (apply Z.pow_pos_nonneg; lia).
  destruct (Z.pos (fst (shl_align (Z.to_pos (mant c)) (expo c) ez))
            + Z.pos (fst (shl_align (Z.to_pos (mant d)) (expo d) ez))) as [| S |] eqn:HS;
    try lia.
  cbn [binary_normalize].
  assert (HSv : Z.pos S = (c + d) * 2 ^ (- ez)) by lia.
  apply binary_round_value; try lia.
  - intros Hle. rewrite HSv, Hvs, <- Z.mul_assoc, <- Z.pow_add_r by lia.
    f_equal; f_equal; lia.
  - intros Hle. rewrite HSv, Hvs, <- Z.mul_assoc, <- Z.pow_add_r by lia.
    f_equal; f_equal; lia.
Qed.

Lemma rnd_ge (A B T : Z) :
  0 < B -> Z.even T = true ->
  (T <= rnd A B <-> (2 * T - 1) * B <= 2 * A).
Proof.
  intros HB HT. unfold rnd, nearest_even.
  pose proof (Z.div_mod A B ltac:(lia)) as HA.
  pose proof (Z.mod_pos_bound A B HB) as Hr.
  set (m := A / B) in *. set (r := A mod B) in *.
  destruct (Z.ltb_spec (2 * r) B) as [Hlt | Hge].
  - split; intros; nia.
  - destruct (Z.eqb_spec (2 * r) B) as [Heq | Hne].
    + destruct (Z.even m) eqn:Hm.
      * split; intros Hx; [nia |].
        assert (T <= m + 1) by nia.
        destruct (Z.eq_dec T (m + 1)) as [E | E]; [| lia].
        rewrite E, Z.even_add, Hm in HT. discriminate.
      * split; intros; nia.
    + split; intros; nia.
Qed.

Lemma rnd_bounds (A B : Z) : 0 < B -> A / B <= rnd A B <= A / B + 1.
Proof.
  intros HB. unfold rnd, nearest_even.
  destruct (_ <? _); [lia |]. destruct (_ =? _); [| lia]. destruct (Z.even _); lia.
Qed.

Lemma rnd_exact (a B : Z) : 0 < B -> rnd (a * B) B = a.
Proof.
  intros HB. unfold rnd, nearest_even.
  rewrite Z.div_mul, Z_mod_mult by lia.
  destruct (Z.ltb_spec (2 * 0) B); [reflexivity | lia].
Qed.

Lemma new_location_frac (D r : Z) :
  0 < D -> 0 <= r < D -> new_location D r = loc_frac r D.
Proof.
  intros HD Hr. unfold new_location, new_location_even, new_location_odd, loc_frac.
  destruct (Z.even D) eqn:Hev; destruct (Z.eqb_spec r 0) as [-> | Hr0]; try reflexivity.
  f_equal.
  assert (Hodd : 2 * r <> D).
  { intros E. rewrite <- E, Z.even_mul in Hev. discriminate. }
  destruct (Z.compare_spec (2 * r + 1) D), (Z.compare_spec (2 * r) D);
    try reflexivity; lia.
Qed.

Lemma SFcompare_F64 (m1 e1 m2 e2 : Z) :
  0 < m1 -> 0 < m2 ->
  SFleb (F64 m1 e1) (F64 m2 e2)
  = (e1 <? e2) || ((e1 =? e2) && (m1 <=? m2)).
Proof.
  intros H1 H2. unfold SFleb, F64. cbn [SFcompare].
  destruct (Z.compare_spec e1 e2) as [E | L | G].
  - subst. rewrite Z.ltb_irrefl, Z.eqb_refl. cbn [orb andb].
    rewrite Pos.compare_cont_spec. cbn [Pos.switch_Eq].
    change (Z.to_pos m1 ?= Z.to_pos m2)%positive
      with (Z.pos (Z.to_pos m1) ?= Z.pos (Z.to_pos m2)).
    rewrite !Z2Pos.id by lia.
    destruct (Z.compare_spec m1 m2), (Z.leb_spec m1 m2); try reflexivity; lia.
  - replace (e1 <? e2) with true by (symmetry; apply Z.ltb_lt; lia). reflexivity.
  - replace (e1 <? e2) with false by (symmetry; apply Z.ltb_ge; lia).
    replace (e1 =? e2) with false by (symmetry; apply Z.eqb_neq; lia). reflexivity.
Qed.

Lemma SFdiv_normal (m1 e1 m2 e2 : Z) :
  2 ^ 52 <= m1 < 2 ^ 53 -> 2 ^ 52 <= m2 < 2 ^ 53 ->
  -400 <= e1 <= 400 -> -400 <= e2 <= 400 ->
  let n := if m1 <? m2 then 0 else 1 in
  let M := rnd (m1 * 2 ^ 53) (2 ^ n * m2) in
  2 ^ 52 <= M <= 2 ^ 53
  /\ SFdiv prec emax (F64 m1 e1) (F64 m2 e2)
     = if M <? 2 ^ 53 then F64 M (e1 - e2 - 53 + n)
       else F64 (2 ^ 52) (e1 - e2 - 53 + n + 1).
Proof.
  intros H1 H2 He1 He2 n M.
  unfold F64 at 1 2. cbn [SFdiv xorb]. unfold SFdiv_core_binary.
  rewrite !Z2Pos.id by lia.
  rewrite (Zdigits2_unique m1 53), (Zdigits2_unique m2 53) by lia.
  rewrite fexp_normal by lia.
  replace (Z.min (53 + e1 - (53 + e2) - 53) (e1 - e2)) with (e1 - e2 - 53) by lia.
  replace (e1 - e2 - (e1 - e2 - 53)) with 53 by lia.
  cbv iota. rewrite Z.shiftl_mul_pow2 by lia.
  set (A := m1 * 2 ^ 53).
  assert (Hqr : Z.div_eucl A m2 = (A / m2, A mod m2)).
  { unfold Z.div, Z.modulo. destruct (Z.div_eucl A m2); reflexivity. }
  rewrite Hqr.
  pose proof (Z.mod_pos_bound A m2 ltac:(lia)) as Hr.
  rewrite new_location_frac by lia.
  assert (HA : A = m2 * (A / m2) + A mod m2) by (apply Z.div_mod; lia).
  assert (Hq : 2 ^ 52 <= A / m2 < 2 ^ 54).
  { split.
    - apply Z.div_le_lower_bound; [lia |]. unfold A. nia.
    - apply Z.div_lt_upper_bound; [lia |]. unfold A. nia. }
  assert (Hn : (m1 <? m2) = true -> A / m2 < 2 ^ 53).
  { intros Hlt%Z.ltb_lt. apply Z.div_lt_upper_bound; [lia |]. unfold A. nia. }
  assert (Hn' : (m1 <? m2) = false -> 2 ^ 53 <= A / m2).
  { intros Hge%Z.ltb_ge. apply Z.div_le_lower_bound; [lia |]. unfold A. nia. }
  assert (Hdig : Zdigits2 (A / m2) = 53 + n).
  { unfold n. destruct (m1 <? m2) eqn:Hcmp.
    - apply Zdigits2_unique; [lia |]. specialize (Hn eq_refl). simpl. lia.
    - apply Zdigits2_unique; [lia |]. specialize (Hn' eq_refl). simpl. lia. }
  assert (Hn01 : 0 <= n <= 1) by (unfold n; destruct (m1 <? m2); lia).
  destruct (binary_round_aux_normal false (A / m2) (e1 - e2 - 53) (A mod m2) m2 n
              ltac:(lia) Hdig ltac:(lia) ltac:(lia) Hr) as [Hm1 R].
  rewrite R. clear R.
  assert (Hpow : 0 < 2 ^ n) by (apply Z.pow_pos_nonneg; lia).
  assert (HM : nearest_even (A / m2 / 2 ^ n)
                 (A / m2 mod 2 ^ n * m2 + A mod m2) (2 ^ n * m2) = M).
  { unfold M, rnd. fold A.
    assert (E1 : A / (2 ^ n * m2) = A / m2 / 2 ^ n)
      by (rewrite (Z.mul_comm (2 ^ n) m2), Z.div_div by lia; reflexivity).
    assert (E2 : A mod (2 ^ n * m2) = A / m2 mod 2 ^ n * m2 + A mod m2)
      by (rewrite (Z.mul_comm (2 ^ n) m2), Z.rem_mul_r by lia; ring).
    rewrite E1, E2. reflexivity. }
  rewrite HM.
  split; [| reflexivity].
  pose proof (rnd_bounds A (2 ^ n * m2) ltac:(lia)) as Hb.
  change (rnd A (2 ^ n * m2)) with M in Hb.
  replace (A / (2 ^ n * m2)) with (A / m2 / 2 ^ n) in Hb
    by (rewrite (Z.mul_comm (2 ^ n) m2), Z.div_div by lia; reflexivity).
  lia.
Qed.

Lemma SFmul_normal (m1 e1 m2 e2 : Z) :
  2 ^ 52 <= m1 < 2 ^ 53 -> 2 ^ 52 <= m2 < 2 ^ 53 ->
  -400 <= e1 <= 400 -> -400 <= e2 <= 400 ->
  let P := m1 * m2 in
  let n := if P <? 2 ^ 105 then 52 else 53 in
  let M := rnd P (2 ^ n) in
  2 ^ 52 <= M <= 2 ^ 53
  /\ SFmul prec emax (F64 m1 e1) (F64 m2 e2)
     = if M <? 2 ^ 53 then F64 M (e1 + e2 + n)
       else F64 (2 ^ 52) (e1 + e2 + n + 1).
Proof.
  intros H1 H2 He1 He2 P n M.
  unfold F64 at 1 2. cbn [SFmul xorb].
  rewrite Pos2Z.inj_mul, !Z2Pos.id by lia. fold P.
  assert (HP : 2 ^ 104 <= P < 2 ^ 106).
  { unfold P. change (2 ^ 104) with (2 ^ 52 * 2 ^ 52).
    change (2 ^ 106) with (2 ^ 53 * 2 ^ 53). nia. }
  assert (Hn : n = 52 \/ n = 53) by (unfold n; destruct (P <? 2 ^ 105); lia).
  assert (Hdig : Zdigits2 P = 53 + n).
  { unfold n. destruct (Z.ltb_spec P (2 ^ 105)).
    - apply Zdigits2_unique; [lia |]. simpl. lia.
    - apply Zdigits2_unique; [lia |]. simpl. lia. }
  destruct (binary_round_aux_normal false P (e1 + e2) 0 1 n
              ltac:(lia) Hdig ltac:(lia) ltac:(lia) ltac:(lia)) as [Hm1 R].
  change (loc_frac 0 1) with loc_Exact in R. rewrite R. clear R.
  assert (HM : nearest_even (P / 2 ^ n) (P mod 2 ^ n * 1 + 0) (2 ^ n * 1) = M).
  { unfold M, rnd. f_equal; ring. }
  rewrite HM. split; [| reflexivity].
  pose proof (rnd_bounds P (2 ^ n) ltac:(destruct Hn as [-> | ->]; reflexivity)) as Hb.
  change (rnd P (2 ^ n)) with M in Hb. lia.
Qed.

Lemma percent_threshold (M E : Z) :
  2 ^ 52 <= M < 2 ^ 53 -> -300 <= E <= -52 ->
  SFleb (F64 m70 (-46)) (SFmul prec emax (F64 M E) (F64 m100 (-46)))
  = (E =? -52) || ((E =? -53) && (m07 <=? M)).
Proof.
  intros HM HE.
  destruct (SFmul_normal M E m100 (-46) HM ltac:(unfold m100; lia) ltac:(lia) ltac:(lia))
    as [HR Heq].
  rewrite Heq. clear Heq.
  set (P := M * m100) in *.
  set (n := if P <? 2 ^ 105 then 52 else 53) in *.
  set (R := rnd P (2 ^ n)) in *.
  assert (Hge : m70 <= R <-> (2 * m70 - 1) * 2 ^ n <= 2 * P).
  { apply rnd_ge; [| reflexivity]. unfold n. destruct (P <? 2 ^ 105); reflexivity. }
  pose proof (rnd_bounds P (2 ^ n)
                ltac:(unfold n; destruct (P <? 2 ^ 105); reflexivity)) as Hb.
  fold R in Hb.
  assert (HPn : 2 ^ n * (P / 2 ^ n) <= P).
  { apply Z.mul_div_le. unfold n. destruct (P <? 2 ^ 105); reflexivity. }
  destruct (Z.ltb_spec R (2 ^ 53)) as [HRlt | HRge];
    rewrite SFcompare_F64 by (unfold m70; simpl; lia).
  - unfold n in *. destruct (Z.ltb_spec P (2 ^ 105)) as [HPlt | HPge].
    + (* 52 bits dropped *)
      destruct (Z.eqb_spec E (-52)) as [-> | HE52].
      * replace (-46 <? -52 + -46 + 52) with false by reflexivity.
        replace (-46 =? -52 + -46 + 52) with true by reflexivity.
        cbn [orb andb]. apply Z.leb_le.
        assert (m100 <= P / 2 ^ 52).
        { apply Z.div_le_lower_bound; [reflexivity |]. unfold P, m100 in *. lia. }
        unfold m70, m100 in *. lia.
      * replace (-46 <? E + -46 + 52) with false by (symmetry; apply Z.ltb_ge; lia).
        replace (-46 =? E + -46 + 52) with false by (symmetry; apply Z.eqb_neq; lia).
        cbn [orb andb].
        destruct (Z.eqb_spec E (-53)) as [-> | HE53]; [| reflexivity].
        cbn [andb]. symmetry. apply Z.leb_gt. unfold P, m100, m07 in *. lia.
    + (* 53 bits dropped *)
      destruct (Z.eqb_spec E (-52)) as [-> | HE52].
      * reflexivity.
      * destruct (Z.eqb_spec E (-53)) as [-> | HE53].
        -- replace (-46 <? -53 + -46 + 53) with false by reflexivity.
           replace (-46 =? -53 + -46 + 53) with true by reflexivity.
           cbn [orb andb].
           destruct (Z.leb_spec m70 R) as [Hle | Hgt], (Z.leb_spec m07 M) as [Hle' | Hgt'];
             try reflexivity; exfalso.
           ++ apply Hge in Hle. unfold P, m70, m100, m07 in *. lia.
           ++ assert (~ m70 <= R) as Hn by lia. apply Hn, Hge.
              unfold P, m70, m100, m07 in *. lia.
        -- replace (-46 <? E + -46 + 53) with false by (symmetry; apply Z.ltb_ge; lia).
           replace (-46 =? E + -46 + 53) with false by (symmetry; apply Z.eqb_neq; lia).
           reflexivity.
  - (* the mantissa rounds up to 2 ^ 53 *)
    assert (R = 2 ^ 53) as HR53 by lia.
    unfold n in *. destruct (Z.ltb_spec P (2 ^ 105)) as [HPlt | HPge].
    + exfalso. unfold P, m100 in *. lia.
    + exfalso.
      assert (P / 2 ^ 53 < 2 ^ 53 - 1).
      { apply Z.div_lt_upper_bound; [reflexivity |]. unfold P, m100 in *. lia. }
      lia.
Qed.

Lemma Zdigits2_mono (a b : Z) : 0 < a <= b -> Zdigits2 a <= Zdigits2 b.
Proof.
  intros H. pose proof (Zdigits2_bounds a ltac:(lia)) as Ha.
  pose proof (Zdigits2_bounds b ltac:(lia)) as Hb.
  destruct (Z_le_gt_dec (Zdigits2 a) (Zdigits2 b)) as [Hle | Hgt]; [assumption |].
  exfalso.
  assert (2 ^ Zdigits2 b <= 2 ^ (Zdigits2 a - 1)) by (apply Z.pow_le_mono_r; lia).
  lia.
Qed.

Lemma threshold_exact (c t : Z) :
  0 <= c -> 9 * t < 2 ^ 53 ->
  ((2 * m07 - 1) * t <= 2 ^ 54 * c <-> 7 * t <= 10 * c).
Proof. unfold m07. intros Hc Ht. change (2 ^ 53) with 9007199254740992 in Ht.
  change (2 ^ 54) with 18014398509481984. lia. Qed.

Lemma quotient_threshold (c t b s M : Z) :
  0 < b -> 0 < s -> 0 <= c -> 9 * t < 2 ^ 53 ->
  (m07 <= M <-> (2 * m07 - 1) * (s * (t * b)) <= 2 * (c * (b * s) * 2 ^ 53)) ->
  (m07 <= M <-> 7 * t <= 10 * c).
Proof.
  intros Hb Hs Hc Ht H. rewrite H. rewrite <- (threshold_exact c t Hc Ht).
  replace ((2 * m07 - 1) * (s * (t * b))) with ((2 * m07 - 1) * t * (s * b)) by ring.
  replace (2 * (c * (b * s) * 2 ^ 53)) with (2 ^ 54 * c * (s * b))
    by (change (2 ^ 54) with (2 * 2 ^ 53); ring).
  symmetry. apply Z.mul_le_mono_pos_r. lia.
Qed.

Lemma of_Z_70 : of_Z 70 = F64 m70 (-46).
Proof. vm_compute. reflexivity. Qed.

Lemma of_Z_100 : of_Z 100 = F64 m100 (-46).
Proof. vm_compute. reflexivity. Qed.

Lemma percent_ge_70 (c t : Z) :
  0 <= c <= t -> 0 < t -> 9 * t < 2 ^ 53 ->
  SFleb (of_Z 70) (SFmul prec emax (SFdiv prec emax (of_Z c) (of_Z t)) (of_Z 100))
  = (7 * t <=? 10 * c).
Proof.
  intros Hct Ht Hbound.
  assert (Ht53 : 0 < t < 2 ^ 53) by lia.
  rewrite of_Z_70, of_Z_100.
  rewrite (of_Z_normal t Ht53).
  destruct (mant_expo_bounds t Ht53) as (Hmt & Het & Hvt).
  destruct (Z.eq_dec c 0) as [-> | Hc0].
  { cbn [binary_normalize]. unfold F64. cbn [SFdiv SFmul xorb SFleb SFcompare].
    symmetry. apply Z.leb_gt. lia. }
  assert (Hc53 : 0 < c < 2 ^ 53) by lia.
  rewrite (of_Z_normal c Hc53).
  destruct (mant_expo_bounds c Hc53) as (Hmc & Hec & Hvc).
  assert (Hexp : expo c <= expo t).
  { unfold expo. pose proof (Zdigits2_mono c t ltac:(lia)). lia. }
  set (mc := mant c) in *. set (ec := expo c) in *.
  set (mt := mant t) in *. set (et := expo t) in *.
  set (b := 2 ^ (- et)) in *.
  assert (Hb : 0 < b) by (apply Z.pow_pos_nonneg; lia).
  assert (Hq : 2 ^ (- ec) = b * 2 ^ (et - ec)).
  { unfold b. rewrite <- Z.pow_add_r by lia. f_equal. lia. }
  rewrite Hq in Hvc.
  destruct (SFdiv_normal mc ec mt et Hmc Hmt ltac:(lia) ltac:(lia)) as [HM Hdiv].
  rewrite Hdiv. clear Hdiv.
  set (n := if mc <? mt then 0 else 1) in *.
  set (M := rnd (mc * 2 ^ 53) (2 ^ n * mt)) in *.
  assert (Hn : n = 0 \/ n = 1) by (unfold n; destruct (mc <? mt); lia).
  assert (HgeM : m07 <= M <-> (2 * m07 - 1) * (2 ^ n * mt) <= 2 * (mc * 2 ^ 53)).
  { apply rnd_ge; [| reflexivity].
    unfold n. destruct (mc <? mt); [change (2 ^ 0) with 1 | change (2 ^ 1) with 2]; lia. }
  assert (Hm07 : 2 ^ 52 < m07 < 2 ^ 53) by (unfold m07; simpl; lia).
  destruct (Z.eq_dec et ec) as [Heq | Hne].
  - (* both counts have the same number of binary digits *)
    rewrite Heq, Z.sub_diag in Hvc. change (2 ^ 0) with 1 in Hvc.
    assert (Hle : mc <= mt).
    { rewrite Hvc, Hvt, Z.mul_1_r. apply Z.mul_le_mono_nonneg_r; lia. }
    unfold n in *. destruct (Z.ltb_spec mc mt) as [Hlt | Hge].
    + change (2 ^ 0) with 1 in HgeM. rewrite Hvc, Hvt in HgeM.
      apply (quotient_threshold c t b 1 M Hb ltac:(lia) ltac:(lia) Hbound) in HgeM.
      destruct (Z.ltb_spec M (2 ^ 53)) as [HMlt | HMge].
      * rewrite percent_threshold by lia.
        replace (ec - et - 53 + 0 =? -52) with false by (symmetry; apply Z.eqb_neq; lia).
        replace (ec - et - 53 + 0 =? -53) with true by (symmetry; apply Z.eqb_eq; lia).
        cbn [orb andb].
        destruct (Z.leb_spec m07 M), (Z.leb_spec (7 * t) (10 * c)); try reflexivity; lia.
      * rewrite percent_threshold by lia.
        replace (ec - et - 53 + 0 + 1 =? -52) with true by (symmetry; apply Z.eqb_eq; lia).
        cbn [orb]. symmetry. apply Z.leb_le. apply HgeM. lia.
    + assert (Hsame : mc = mt) by lia.
      assert (HM52 : M = 2 ^ 52).
      { unfold M. rewrite Hsame. change (2 ^ 53) with (2 ^ 52 * 2 ^ 1).
        replace (mt * (2 ^ 52 * 2 ^ 1)) with (2 ^ 52 * (2 ^ 1 * mt)) by ring.
        apply rnd_exact. change (2 ^ 1) with 2. lia. }
      rewrite HM52. change (2 ^ 52 <? 2 ^ 53) with true. cbv iota.
      rewrite percent_threshold by (simpl; lia).
      replace (ec - et - 53 + 1 =? -52) with true by (symmetry; apply Z.eqb_eq; lia).
      cbn [orb]. symmetry. apply Z.leb_le. nia.
  - destruct (Z.eq_dec et (ec + 1)) as [Heq1 | Hne1].
    + (* the total has one binary digit more *)
      replace (et - ec) with 1 in Hvc by lia. change (2 ^ 1) with 2 in Hvc.
      unfold n in *. destruct (Z.ltb_spec mc mt) as [Hlt | Hge].
      * assert (Hhalf : 2 * c < t).
        { apply (Z.mul_lt_mono_pos_r b); [lia |].
          replace (2 * c * b) with (c * (b * 2)) by ring. lia. }
        destruct (Z.ltb_spec M (2 ^ 53)) as [HMlt | HMge].
        -- rewrite percent_threshold by lia.
           replace (ec - et - 53 + 0 =? -52) with false by (symmetry; apply Z.eqb_neq; lia).
           replace (ec - et - 53 + 0 =? -53) with false by (symmetry; apply Z.eqb_neq; lia).
           cbn [orb andb]. symmetry. apply Z.leb_gt. lia.
        -- rewrite percent_threshold by (simpl; lia).
           replace (ec - et - 53 + 0 + 1 =? -52) with false
             by (symmetry; apply Z.eqb_neq; lia).
           replace (m07 <=? 2 ^ 52) with false by reflexivity.
           rewrite andb_false_r. cbn [orb]. symmetry. apply Z.leb_gt. lia.
      * change (2 ^ 1) with 2 in HgeM. rewrite Hvc, Hvt in HgeM.
        apply (quotient_threshold c t b 2 M Hb ltac:(lia) ltac:(lia) Hbound) in HgeM.
        destruct (Z.ltb_spec M (2 ^ 53)) as [HMlt | HMge].
        -- rewrite percent_threshold by lia.
           replace (ec - et - 53 + 1 =? -52) with false by (symmetry; apply Z.eqb_neq; lia).
           replace (ec - et - 53 + 1 =? -53) with true by (symmetry; apply Z.eqb_eq; lia).
           cbn [orb andb].
           destruct (Z.leb_spec m07 M), (Z.leb_spec (7 * t) (10 * c)); try reflexivity; lia.
        -- rewrite percent_threshold by (simpl; lia).
           replace (ec - et - 53 + 1 + 1 =? -52) with true by (symmetry; apply Z.eqb_eq; lia).
           cbn [orb]. symmetry. apply Z.leb_le. apply HgeM. lia.
    + (* the total has at least two binary digits more *)
      assert (Hfour : 4 <= 2 ^ (et - ec)).
      { change 4 with (2 ^ 2). apply Z.pow_le_mono_r; lia. }
      assert (Hhalf : 2 * c < t).
      { apply (Z.mul_lt_mono_pos_r b); [lia |].
        assert (c * b * 4 <= c * b * 2 ^ (et - ec))
          by (apply Z.mul_le_mono_nonneg_l; [apply Z.mul_nonneg_nonneg |]; lia).
        replace (c * (b * 2 ^ (et - ec))) with (c * b * 2 ^ (et - ec)) in Hvc by ring.
        lia. }
      destruct (Z.ltb_spec M (2 ^ 53)) as [HMlt | HMge].
      * rewrite percent_threshold by lia.
        replace (ec - et - 53 + n =? -52) with false by (symmetry; apply Z.eqb_neq; lia).
        replace (ec - et - 53 + n =? -53) with false by (symmetry; apply Z.eqb_neq; lia).
        cbn [orb andb]. symmetry. apply Z.leb_gt. lia.
      * rewrite percent_threshold by (simpl; lia).
        replace (ec - et - 53 + n + 1 =? -52) with false by (symmetry; apply Z.eqb_neq; lia).
        replace (m07 <=? 2 ^ 52) with false by reflexivity.
        rewrite andb_false_r. cbn [orb]. symmetry. apply Z.leb_gt. lia.
Qed.

End Binary64Rounding.

(** ** Outcome calculator *)

Section OutcomeRule.
Import JSNumber Binary64 Config Game.

Lemma positive_not_zero (t : number) :
  gt t (of_Z 0) = true -> strict_eq t (of_Z 0) = false.
Proof.
  unfold gt, strict_eq, SFltb, SFeqb.
  destruct t as [s | s | | s m e]; simpl; try discriminate;
    destruct s; simpl; congruence.
Qed.

(** With a positive total the result is decided by the two percentage
    tests alone, in order. *)
Lemma calculateResults_cases (c d : number) :
  gt (add c d) (of_Z 0) = true ->
  calculateResults c d =
    if ge (cooperatePercent c d) (of_Z 70) then AllCooperate
    else if ge (defectPercent c d) (of_Z 70) then AllDefect
    else Mixed.
Proof.
  intros Hpos. unfold calculateResults.
  rewrite (positive_not_zero _ Hpos).
  reflexivity.
Qed.

Example calculateResults_7_1 : calculateResults (of_Z 7) (of_Z 1) = AllCooperate.
Proof. vm_compute. reflexivity. Qed.

Example calculateResults_1_7 : calculateResults (of_Z 1) (of_Z 7) = AllDefect.
Proof. vm_compute. reflexivity. Qed.

Example calculateResults_2_3 : calculateResults (of_Z 2) (of_Z 3) = Mixed.
Proof. vm_compute. reflexivity. Qed.

Example calculateResults_0_0 :
  calculateResults (of_Z 0) (of_Z 0)
  = {| outcome := mixed; pointsForCooperators := 0; pointsForDefectors := 0 |}.
Proof. vm_compute. reflexivity. Qed.

(** The exact percentage reaches 70 exactly when [70 * total <= 100 * count]. *)
Lemma exactPercent_ge_70 (n t : Z) :
  0 < t -> Qle_bool 70 (exactPercent n t) = (70 * t <=? 100 * n).
Proof.
  intros Ht. destruct t as [| p |]; try lia.
  unfold exactPercent, Qle_bool, Qdiv, Qinv, Qmult, inject_Z. cbn [Qnum Qden].
  rewrite Pos.mul_1_l, Pos.mul_1_r, !Z.mul_1_r.
  f_equal. ring.
Qed.

(** Counts add without rounding. *)
Lemma add_counts (c d : Z) :
  0 <= c -> 0 <= d -> c + d < 2 ^ 53 -> add (of_Z c) (of_Z d) = of_Z (c + d).
Proof. intros Hc Hd Hsum. apply SFadd_of_Z; assumption. Qed.

Lemma count_positive (t : Z) : 0 < t < 2 ^ 53 -> gt (of_Z t) (of_Z 0) = true.
Proof.
  intros Ht. unfold gt, of_Z, prec, emax. rewrite (of_Z_normal t Ht). reflexivity.
Qed.

(** The double percentage of a count in a total and the exact percentage
    are on the same side of 70, as long as nine times the total stays
    below [2 ^ 53]. *)
Lemma percent_agrees (n t : Z) :
  0 <= n <= t -> 0 < t -> 9 * t < 2 ^ 53 ->
  ge (mul (div (of_Z n) (of_Z t)) (of_Z 100)) (of_Z 70)
  = Qle_bool 70 (exactPercent n t).
Proof.
  intros Hn Ht Hbound. rewrite exactPercent_ge_70 by exact Ht.
  unfold ge, mul, div, of_Z, prec, emax.
  rewrite (percent_ge_70 n t Hn Ht Hbound).
  destruct (Z.leb_spec (7 * t) (10 * n)), (Z.leb_spec (70 * t) (100 * n));
    try reflexivity; lia.
Qed.

(** Beyond that range the double percentage can round up to 70 where the
    exact one is just below it: with a total of [2 ^ 52] votes, seven
    tenths of them less a fifth of a vote. *)
Example calculateResults_rounds_up_at_2_52 :
  let c := 3152519739159347 in
  let d := 2 ^ 52 - c in
  cooperatePercent (of_Z c) (of_Z d) = of_Z 70
  /\ calculateResults (of_Z c) (of_Z d) = AllCooperate
  /\ spec_calculateResults c d = Mixed.
Proof. vm_compute. repeat split. Qed.

(** C2.  For all non-negative integer counts [c], [d] with a positive sum
    (counts that a JavaScript number holds exactly), [calculateResults]
    returns all-cooperate with 3 points for both sides exactly when
    [c / (c + d) * 100 >= 70]; failing that, all-defect with 1 point for
    both sides exactly when [d / (c + d) * 100 >= 70]; and otherwise mixed
    with 0 for cooperators and 5 for defectors.  The percentages are the
    program's own, computed in binary64; while nine times the total is
    below [2 ^ 53] each test agrees with the same comparison on the exact
    rational percentage, and the result is the one the rule gives in exact
    arithmetic.  The comparison is inclusive: 7 against 3 is all-cooperate
    and 3 against 7 is all-defect. *)
Theorem calculateResults_threshold_rule (c d : Z) :
  0 <= c -> 0 <= d -> 0 < c + d -> c + d < 2 ^ 53 ->
  let r := calculateResults (of_Z c) (of_Z d) in
  let pc := cooperatePercent (of_Z c) (of_Z d) in
  let pd := defectPercent (of_Z c) (of_Z d) in
  (r = AllCooperate <-> ge pc (of_Z 70) = true)
  /\ (r = AllDefect <-> ge pc (of_Z 70) = false /\ ge pd (of_Z 70) = true)
  /\ (r = Mixed <-> ge pc (of_Z 70) = false /\ ge pd (of_Z 70) = false)
  /\ (9 * (c + d) < 2 ^ 53 ->
      ge pc (of_Z 70) = Qle_bool 70 (exactPercent c (c + d))
      /\ ge pd (of_Z 70) = Qle_bool 70 (exactPercent d (c + d))
      /\ r = spec_calculateResults c d)
  /\ cooperatePercent (of_Z 7) (of_Z 3) = of_Z 70
  /\ calculateResults (of_Z 7) (of_Z 3) = AllCooperate
  /\ defectPercent (of_Z 3) (of_Z 7) = of_Z 70
  /\ calculateResults (of_Z 3) (of_Z 7) = AllDefect.
Proof.
  intros Hc Hd Hpos Hsafe r pc pd.
  assert (Hgt : gt (add (of_Z c) (of_Z d)) (of_Z 0) = true).
  { rewrite add_counts by assumption. apply count_positive. lia. }
  assert (Hr : r = if ge pc (of_Z 70) then AllCooperate
                   else if ge pd (of_Z 70) then AllDefect else Mixed)
    by exact (calculateResults_cases _ _ Hgt).
  assert (Hexact : 9 * (c + d) < 2 ^ 53 ->
                   ge pc (of_Z 70) = Qle_bool 70 (exactPercent c (c + d))
                   /\ ge pd (of_Z 70) = Qle_bool 70 (exactPercent d (c + d))).
  { intros Hbound. unfold pc, pd, cooperatePercent, defectPercent.
    rewrite add_counts by assumption.
    split; apply percent_agrees; lia. }
  split; [| split; [| split; [| split]]].
  - rewrite Hr. destruct (ge pc (of_Z 70)); [tauto |].
    destruct (ge pd (of_Z 70)); split; discriminate.
  - rewrite Hr. destruct (ge pc (of_Z 70)).
    + split; [discriminate | intros [? _]; discriminate].
    + destruct (ge pd (of_Z 70)); [tauto |].
      split; [discriminate | intros [_ ?]; discriminate].
  - rewrite Hr. destruct (ge pc (of_Z 70)).
    + split; [discriminate | intros [? _]; discriminate].
    + destruct (ge pd (of_Z 70)); [| tauto].
      split; [discriminate | intros [_ ?]; discriminate].
  - intros Hbound. destruct (Hexact Hbound) as [Ec Ed].
    split; [exact Ec | split; [exact Ed |]].
    rewrite Hr, Ec, Ed. reflexivity.
  - repeat split; vm_compute; reflexivity.
Qed.

Lemma calculateResults_threshold_rule_witness :
  (0 <= 7 /\ 0 <= 3 /\ 0 < 7 + 3 /\ 7 + 3 < 2 ^ 53)
  /\ calculateResults (of_Z 7) (of_Z 3) = spec_calculateResults 7 3.
Proof.
  split; [lia |].
  destruct (calculateResults_threshold_rule 7 3
              ltac:(lia) ltac:(lia) ltac:(lia) ltac:(lia))
    as (_ & _ & _ & Hexact & _).
  apply Hexact. lia.
Defined.

End OutcomeRule.

(** ** Lock release *)

Section LockRelease.
Import Json Redis Keys Main.
Context `{Host}.

(** One invocation of [releaseLock] run without interruption deletes the
    lock record if and only if the token stored under the lock key is the
    caller's token; when another token is stored, or none, the store is
    left exactly as it was. *)
Theorem releaseLock_deletes_iff_token_matches
        (σ : store) (lockKey lockId label : string) :
  run (releaseLock lockKey lockId label) σ =
    if bool_decide (data σ !! lockKey = Some lockId)
    then (Returned tt, remove lockKey σ, [GET lockKey; DEL lockKey])
    else (Returned tt, σ, [GET lockKey]).
Proof.
  unfold releaseLock. simpl.
  destruct (bool_decide (data σ !! lockKey = Some lockId)); reflexivity.
Qed.

Lemma releaseLock_own_token (σ : store) (lockKey lockId label : string) :
  data σ !! lockKey = Some lockId ->
  data (run (releaseLock lockKey lockId label) σ).1.2 !! lockKey = None.
Proof.
  intros Hown. unfold releaseLock. simpl.
  rewrite bool_decide_eq_true_2 by exact Hown. simpl.
  unfold remove. rewrite Hown. simpl. apply lookup_delete_eq.
Qed.

Lemma releaseLock_foreign_token (σ : store) (lockKey lockId label : string) :
  data σ !! lockKey <> Some lockId ->
  (run (releaseLock lockKey lockId label) σ).1.2 = σ.
Proof.
  intros Hother. unfold releaseLock. simpl.
  rewrite bool_decide_eq_false_2 by exact Hother. reflexivity.
Qed.

End LockRelease.

(** C9 does not hold of the code.  [releaseLock] reads the token and
    deletes the key in two awaited calls.  Session A reads its own token;
    the lock expires and session B acquires it; session A resumes and its
    DEL removes the record that now holds the token of B, the later
    holder. *)
Theorem releaseLock_deletes_later_holder :
  Redis.data (Redis.schedule (take 3 LockRace.race)
                ([LockRace.releasing; LockRace.acquiring], LockRace.held)).2
    !! LockRace.lockKey = Some "token-B"
  /\ Redis.data (Redis.schedule LockRace.race
                   ([LockRace.releasing; LockRace.acquiring], LockRace.held)).2
       !! LockRace.lockKey = None
  /\ forallb Redis.finished
       (Redis.schedule LockRace.race
          ([LockRace.releasing; LockRace.acquiring], LockRace.held)).1 = true.
Proof. vm_compute. repeat split. Qed.

(** ** The key table as declared *)

Section DeclaredKeys.
Import Json Redis Keys Main.
Context `{Host}.

Lemma REDIS_KEYS_incomplete : ~ complete REDIS_KEYS.
Proof. intros [[g Hg] _]. discriminate Hg. Qed.

Lemma completed_complete (K : redis_keys) : complete (completed K).
Proof. repeat split; eexists; reflexivity. Qed.



Lemma safeJSONParse_run (data : option string) (fallback : json) (σ : store) :
  exists v trace,
    run (safeJSONParse data fallback) σ = (Returned v, σ, trace)
    /\ forallb silent trace = true
    /\ forallb (fun c => negb (is_write c)) trace = true.
Proof.
  unfold safeJSONParse. destruct (falsy data).
  - exists fallback, []. auto.
  - destruct (JSON_parse (or_else data "")) as [j |].
    + exists j, []. auto.
    + exists fallback, [CONSOLE JSONParseError]. auto.
Qed.

End DeclaredKeys.


Section DeclaredKeysAward.
Import Json Redis Keys Main.
Context `{Host}.

Ltac case_split :=
  match goal with
  | |- context [if ?b then _ else _] => destruct b eqn:?
  | |- context [match ?x with Some _ => _ | None => _ end] => destruct x eqn:?
  end.

(** With the table as declared, no invocation of the awarder ever
    changes the store, whatever the store holds. *)
Lemma awardUserPoints_declared_keys_inert (σ : store) (lockId finalizeLockId : string)
      (now : Z) (postId userId day : string) :
  let '(res, σ', trace) :=
    run (awardUserPoints REDIS_KEYS lockId finalizeLockId now postId userId day) σ in
  res = Returned tt /\ σ' = σ /\ forallb (fun c => negb (is_write c)) trace = true.
Proof.
  unfold awardUserPoints, safeJSONParse. simpl.
  repeat (case_split; simpl); auto.
Qed.

End DeclaredKeysAward.

(** ** History normalisation and the stats update *)

Section StatsUpdate.
Import Json Game Streaks.
Context `{Host}.

Lemma normalize_new_entry (v : HistEntry) :
  normalizeHistoryEntry (entry_to_json v) = Some (entry_to_json v).
Proof. destruct v as [d c]; destruct c; reflexivity. Qed.

Lemma omap_filter_kept (l : list json) :
  omap normalizeHistoryEntry (filter kept l) = omap normalizeHistoryEntry l.
Proof.
  induction l as [| e l IH]; [reflexivity |].
  destruct (decide (kept e)) as [Hwf | Hmal].
  - rewrite filter_cons_True by exact Hwf.
    cbn [omap list_omap]. rewrite IH. reflexivity.
  - rewrite filter_cons_False by exact Hmal.
    cbn [omap list_omap]. rewrite IH.
    destruct (normalizeHistoryEntry e) eqn:He; [| reflexivity].
    exfalso. apply Hmal. unfold kept. rewrite He. eauto.
Qed.

Lemma normalized_history (cs : UserStats) (v : HistEntry) :
  omap normalizeHistoryEntry (history cs ++ [entry_to_json v])%list
  = (omap normalizeHistoryEntry (history cs) ++ [entry_to_json v])%list.
Proof.
  rewrite omap_app. cbn [omap list_omap]. rewrite normalize_new_entry. reflexivity.
Qed.

(** What the normaliser returns for an entry it keeps: an object entry
    itself, the day and choice of a string that parses to a well-shaped
    document, or a legacy day string with the choice [null]. *)
Lemma normalizeHistoryEntry_kept (e o : json) :
  normalizeHistoryEntry e = Some o ->
  match e with
  | JStr s =>
      (exists parsed d c,
          JSON_parse s = Some parsed /\ well_shaped parsed = true
          /\ prop parsed "day" = Some d /\ prop parsed "choice" = Some c
          /\ o = JObj [("day", d); ("choice", c)])
      \/ (legacy_day_format s = true
          /\ o = JObj [("day", JStr s); ("choice", JNull)])
  | _ => well_shaped e = true /\ o = e
  end.
Proof.
  destruct e as [| b | z | x | s | items | members]; simpl;
    try (destruct (well_shaped _) eqn:Hw; [intros [= <-]; auto | discriminate]).
  unfold parseHistoryEntry.
  destruct (JSON_parse s) as [parsed |] eqn:Hp.
  - destruct (well_shaped parsed) eqn:Hw.
    + destruct (prop parsed "day") as [d |] eqn:Hd;
        [destruct (prop parsed "choice") as [c |] eqn:Hc |].
      * intros [= <-]. left. exists parsed, d, c. auto.
      * destruct (legacy_day_format s) eqn:Hl; [intros [= <-]; auto | discriminate].
      * destruct (legacy_day_format s) eqn:Hl; [intros [= <-]; auto | discriminate].
    + destruct (legacy_day_format s) eqn:Hl; [intros [= <-]; auto | discriminate].
  - destruct (legacy_day_format s) eqn:Hl; [intros [= <-]; auto | discriminate].
Qed.

(** What the skipping of [updateUserStats] amounts to: an entry that
    the normaliser rejects has no effect on the result, the stored history
    is the kept entries, in order, followed by the new vote, and a kept
    entry carries its own choice (or [null] for a legacy day string),
    never a substituted one.  Which entries are kept is decided by shape
    alone: see [updateUserStats_keeps_undated_entry]. *)
Theorem updateUserStats_drops_rejected_entries
        (now : Z) (cs : UserStats) (v : HistEntry) (points : Z) :
  updateUserStats now cs v points
  = updateUserStats now (with_history cs (filter kept (history cs))) v points
  /\ history (updateUserStats now cs v points)
     = (omap normalizeHistoryEntry (history cs) ++ [entry_to_json v])%list
  /\ (forall e, e ∈ history cs -> ~ kept e ->
        normalizeHistoryEntry e = None)
  /\ (forall e o, e ∈ history cs -> normalizeHistoryEntry e = Some o ->
        match e with
        | JStr s =>
            (exists parsed d c,
                JSON_parse s = Some parsed /\ well_shaped parsed = true
                /\ prop parsed "day" = Some d /\ prop parsed "choice" = Some c
                /\ o = JObj [("day", d); ("choice", c)])
            \/ (legacy_day_format s = true
                /\ o = JObj [("day", JStr s); ("choice", JNull)])
        | _ => well_shaped e = true /\ o = e
        end).
Proof.
  split; [| split; [| split]].
  - unfold updateUserStats, with_history. simpl.
    rewrite !omap_app, omap_filter_kept. reflexivity.
  - unfold updateUserStats. simpl. apply normalized_history.
  - intros e _ Hmal. destruct (normalizeHistoryEntry e) eqn:He; [| reflexivity].
    exfalso. apply Hmal. unfold kept. rewrite He. eauto.
  - intros e o _. apply normalizeHistoryEntry_kept.
Qed.

(** C10.  The longest streak stored in the record that [updateUserStats]
    returns is never below the one in the record it was given. *)
Theorem updateUserStats_longestStreak_monotone
        (now : Z) (cs : UserStats) (v : HistEntry) (points : Z) :
  statsLongestStreak cs <= statsLongestStreak (updateUserStats now cs v points).
Proof. unfold updateUserStats. simpl. apply Z.le_max_r. Qed.

Lemma updateUserStats_longestStreak_covers_recomputed
      (now : Z) (cs : UserStats) (v : HistEntry) (points : Z) :
  longestStreak
    (calculateStreak now
       (as_entry <$> omap normalizeHistoryEntry
                       (history cs ++ [entry_to_json v])%list))
  <= statsLongestStreak (updateUserStats now cs v points).
Proof. unfold updateUserStats. simpl. apply Z.le_max_l. Qed.

End StatsUpdate.

Example updateUserStats_drops_rejected_entries_example :
  let stored :=
    {| Streaks.totalScore := 4; Streaks.statsCurrentStreak := 1;
       Streaks.statsLongestStreak := 1; Streaks.totalVotes := 2;
       Streaks.cooperateCount := 1; Streaks.defectCount := 1;
       Streaks.history :=
         [ Json.JStr "2026-02-09";
           Json.JStr "not a history entry";
           Json.JNum 17;
           Json.JObj [("day", Json.JStr "2026-02-08"); ("choice", Json.JStr "maybe")];
           Json.JStr (Reference.stringify
                       (Json.JObj [("day", Json.JStr "2026-02-10");
                                   ("choice", Json.JStr "defect")])) ] |} in
  let vote := {| Streaks.day := "2026-02-11"; Streaks.choice := Game.cooperate |} in
  Streaks.history (Streaks.updateUserStats (H := Reference.host) 1770811200000 stored vote 0)
  = [ Json.JObj [("day", Json.JStr "2026-02-09"); ("choice", Json.JNull)];
      Json.JObj [("day", Json.JStr "2026-02-10"); ("choice", Json.JStr "defect")];
      Json.JObj [("day", Json.JStr "2026-02-11"); ("choice", Json.JStr "cooperate")] ].
Proof.
  intros stored vote.
  rewrite (proj1 (proj2 (updateUserStats_drops_rejected_entries
                           (H := Reference.host) 1770811200000 stored vote 0))).
  vm_compute. reflexivity.
Qed.

(** On that history the three kept days form one run ending today. *)
Example updateUserStats_streak_over_kept_entries :
  let stored :=
    {| Streaks.totalScore := 4; Streaks.statsCurrentStreak := 1;
       Streaks.statsLongestStreak := 1; Streaks.totalVotes := 2;
       Streaks.cooperateCount := 1; Streaks.defectCount := 1;
       Streaks.history :=
         [ Json.JStr "2026-02-09";
           Json.JStr "not a history entry";
           Json.JNum 17;
           Json.JObj [("day", Json.JStr "2026-02-08"); ("choice", Json.JStr "maybe")];
           Json.JStr (Reference.stringify
                       (Json.JObj [("day", Json.JStr "2026-02-10");
                                   ("choice", Json.JStr "defect")])) ] |} in
  let vote := {| Streaks.day := "2026-02-11"; Streaks.choice := Game.cooperate |} in
  let updated := Streaks.updateUserStats (H := Reference.host) 1770811200000 stored vote 0 in
  Streaks.statsCurrentStreak updated = 3
  /\ Streaks.statsLongestStreak updated = 3
  /\ Streaks.totalVotes updated = 3
  /\ Streaks.cooperateCount updated = 2.
Proof. vm_compute. auto. Qed.

(** The older copy of the tracker, on a stored history holding one
    unreadable string: the string is fed to [calculateStreak] as a day with
    the choice ['cooperate'], it sorts first and the current streak is 0,
    where the tracker above skips it and counts today's vote. *)
Example older_copy_keeps_unreadable_entries :
  let vote := {| Streaks.day := "2026-02-11"; Streaks.choice := Game.cooperate |} in
  StreaksOld.currentStreak
    (StreaksOld.updateUserStats (H := Reference.host) 1770811200000
       {| StreaksOld.totalScore := 0; StreaksOld.currentStreak := 0;
          StreaksOld.longestStreak := 0; StreaksOld.totalVotes := 0;
          StreaksOld.cooperateCount := 0; StreaksOld.defectCount := 0;
          StreaksOld.history := ["not a history entry"] |} vote 0) = 0
  /\ Streaks.statsCurrentStreak
       (Streaks.updateUserStats (H := Reference.host) 1770811200000
          {| Streaks.totalScore := 0; Streaks.statsCurrentStreak := 0;
             Streaks.statsLongestStreak := 0; Streaks.totalVotes := 0;
             Streaks.cooperateCount := 0; Streaks.defectCount := 0;
             Streaks.history := [Json.JStr "not a history entry"] |} vote 0) = 1.
Proof. vm_compute. auto. Qed.

(** C8 does not hold of the code.  The normaliser checks the shape of an
    entry and its choice, not that its day is a date.  A stored entry
    whose day is no date is kept in the history; its comparisons in the
    sort are all NaN, so it stays at the head of the sorted history, and
    the first loop of [calculateStreak] stops at it: the vote of today is
    not counted.  Without the entry the current streak is 1.  The same
    happens with a legacy string that has the form of a day and is none. *)
Theorem updateUserStats_keeps_undated_entry :
  Streaks.history
    (Streaks.updateUserStats (H := Reference.host) Undated.now
       (Undated.stored [Undated.undated]) Undated.vote 0)
  = [Undated.undated; Streaks.entry_to_json Undated.vote]
  /\ Streaks.statsCurrentStreak
       (Streaks.updateUserStats (H := Reference.host) Undated.now
          (Undated.stored [Undated.undated]) Undated.vote 0) = 0
  /\ Streaks.statsCurrentStreak
       (Streaks.updateUserStats (H := Reference.host) Undated.now
          (Undated.stored []) Undated.vote 0) = 1
  /\ Streaks.history
       (Streaks.updateUserStats (H := Reference.host) Undated.now
          (Undated.stored [Json.JStr "2026-99-99"]) Undated.vote 0)
     = [Json.JObj [("day", Json.JStr "2026-99-99"); ("choice", Json.JNull)];
        Streaks.entry_to_json Undated.vote]
  /\ Streaks.statsCurrentStreak
       (Streaks.updateUserStats (H := Reference.host) Undated.now
          (Undated.stored [Json.JStr "2026-99-99"]) Undated.vote 0) = 0.
Proof. vm_compute. repeat split. Qed.

(** ** Streaks *)

Section StreakRule.
Import Json Game Streaks.
Context `{Host}.

Lemma MS_PER_DAY_pos : 0 < MS_PER_DAY.
Proof. reflexivity. Qed.

Lemma setUTCHours0_day (t : Z) : setUTCHours0 t = MS_PER_DAY * (t / MS_PER_DAY).
Proof.
  unfold setUTCHours0. pose proof (Z.div_mod t MS_PER_DAY) as E.
  assert (MS_PER_DAY <> 0) by (pose proof MS_PER_DAY_pos; lia). lia.
Qed.

Lemma on_day_time (a : HistEntry) (d : Z) :
  on_day a d -> exists t, getTime a = Some t /\ t / MS_PER_DAY = d.
Proof.
  unfold on_day, dayNumber. destruct (getTime a) as [t |]; simpl; [| discriminate].
  intros [= <-]. eauto.
Qed.

Lemma later_not_before (a b : HistEntry) : later a b -> not_before a b.
Proof.
  intros (da & db & Ha & Hb & Hlt).
  apply on_day_time in Ha as (ta & Hta & <-), Hb as (tb & Htb & <-).
  exists ta, tb. repeat split; auto.
  destruct (Z_le_gt_dec tb ta) as [|Hgt]; [assumption |].
  pose proof (Z.div_le_mono ta tb MS_PER_DAY MS_PER_DAY_pos). lia.
Qed.

Lemma sort_insert_perm (x : HistEntry) (l : list HistEntry) :
  sort_insert x l ≡ₚ x :: l.
Proof.
  induction l as [| y l IH]; simpl; [reflexivity |].
  destruct (byDayDescending x y) as [v |]; [| reflexivity].
  destruct (0 <? v); [| reflexivity].
  rewrite IH. apply Permutation_swap.
Qed.

Lemma sort_perm (l : list HistEntry) : sort l ≡ₚ l.
Proof.
  induction l as [| x l IH]; simpl; [reflexivity |].
  rewrite sort_insert_perm, IH. reflexivity.
Qed.

Lemma not_before_trans (a b c : HistEntry) :
  not_before a b -> not_before b c -> not_before a c.
Proof.
  intros (ta & tb & Ha & Hb & Hab) (tb' & tc & Hb' & Hc & Hbc).
  rewrite Hb in Hb'. injection Hb' as <-.
  exists ta, tc. repeat split; auto. lia.
Qed.

Lemma sort_insert_sorted (x : HistEntry) (l : list HistEntry) :
  is_Some (getTime x) -> Forall (fun y => is_Some (getTime y)) l ->
  StronglySorted not_before l -> StronglySorted not_before (sort_insert x l).
Proof.
  intros [tx Hx] Hvalid Hsorted.
  induction Hsorted as [| y l Hsorted IH Hy]; simpl.
  - repeat constructor.
  - apply Forall_cons in Hvalid as [[ty Hty] Hvalid].
    unfold byDayDescending. rewrite Hx, Hty.
    destruct (0 <? ty - tx) eqn:Hcmp.
    + apply Z.ltb_lt in Hcmp. constructor; [auto |].
      rewrite sort_insert_perm. constructor; [| assumption].
      exists ty, tx. repeat split; auto. lia.
    + apply Z.ltb_ge in Hcmp.
      assert (Hxy : not_before x y) by (exists tx, ty; repeat split; auto; lia).
      constructor; [constructor; assumption |].
      constructor; [assumption |].
      eapply Forall_impl; [exact Hy |].
      intros z Hz. eapply not_before_trans; eassumption.
Qed.

Lemma sort_sorted (l : list HistEntry) :
  Forall (fun y => is_Some (getTime y)) l -> StronglySorted not_before (sort l).
Proof.
  induction l as [| x l IH]; simpl; intros Hvalid; [constructor |].
  apply Forall_cons in Hvalid as [Hx Hvalid].
  apply sort_insert_sorted; auto.
  rewrite sort_perm. assumption.
Qed.

Lemma later_irrefl_not_before (a b : HistEntry) : later a b -> not_before b a -> False.
Proof.
  intros (da & db & Ha & Hb & Hlt) (tb & ta & Htb & Hta & Hle).
  apply on_day_time in Ha as (ta' & Hta' & <-), Hb as (tb' & Htb' & <-).
  rewrite Hta in Hta'. rewrite Htb in Htb'. injection Hta' as <-. injection Htb' as <-.
  pose proof (Z.div_le_mono ta tb MS_PER_DAY MS_PER_DAY_pos). lia.
Qed.

Lemma sorted_unique (l1 l2 : list HistEntry) :
  StronglySorted not_before l1 -> StronglySorted later l2 -> l1 ≡ₚ l2 -> l1 = l2.
Proof.
  intros Hs1. revert l2.
  induction Hs1 as [| a l1 Hs1 IH Ha]; intros l2 Hs2 Hperm.
  - apply Permutation_nil_l in Hperm. congruence.
  - destruct Hs2 as [| b l2 Hs2 Hb].
    + apply Permutation_nil_r in Hperm. discriminate.
    + assert (a = b) as ->.
      { assert (Hin : a ∈ b :: l2) by (rewrite <- Hperm; left).
        apply elem_of_cons in Hin as [-> | Hin]; [reflexivity |].
        assert (Hin' : b ∈ a :: l1) by (rewrite Hperm; left).
        apply elem_of_cons in Hin' as [-> | Hin']; [reflexivity |].
        exfalso. rewrite Forall_forall in Ha, Hb.
        eapply later_irrefl_not_before; [apply Hb | apply Ha]; eassumption. }
      f_equal. apply IH; [assumption |].
      eapply Permutation_cons_inv; eassumption.
Qed.


Lemma scaled_eqb (m a b i : Z) :
  0 < m -> (m * a =? m * b - i * m) = (a =? b - i).
Proof.
  intros Hm.
  destruct (Z.eqb_spec a (b - i)) as [-> | E].
  - apply Z.eqb_eq. ring.
  - apply Z.eqb_neq. nia.
Qed.

Lemma currentStreakLoop_days (now : Z) (l : list HistEntry) (ds : list Z) :
  Forall2 on_day l ds -> forall i acc,
  currentStreakLoop (setUTCHours0 now) l i acc
  = current_days (now / MS_PER_DAY) ds i acc.
Proof.
  induction 1 as [| x d l ds Hx _ IH]; intros i acc; simpl; [reflexivity |].
  apply on_day_time in Hx as (t & -> & <-). simpl.
  rewrite (setUTCHours0_day t), (setUTCHours0_day now) at 1.
  rewrite scaled_eqb by apply MS_PER_DAY_pos.
  destruct (t / MS_PER_DAY =? now / MS_PER_DAY - i); [apply IH | reflexivity].
Qed.

Lemma daysDiff_days (a b : Z) :
  daysDiff (Some (MS_PER_DAY * a)) (Some (MS_PER_DAY * b)) = Some (a - b).
Proof.
  unfold daysDiff. f_equal.
  replace (MS_PER_DAY * a - MS_PER_DAY * b) with ((a - b) * MS_PER_DAY) by lia.
  apply Z.div_mul. pose proof MS_PER_DAY_pos. lia.
Qed.

Lemma longestStreakLoop_days (l : list HistEntry) (ds : list Z) :
  Forall2 on_day l ds -> forall lastDay longest temp,
  longestStreakLoop l ((fun d => Some (MS_PER_DAY * d)) <$> lastDay) longest temp
  = longest_days ds lastDay longest temp.
Proof.
  induction 1 as [| x d l ds Hx _ IH]; intros lastDay longest temp;
    [reflexivity |].
  apply on_day_time in Hx as (t & Ht & <-).
  cbn [longestStreakLoop longest_days]. rewrite Ht.
  cbn [fmap option_fmap option_map]. rewrite setUTCHours0_day.
  destruct lastDay as [last |]; cbn [fmap option_fmap option_map].
  - rewrite daysDiff_days.
    destruct (Z.eqb_spec (last - t / MS_PER_DAY) 1) as [-> | E].
    + apply (IH (Some (t / MS_PER_DAY))).
    + transitivity
        (longestStreakLoop l (Some (Some (MS_PER_DAY * (t / MS_PER_DAY))))
           (Z.max longest temp) 1).
      * destruct (last - t / MS_PER_DAY) as [| [p | p |] |]; try reflexivity.
        contradiction E; reflexivity.
      * apply (IH (Some (t / MS_PER_DAY))).
  - apply (IH (Some (t / MS_PER_DAY))).
Qed.

Lemma spec_runs_head (d : Z) (rest : list Z) :
  exists run runs, spec_runs (d :: rest) = (d :: run) :: runs.
Proof.
  simpl. destruct (spec_runs rest) as [| [| d' run] runs]; eauto.
  destruct (d - d' =? 1); eauto.
Qed.

Lemma longest_days_runs (ds : list Z) : forall last longest temp run runs,
  0 <= temp ->
  spec_runs (last :: ds) = run :: runs ->
  let '(longest', temp') := longest_days ds (Some last) longest temp in
  Z.max longest' temp'
  = Z.max longest
      (Z.max (Z.of_nat (length run) + temp - 1)
         (foldr Z.max 0 ((fun r => Z.of_nat (length r)) <$> runs))).
Proof.
  induction ds as [| d rest IH]; intros last longest temp run runs Htemp Hruns.
  - simpl in Hruns. injection Hruns as <- <-. simpl. lia.
  - destruct (spec_runs_head d rest) as (run' & runs' & Hhead).
    change (spec_runs (last :: d :: rest))
      with (match spec_runs (d :: rest) with
            | (d' :: r) :: rs =>
                if last - d' =? 1 then (last :: d' :: r) :: rs
                else [last] :: (d' :: r) :: rs
            | _ => [[last]]
            end) in Hruns.
    rewrite Hhead in Hruns.
    cbn [longest_days].
    destruct (last - d =? 1); injection Hruns as <- <-.
    + specialize (IH d longest (temp + 1) _ _ ltac:(lia) Hhead).
      destruct (longest_days rest (Some d) longest (temp + 1)) as [l' t'].
      rewrite IH. cbn [length]. lia.
    + specialize (IH d (Z.max longest temp) 1 _ _ ltac:(lia) Hhead).
      destruct (longest_days rest (Some d) (Z.max longest temp) 1) as [l' t'].
      rewrite IH. cbn [length fmap list_fmap foldr]. lia.
Qed.

Lemma foldr_max_nonneg (runs : list (list Z)) :
  0 <= foldr Z.max 0 ((fun r => Z.of_nat (length r)) <$> runs).
Proof. induction runs; simpl; lia. Qed.

Lemma longest_days_spec (ds : list Z) :
  let '(longest, temp) := longest_days ds None 0 0 in
  Z.max longest temp = spec_longest_run ds.
Proof.
  destruct ds as [| d rest]; [reflexivity |].
  destruct (spec_runs_head d rest) as (run & runs & Hhead).
  cbn [longest_days].
  pose proof (longest_days_runs rest d 0 1 _ _ ltac:(lia) Hhead) as E.
  destruct (longest_days rest (Some d) 0 1) as [l t].
  rewrite E. unfold spec_longest_run. rewrite Hhead.
  pose proof (foldr_max_nonneg runs).
  cbn [length fmap list_fmap foldr]. lia.
Qed.

(** On a history whose days all parse, read on day counts. *)
Lemma calculateStreak_days (now : Z) (h : list HistEntry) (ds : list Z) :
  h <> [] -> Forall2 on_day (sort h) ds ->
  calculateStreak now h
  = {| currentStreak := current_days (now / MS_PER_DAY) ds 0 0;
       longestStreak := spec_longest_run ds |}.
Proof.
  intros Hne Hdays. unfold calculateStreak.
  destruct h as [| x h]; [contradiction |].
  rewrite (currentStreakLoop_days now _ _ Hdays).
  pose proof (longestStreakLoop_days _ _ Hdays None 0 0) as E.
  simpl fmap in E. rewrite E.
  pose proof (longest_days_spec ds) as S.
  destruct (longest_days ds None 0 0) as [l t]. rewrite S. reflexivity.
Qed.

Lemma days_descending_later (l : list HistEntry) (ds : list Z) :
  Forall2 on_day l ds -> StronglySorted (fun a b => b < a) ds ->
  StronglySorted later l /\ Forall (fun y => is_Some (getTime y)) l.
Proof.
  induction 1 as [| x d l ds Hx Hl IH]; intros Hsorted.
  - split; constructor.
  - apply StronglySorted_inv in Hsorted as [Hsorted Hd].
    destruct (IH Hsorted) as [IHs IHv]. split.
    + constructor; [assumption |].
      clear IH IHs IHv Hsorted. induction Hl as [| y e l ds Hy Hl IH]; constructor.
      * apply Forall_cons in Hd as [Hlt _]. exists d, e. auto.
      * apply IH. apply Forall_cons in Hd as [_ Hd]. assumption.
    + constructor; [| assumption].
      apply on_day_time in Hx as (t & -> & _). eauto.
Qed.

Lemma sort_of_permutation (h l : list HistEntry) (ds : list Z) :
  h ≡ₚ l -> Forall2 on_day l ds -> StronglySorted (fun a b => b < a) ds ->
  sort h = l.
Proof.
  intros Hperm Hdays Hsorted.
  destruct (days_descending_later l ds Hdays Hsorted) as [Hlater Hvalid].
  apply sorted_unique; [| assumption |].
  - apply sort_sorted. rewrite Hperm. assumption.
  - rewrite sort_perm. assumption.
Qed.

(** A history that is, in some order, the list [l] of entries on the
    strictly descending days [ds]. *)
Lemma calculateStreak_of_permutation
      (now : Z) (h l : list HistEntry) (ds : list Z) :
  h ≡ₚ l -> l <> [] -> Forall2 on_day l ds ->
  StronglySorted (fun a b => b < a) ds ->
  calculateStreak now h
  = {| currentStreak := current_days (now / MS_PER_DAY) ds 0 0;
       longestStreak := spec_longest_run ds |}.
Proof.
  intros Hperm Hne Hdays Hsorted.
  apply calculateStreak_days.
  - intros ->. apply Permutation_nil_l in Hperm. congruence.
  - rewrite (sort_of_permutation h l ds); assumption.
Qed.

Ltac entries_on_days :=
  repeat (constructor; [assumption |]); constructor.

Ltac descending :=
  repeat match goal with
         | |- StronglySorted _ _ => constructor
         | |- Forall _ _ => constructor
         end; lia.

Ltac decide_days :=
  repeat match goal with
         | |- context [?a =? ?b] =>
             first [ rewrite (proj2 (Z.eqb_eq a b)) by lia
                   | rewrite (proj2 (Z.eqb_neq a b)) by lia ];
             cbn
         end.

(** C7.  On a history of exactly three consecutive calendar days ending
    today, in any order, [calculateStreak] returns a current streak of 3 and
    a longest streak of 3.  On two runs of consecutive days of lengths 2 and
    3 with one day missing between them, the longest streak is 3 and the
    current streak is the length of the run that ends today.  In general,
    when every day parses, the longest streak is the longest run of the
    sorted history, a gap of exactly one calendar day continuing a run and
    any other gap ending it, the final run included. *)
Theorem calculateStreak_runs (now : Z) :
  let today := now / MS_PER_DAY in
  (forall h e0 e1 e2,
      h ≡ₚ [e0; e1; e2] ->
      on_day e0 today -> on_day e1 (today - 1) -> on_day e2 (today - 2) ->
      calculateStreak now h = {| currentStreak := 3; longestStreak := 3 |})
  /\ (forall h a0 a1 a2 b0 b1,
      h ≡ₚ [a0; a1; a2; b0; b1] ->
      on_day a0 today -> on_day a1 (today - 1) -> on_day a2 (today - 2) ->
      on_day b0 (today - 4) -> on_day b1 (today - 5) ->
      calculateStreak now h = {| currentStreak := 3; longestStreak := 3 |})
  /\ (forall h a0 a1 b0 b1 b2,
      h ≡ₚ [a0; a1; b0; b1; b2] ->
      on_day a0 today -> on_day a1 (today - 1) ->
      on_day b0 (today - 3) -> on_day b1 (today - 4) -> on_day b2 (today - 5) ->
      calculateStreak now h = {| currentStreak := 2; longestStreak := 3 |})
  /\ (forall h ds,
      h <> [] -> Forall2 on_day (sort h) ds ->
      calculateStreak now h
      = {| currentStreak := current_days today ds 0 0;
           longestStreak := spec_longest_run ds |}).
Proof.
  intros today. repeat split.
  - intros h e0 e1 e2 Hperm H0 H1 H2.
    rewrite (calculateStreak_of_permutation now h _ [today; today - 1; today - 2] Hperm);
      [| discriminate | entries_on_days | descending].
    fold today. unfold spec_longest_run. cbn. decide_days. reflexivity.
  - intros h a0 a1 a2 b0 b1 Hperm H0 H1 H2 H4 H5.
    rewrite (calculateStreak_of_permutation now h _
               [today; today - 1; today - 2; today - 4; today - 5] Hperm);
      [| discriminate | entries_on_days | descending].
    fold today. unfold spec_longest_run. cbn. decide_days. reflexivity.
  - intros h a0 a1 b0 b1 b2 Hperm H0 H1 H3 H4 H5.
    rewrite (calculateStreak_of_permutation now h _
               [today; today - 1; today - 3; today - 4; today - 5] Hperm);
      [| discriminate | entries_on_days | descending].
    fold today. unfold spec_longest_run. cbn. decide_days. reflexivity.
  - intros h ds Hne Hdays. apply calculateStreak_days; assumption.
Qed.

End StreakRule.

Lemma calculateStreak_runs_witness :
  Streaks.calculateStreak (H := Reference.host) 1770811200000
    [ {| Streaks.day := "2026-02-09"; Streaks.choice := Game.cooperate |};
      {| Streaks.day := "2026-02-10"; Streaks.choice := Game.defect |};
      {| Streaks.day := "2026-02-11"; Streaks.choice := Game.cooperate |} ]
  = {| Streaks.currentStreak := 3; Streaks.longestStreak := 3 |}.
Proof.
  apply (proj1 (calculateStreak_runs (H := Reference.host) 1770811200000) _
           {| Streaks.day := "2026-02-11"; Streaks.choice := Game.cooperate |}
           {| Streaks.day := "2026-02-10"; Streaks.choice := Game.defect |}
           {| Streaks.day := "2026-02-09"; Streaks.choice := Game.cooperate |}).
  - exact (Permutation_rev
             [ {| Streaks.day := "2026-02-09"; Streaks.choice := Game.cooperate |};
               {| Streaks.day := "2026-02-10"; Streaks.choice := Game.defect |};
               {| Streaks.day := "2026-02-11"; Streaks.choice := Game.cooperate |} ]).
  - reflexivity.
  - reflexivity.
  - reflexivity.
Defined.

(** The two examples in the documentation of [calculateStreak], read on
    2026-02-11. *)
Example calculateStreak_doc_example_gap :
  Streaks.calculateStreak (H := Reference.host) 1770811200000
    [ {| Streaks.day := "2026-02-08"; Streaks.choice := Game.cooperate |};
      {| Streaks.day := "2026-02-09"; Streaks.choice := Game.cooperate |};
      {| Streaks.day := "2026-02-11"; Streaks.choice := Game.cooperate |} ]
  = {| Streaks.currentStreak := 1; Streaks.longestStreak := 2 |}.
Proof. vm_compute. reflexivity. Qed.

Example calculateStreak_empty (now : Z) :
  Streaks.calculateStreak (H := Reference.host) now []
  = {| Streaks.currentStreak := 0; Streaks.longestStreak := 0 |}.
Proof. reflexivity. Qed.

(** ** Vote submission *)

Section VoteSubmission.
Import Json Game Redis Keys Main.
Context `{Host}.
Variable K : redis_keys.

(** C6.  [handleVote] does not accept a second vote: when a vote is
    already stored for the participant and the day, the first and only
    store command that can write is the conditional create, which fails;
    the handler then reads the stored vote, reports "already voted" and
    returns, and the store is exactly what it was: no counter is
    incremented, no history entry appended, no stats written.  When the
    component already knows that the participant voted, it returns before
    any store command. *)
Theorem handleVote_rejects_duplicate
        (σ : store) (choice : Choice) (now : Z) (postId userId currentDay : string) :
  let voteKey := userVote K postId userId currentDay in
  (forall hasVotedToday,
      hasVotedToday = true \/ choice = no_choice ->
      run (handleVote K hasVotedToday choice now postId userId currentDay) σ
      = (Returned tt, σ, []))
  /\ (is_Some (data σ !! voteKey) -> choice <> no_choice ->
      exists reports,
        run (handleVote K false choice now postId userId currentDay) σ
        = (Returned tt, σ,
           SET_NX voteKey (JSON_stringify (vote_document choice now currentDay)) None
             :: GET voteKey :: reports)
        /\ forallb silent reports = true
        /\ last reports = Some (UI ToastAlreadyVoted)).
Proof.
  intros voteKey. split.
  - intros hasVotedToday [-> | ->]; [destruct choice |]; reflexivity.
  - intros [stored Hstored] Hchoice.
    destruct choice; [| | contradiction];
      unfold handleVote, safeJSONParse; simpl; fold voteKey;
      repeat (rewrite Hstored; simpl);
      (destruct (String.eqb stored ""); simpl;
       [ eexists; split; [reflexivity |]; auto |]);
      (destruct (JSON_parse stored) as [parsed |]; simpl;
       [ destruct (truthy_opt (prop parsed "choice")); simpl |]);
      (eexists; split; [reflexivity |]; auto).
Qed.
End VoteSubmission.

(** ** The finalizer on a settled day *)

Section Finalizer.
Import Json Game Redis Keys Main.
Context `{Host}.
Variable K : redis_keys.

Lemma lookup_write_ne (σ : store) (k k' v : string) (e : option Z) :
  k <> k' -> data (write k v e σ) !! k' = data σ !! k'.
Proof. intros Hne. unfold write. simpl. apply lookup_insert_ne. exact Hne. Qed.

Lemma lookup_write_eq (σ : store) (k v : string) (e : option Z) :
  data (write k v e σ) !! k = Some v.
Proof. unfold write. simpl. apply lookup_insert_eq. Qed.

(** On a key table that defines the finalize-lock key: when the results
    of a day are already cached, [finalizeDailyResults] still begins by
    trying to take the finalize lock.  If the lock is held it returns with the store unchanged.  If it
    gets the lock it reads the marker and the cached results, leaves the
    results as they are without reading the counters, writes the finalized
    marker only if it is missing, and releases the lock. *)
Theorem finalizeDailyResults_cached_results
        (g : string -> string -> string) (σ : store) (lockId : string) (now : Z)
        (postId day : string) :
  let lockKey := g postId day in
  let resultsKey := dailyResults K postId day in
  let finalizedKey := dailyFinalized K postId day in
  dailyFinalizeLock K = Some g ->
  lockKey <> resultsKey -> lockKey <> finalizedKey ->
  resultsKey <> finalizedKey ->
  falsy (data σ !! resultsKey) = false ->
  let '(res, σ', trace) := run (finalizeDailyResults K lockId now postId day) σ in
  res = Returned tt
  /\ data σ' !! resultsKey = data σ !! resultsKey
  /\ match data σ !! lockKey with
     | Some _ =>
         σ' = σ /\ trace = [SET_NX lockKey lockId (Some (now + 30000))]
     | None =>
         trace =
           ([SET_NX lockKey lockId (Some (now + 30000));
             GET finalizedKey; GET resultsKey]
            ++ (if falsy (data σ !! finalizedKey)
                then [SET finalizedKey "true"] else [])
            ++ [GET lockKey; DEL lockKey])%list
         /\ data σ' =
              (if falsy (data σ !! finalizedKey)
               then <[finalizedKey := "true"]> (data σ) else data σ)
     end.
Proof.
  intros lockKey resultsKey finalizedKey Hg Hres Hfin Hrf Hcached.
  unfold finalizeDailyResults. rewrite Hg. simpl.
  fold lockKey resultsKey finalizedKey.
  destruct (data σ !! lockKey) as [holder |] eqn:Hlock; simpl.
  - auto.
  - rewrite !lookup_insert_ne by assumption.
    rewrite Hcached. simpl.
    destruct (falsy (data σ !! finalizedKey)) eqn:Hmarker; simpl.
    + rewrite lookup_insert_ne by congruence. rewrite lookup_insert_eq.
      rewrite bool_decide_eq_true_2 by reflexivity. simpl.
      unfold remove. simpl.
      rewrite lookup_insert_ne by congruence. rewrite lookup_insert_eq. simpl.
      rewrite delete_insert_ne by congruence.
      rewrite delete_insert_eq, delete_id by assumption.
      repeat split. apply lookup_insert_ne. congruence.
    + rewrite lookup_insert_eq.
      rewrite bool_decide_eq_true_2 by reflexivity. simpl.
      unfold remove. simpl. rewrite lookup_insert_eq. simpl.
      rewrite delete_insert_eq, delete_id by assumption.
      repeat split.
Qed.
End Finalizer.

Lemma handleVote_rejects_duplicate_witness :
  exists reports,
    Redis.run (Main.handleVote (H := Reference.host) Scenario.K false Game.defect
                 1770790000000 "p" "u" Scenario.day1) Scenario.settled
    = (Redis.Returned tt, Scenario.settled,
       Redis.SET_NX Scenario.voteKey1
         (Reference.stringify (Main.vote_document Game.defect 1770790000000 Scenario.day1))
         None
       :: Redis.GET Scenario.voteKey1 :: reports)
    /\ forallb Redis.silent reports = true
    /\ last reports = Some (Redis.UI Redis.ToastAlreadyVoted).
Proof.
  apply (proj2 (handleVote_rejects_duplicate (H := Reference.host) Scenario.K
                  Scenario.settled Game.defect 1770790000000 "p" "u" Scenario.day1)).
  - vm_compute. eauto.
  - discriminate.
Defined.

(** A first vote, by contrast, is stored and counted. *)
Example handleVote_accepts_first_vote :
  let '(res, σ', trace) :=
    Redis.run (Main.handleVote (H := Reference.host) Scenario.K false Game.defect
                 1770790000000 "p" "u" "2026-02-11") Scenario.settled in
  res = Redis.Returned tt
  /\ Redis.data σ' !! "post:p:day:2026-02-11:defect" = Some "1"
  /\ Redis.data σ' !! "post:p:user:u:history"
     = Some (Reference.stringify
               (Json.JArr [Json.JObj [("day", Json.JStr "2026-02-11");
                                      ("choice", Json.JStr "defect")]]))
  /\ last trace = Some (Redis.UI Redis.ToastVoteSubmitted).
Proof. vm_compute. auto. Qed.

Lemma finalizeDailyResults_cached_results_witness :
  let '(res, σ', trace) :=
    Redis.run (Main.finalizeDailyResults (H := Reference.host) Scenario.K
                 "1770800000000-f" 1770800000000 "p" Scenario.day1) Scenario.settled in
  res = Redis.Returned tt
  /\ Redis.data σ' !! Scenario.resultsKey1 = Some Scenario.results1
  /\ trace =
       [Redis.SET_NX Scenario.finalizeLockKey1 "1770800000000-f" (Some 1770800030000);
        Redis.GET Scenario.finalizedKey1; Redis.GET Scenario.resultsKey1;
        Redis.SET Scenario.finalizedKey1 "true";
        Redis.GET Scenario.finalizeLockKey1; Redis.DEL Scenario.finalizeLockKey1].
Proof.
  pose proof (finalizeDailyResults_cached_results (H := Reference.host) Scenario.K
                (fun postId day => "post:" ++ postId ++ ":day:" ++ day ++ ":finalize-lock")%string
                Scenario.settled "1770800000000-f" 1770800000000 "p" Scenario.day1
                eq_refl ltac:(discriminate) ltac:(discriminate) ltac:(discriminate)
                eq_refl) as Hcached.
  destruct (Redis.run _ _) as [[res σ'] trace].
  destruct Hcached as (Hres & Hresults & Htrace & _).
  repeat split; assumption.
Defined.

(** On the table completed with a lock key, and a store where the
    outcome of the day is cached, the finalizer attempts the lock and
    writes to the store: the source places the cache check inside the
    lock. *)
Lemma finalizeDailyResults_cached_takes_lock :
  let '(res, σ', trace) :=
    Redis.run (Main.finalizeDailyResults (H := Reference.host) Scenario.K
                 "1770800000000-f" 1770800000000 "p" Scenario.day1) Scenario.settled in
  Main.falsy (Redis.data Scenario.settled !! Scenario.resultsKey1) = false
  /\ existsb Redis.acquires_lock trace = true
  /\ existsb Redis.is_write trace = true
  /\ Redis.data Scenario.settled !! Scenario.finalizedKey1 = None
  /\ Redis.data σ' !! Scenario.finalizedKey1 = Some "true".
Proof. vm_compute. auto. Qed.

(** ** The awarder's transaction *)

Section AwardTransaction.
Import Json Game Redis Keys Main.
Context `{Host}.

(** C5, as amended.  Once the awarder holds the lock and has read an
    unawarded vote, it places a WATCH on the vote and score keys and sends
    the score increment and the flagged vote in one EXEC.  The two are
    committed together if neither key was modified between the WATCH and
    the EXEC, and otherwise neither is applied.  In both cases what remains
    of the invocation is the same: it logs, releases the lock and returns.
    It does not look at the outcome of the EXEC and does not retry. *)
Theorem awardUnderLock_commits_or_gives_up
        (voteKey scoreKey lockKey lockId text : string) (vote : json) (n now : Z)
        (userId day : string) (σ : store) :
  data σ !! voteKey = Some text ->
  String.eqb text "" = false ->
  JSON_parse text = Some vote ->
  truthy_opt (prop vote "choice") = true ->
  truthy_opt (prop vote "pointsAwarded") = false ->
  let freshVote :=
    set_prop "pointsAwardedAt" (JNum now) (set_prop "pointsAwarded" (JBool true) vote) in
  let watched := [(voteKey, version_of σ voteKey); (scoreKey, version_of σ scoreKey)] in
  let release := releaseLock lockKey lockId "award" in
  let queued := [TX_INCRBY scoreKey n; TX_SET voteKey (JSON_stringify freshVote)] in
  let atWatch :=
    try_finally (applyAward voteKey scoreKey (Some (JNum n)) freshVote userId day)
      release in
  let atExec :=
    try_finally (await (EXEC watched queued);;
                 await (CONSOLE (AwardedPoints n userId day))) release in
  let afterExec :=
    try_finally (await (CONSOLE (AwardedPoints n userId day))) release in
  step_prog (awardUnderLock voteKey scoreKey lockKey lockId (Some (JNum n))
               now userId day) σ = (atWatch, σ)
  /\ step_prog atWatch σ = (atExec, σ)
  /\ (forall σ',
        step_prog atExec σ'
        = (afterExec,
           if unchanged_since watched σ'
           then write voteKey (JSON_stringify freshVote) None
                  (snd (incr_by scoreKey n σ'))
           else σ'))
  /\ (forall τ,
        run afterExec τ
        = let '(res, τ', trace) := run release τ in
          (res, τ', CONSOLE (AwardedPoints n userId day) :: trace)).
Proof.
  intros Hvote Htext Hparse Hchoice Hflag freshVote watched release queued
         atWatch atExec afterExec.
  split; [| split; [| split]].
  - unfold awardUnderLock, safeJSONParse. simpl.
    rewrite Hvote. unfold falsy, or_else. rewrite Htext, Hparse. simpl.
    rewrite Hchoice, Hflag. reflexivity.
  - reflexivity.
  - intros σ'. unfold atExec.
    cbn [step_prog try_finally mbind prog_bind bind await perform].
    destruct (unchanged_since watched σ'); reflexivity.
  - intros τ. unfold afterExec, release, releaseLock. simpl.
    destruct (bool_decide (data τ !! lockKey = Some lockId)); reflexivity.
Qed.

End AwardTransaction.

Lemma awardUnderLock_commits_or_gives_up_witness :
  Redis.step_prog
    (Main.awardUnderLock (H := Reference.host) Scenario.voteKey1 Scenario.scoreKey
       Scenario.awardLockKey1 "1770800000000-a" (Some (Json.JNum 3)) 1770800000000
       "u" Scenario.day1) Scenario.settled
  = (Redis.try_finally
       (Main.applyAward (H := Reference.host) Scenario.voteKey1 Scenario.scoreKey
          (Some (Json.JNum 3))
          (Json.set_prop "pointsAwardedAt" (Json.JNum 1770800000000)
             (Json.set_prop "pointsAwarded" (Json.JBool true)
                (Main.vote_document Game.cooperate 1770700000000 Scenario.day1)))
          "u" Scenario.day1)
       (Main.releaseLock Scenario.awardLockKey1 "1770800000000-a" "award"),
     Scenario.settled).
Proof.
  apply (awardUnderLock_commits_or_gives_up (H := Reference.host)
           Scenario.voteKey1 Scenario.scoreKey Scenario.awardLockKey1 "1770800000000-a"
           Scenario.vote1 (Main.vote_document Game.cooperate 1770700000000 Scenario.day1)
           3 1770800000000 "u" Scenario.day1 Scenario.settled);
    vm_compute; reflexivity.
Defined.

(** ** Interleaved award invocations *)

Section Interleavings.
Import Json Game Redis Keys Main Scenario.

(** One session after the other, on the completed table: the first
    credits the 3 points and flags the vote, the second finds the flag and
    returns. *)
Example award_twice_in_sequence :
  let '(threads, σ') := schedule sequential_schedule ([sessionA; sessionB], settled) in
  forallb finished threads = true
  /\ data σ' !! scoreKey = Some "3"
  /\ data σ' !! awardLockKey1 = None.
Proof. vm_compute. auto. Qed.

Example award_second_invocation_returns_early :
  let '(_, σ1, _) := run sessionA settled in
  let '(res, σ2, trace) := run sessionB σ1 in
  res = Returned tt /\ σ2 = σ1 /\ trace = [GET voteKey1].
Proof. vm_compute. auto. Qed.

(** C5, as stated, fails: session A loses its EXEC to session C, which
    credited another day to the same score in between.  Both invocations
    have returned; the score holds only the 5 points of session C, the
    vote of 2026-02-10 is still unflagged and its lock is released.
    Session A did not retry. *)
Lemma award_unapplied_after_conflict :
  let '(threads, σ') := schedule conflict_schedule ([sessionA; sessionC], two_days) in
  forallb finished threads = true
  /\ data σ' !! scoreKey = Some "5"
  /\ data σ' !! voteKey1 = data two_days !! voteKey1
  /\ data σ' !! awardLockKey1 = None.
Proof. vm_compute. auto. Qed.

(** Without the interleaving both days are credited. *)
Example award_two_days_in_sequence :
  let '(threads, σ') := schedule sequential_schedule ([sessionA; sessionC], two_days) in
  forallb finished threads = true /\ data σ' !! scoreKey = Some "8".
Proof. vm_compute. auto. Qed.

(** C1 does not hold of the code, in two ways.  With the key table as
    declared, an invocation on a store holding an unawarded vote and the
    settled outcome stops at [REDIS_KEYS.userScore]: the score is not
    credited and the vote is not flagged.  With the missing keys defined,
    two sessions of the same participant credit the same cycle twice when
    the first one's lock expires between its read of the vote and its
    WATCH: the score ends at 6 for a settled value of 3. *)
Theorem award_not_exactly_once :
  (let '(res, σ', trace) :=
     run (awardUserPoints (H := Reference.host) REDIS_KEYS
            "1770800000000-a" "1770800000000-fa" 1770800000000 "p" "u" day1) settled in
   res = Returned tt
   /\ σ' = settled
   /\ data σ' !! scoreKey = None
   /\ trace = [GET voteKey1; GET resultsKey1; CONSOLE (ErrorAwarding "u" day1)])
  /\ (let '(threads, σ') := schedule expiry_schedule ([sessionA; sessionB], settled) in
      forallb finished threads = true
      /\ data settled !! scoreKey = None
      /\ data σ' !! scoreKey = Some "6").
Proof. split; vm_compute; auto. Qed.

End Interleavings.

(** ** The members of [REDIS_KEYS] that the settlement code calls *)

Section MissingMembers.
Import Json Game Redis Keys Main.

(** C3 does not hold of the code.  [REDIS_KEYS] declares neither
    [dailyFinalizeLock] nor [userAwardLock] nor [userScore].  Every
    invocation of the finalizer therefore ends in its catch-all handler
    before any store command, whatever the store holds; no invocation of
    the awarder ever writes to the store; and a first vote is stored and
    counted but reported as failed, its stats never written. *)
Theorem REDIS_KEYS_lacks_lock_and_score_members :
  dailyFinalizeLock REDIS_KEYS = None
  /\ userAwardLock REDIS_KEYS = None
  /\ userScore REDIS_KEYS = None
  /\ (forall (H : Host) σ lockId now postId day,
        run (finalizeDailyResults REDIS_KEYS lockId now postId day) σ
        = (Returned tt, σ, [CONSOLE (ErrorFinalizing day)]))
  /\ (forall (H : Host) σ lockId finalizeLockId now postId userId day,
        let '(res, σ', trace) :=
          run (awardUserPoints REDIS_KEYS lockId finalizeLockId now postId userId day) σ in
        res = Returned tt /\ σ' = σ
        /\ forallb (fun c => negb (is_write c)) trace = true)
  /\ (let '(res, σ', trace) :=
        run (handleVote (H := Reference.host) REDIS_KEYS false defect
               1770790000000 "p" "u" "2026-02-11") Scenario.settled in
      data σ' !! "post:p:day:2026-02-11:defect" = Some "1"
      /\ data σ' !! "post:p:user:u:stats" = None
      /\ last trace = Some (UI ToastFailedToSubmit)).
Proof.
  split; [reflexivity |]. split; [reflexivity |]. split; [reflexivity |].
  split; [intros; reflexivity |]. split.
  - intros. apply awardUserPoints_declared_keys_inert.
  - vm_compute. auto.
Qed.

End MissingMembers.

(** * Further properties of the code *)

(** ** Auxiliary facts on strings and on lists of distinct keys *)

Lemma append_nil_r (s : string) : s ++ "" = s.
Proof.
  induction s as [| c s IH]; [reflexivity |].
  change (String c (s ++ "") = String c s). rewrite IH. reflexivity.
Qed.

Lemma append_assoc (a b c : string) : (a ++ b) ++ c = a ++ (b ++ c).
Proof.
  induction a as [| x a IH]; [reflexivity |].
  change (String x ((a ++ b) ++ c) = String x (a ++ (b ++ c))).
  rewrite IH. reflexivity.
Qed.

Lemma NoDup_4 {A} (a b c d : A) :
  NoDup [a; b; c; d] ->
  a <> b /\ a <> c /\ a <> d /\ b <> c /\ b <> d /\ c <> d.
Proof.
  intros Hnd.
  inversion_clear Hnd as [| ? ? Ha Hnd']. inversion_clear Hnd' as [| ? ? Hb Hnd''].
  inversion_clear Hnd'' as [| ? ? Hc _].
  repeat split; intros E; subst;
    solve [ apply Ha; rewrite !elem_of_cons; auto
          | apply Hb; rewrite !elem_of_cons; auto
          | apply Hc; rewrite !elem_of_cons; auto ].
Qed.

Lemma NoDup_5 {A} (a b c d e : A) :
  NoDup [a; b; c; d; e] ->
  a <> b /\ a <> c /\ a <> d /\ a <> e /\ b <> c /\ b <> d /\ b <> e
  /\ c <> d /\ c <> e /\ d <> e.
Proof.
  intros Hnd.
  inversion_clear Hnd as [| ? ? Ha Hnd1]. inversion_clear Hnd1 as [| ? ? Hb Hnd2].
  inversion_clear Hnd2 as [| ? ? Hc Hnd3]. inversion_clear Hnd3 as [| ? ? Hd _].
  repeat split; intros E; subst;
    solve [ apply Ha; rewrite !elem_of_cons; auto
          | apply Hb; rewrite !elem_of_cons; auto
          | apply Hc; rewrite !elem_of_cons; auto
          | apply Hd; rewrite !elem_of_cons; auto ].
Qed.

(** ** Streaks: bounds, the current day, the order of the history *)

Section StreakBounds.
Import Json Game Streaks.
Context `{Host}.

Lemma daysDiff_match {A} (d : option Z) (a b : A) :
  match d with Some 1 => a | _ => b end
  = if bool_decide (d = Some 1) then a else b.
Proof.
  destruct d as [[| [p | p |] |] |]; try reflexivity.
Qed.

(** One round of the second loop. *)
Lemma longestStreakLoop_cons (item : HistEntry) (rest : list HistEntry)
      (lastDate : option (option Z)) (longest temp : Z) :
  longestStreakLoop (item :: rest) lastDate longest temp
  = let currentDate := setUTCHours0 <$> getTime item in
    match lastDate with
    | None => longestStreakLoop rest (Some currentDate) longest 1
    | Some last =>
        if bool_decide (daysDiff last currentDate = Some 1)
        then longestStreakLoop rest (Some currentDate) longest (temp + 1)
        else longestStreakLoop rest (Some currentDate) (Z.max longest temp) 1
    end.
Proof.
  cbn [longestStreakLoop]. cbv zeta.
  destruct lastDate as [last |]; [| reflexivity].
  rewrite daysDiff_match. destruct (bool_decide _); reflexivity.
Qed.

Lemma currentStreakLoop_ge (today : Z) (l : list HistEntry) :
  forall i acc, acc <= currentStreakLoop today l i acc.
Proof.
  induction l as [| item l IH]; intros i acc; simpl; [lia |].
  destruct (getTime item) as [t |]; simpl; [| lia].
  destruct (_ =? _); [| lia].
  specialize (IH (i + 1) (acc + 1)). lia.
Qed.

Lemma longestStreakLoop_ge (l : list HistEntry) :
  forall lastDate longest temp,
  (lastDate = None -> temp <= 1) ->
  let '(L, T) := longestStreakLoop l lastDate longest temp in
  Z.max longest temp <= Z.max L T.
Proof.
  induction l as [| item l IH]; intros lastDate longest temp Hfirst.
  - simpl. lia.
  - rewrite longestStreakLoop_cons. cbv zeta.
    destruct lastDate as [last |].
    + destruct (bool_decide _).
      * specialize (IH (Some (setUTCHours0 <$> getTime item)) longest (temp + 1)
                       ltac:(discriminate)).
        destruct (longestStreakLoop l _ longest (temp + 1)) as [L T]. lia.
      * specialize (IH (Some (setUTCHours0 <$> getTime item)) (Z.max longest temp) 1
                       ltac:(discriminate)).
        destruct (longestStreakLoop l _ (Z.max longest temp) 1) as [L T]. lia.
    + specialize (Hfirst eq_refl).
      specialize (IH (Some (setUTCHours0 <$> getTime item)) longest 1
                     ltac:(discriminate)).
      destruct (longestStreakLoop l _ longest 1) as [L T]. lia.
Qed.

Lemma longestStreakLoop_le (l : list HistEntry) :
  forall lastDate longest temp,
  0 <= temp ->
  let '(L, T) := longestStreakLoop l lastDate longest temp in
  Z.max L T <= Z.max longest (temp + Z.of_nat (length l)).
Proof.
  induction l as [| item l IH]; intros lastDate longest temp Htemp.
  - simpl. lia.
  - rewrite longestStreakLoop_cons. cbv zeta. cbn [length].
    destruct lastDate as [last |].
    + destruct (bool_decide _).
      * specialize (IH (Some (setUTCHours0 <$> getTime item)) longest (temp + 1)
                       ltac:(lia)).
        destruct (longestStreakLoop l _ longest (temp + 1)) as [L T]. lia.
      * specialize (IH (Some (setUTCHours0 <$> getTime item)) (Z.max longest temp) 1
                       ltac:(lia)).
        destruct (longestStreakLoop l _ (Z.max longest temp) 1) as [L T]. lia.
    + specialize (IH (Some (setUTCHours0 <$> getTime item)) longest 1 ltac:(lia)).
      destruct (longestStreakLoop l _ longest 1) as [L T]. lia.
Qed.

(** While the first loop is still counting, the second loop counts along:
    the entries the first loop accepts are one day apart. *)
Lemma currentStreakLoop_le_longest (today : Z) (l : list HistEntry) :
  forall i acc lastDate longest temp,
  0 <= i -> acc <= temp ->
  lastDate = (if i =? 0 then None
              else Some (Some (today - (i - 1) * MS_PER_DAY))) ->
  (i = 0 -> temp <= 1 /\ acc <= 0) ->
  let '(L, T) := longestStreakLoop l lastDate longest temp in
  currentStreakLoop today l i acc <= Z.max L T.
Proof.
  induction l as [| item l IH];
    intros i acc lastDate longest temp Hi Hacc Hlast Hfirst.
  - simpl. lia.
  - cbn [currentStreakLoop]. cbv zeta.
    assert (Hstop :
      let '(L, T) := longestStreakLoop (item :: l) lastDate longest temp in
      acc <= Z.max L T).
    { pose proof (longestStreakLoop_ge (item :: l) lastDate longest temp) as Hge.
      destruct (longestStreakLoop (item :: l) lastDate longest temp) as [L T].
      assert (Z.max longest temp <= Z.max L T).
      { apply Hge. intros ->. destruct (Z.eqb_spec i 0); [apply Hfirst; auto | discriminate]. }
      lia. }
    destruct (getTime item) as [t |] eqn:Ht; cbn [fmap option_fmap option_map];
      [| exact Hstop].
    destruct (Z.eqb_spec (setUTCHours0 t) (today - i * MS_PER_DAY)) as [Hmatch | _];
      [| exact Hstop].
    clear Hstop. rewrite longestStreakLoop_cons. cbv zeta. rewrite Ht.
    cbn [fmap option_fmap option_map].
    assert (Hnext : Some (Some (setUTCHours0 t))
                    = if i + 1 =? 0 then None
                      else Some (Some (today - (i + 1 - 1) * MS_PER_DAY))).
    { destruct (Z.eqb_spec (i + 1) 0) as [E | _]; [lia |].
      rewrite Hmatch. replace (i + 1 - 1) with i by lia. reflexivity. }
    destruct (Z.eqb_spec i 0) as [-> | Hi0]; subst lastDate.
    + apply (IH 1 (acc + 1) _ longest 1); [lia | | exact Hnext | lia].
      destruct (Hfirst eq_refl). lia.
    + assert (Hdiff :
        daysDiff (Some (today - (i - 1) * MS_PER_DAY)) (Some (setUTCHours0 t))
        = Some 1).
      { unfold daysDiff. rewrite Hmatch. f_equal.
        replace (today - (i - 1) * MS_PER_DAY - (today - i * MS_PER_DAY))
          with (1 * MS_PER_DAY) by ring.
        apply Z.div_mul. discriminate. }
      rewrite Hdiff. rewrite bool_decide_eq_true_2 by reflexivity.
      apply (IH (i + 1) (acc + 1) _ longest (temp + 1)); [lia | lia | exact Hnext | lia].
Qed.

(** For every history, clock and host: the current streak is never
    negative and never above the longest streak, and the longest streak is
    never above the number of entries. *)
Theorem calculateStreak_current_le_longest (now : Z) (h : list HistEntry) :
  0 <= currentStreak (calculateStreak now h)
       <= longestStreak (calculateStreak now h)
  /\ longestStreak (calculateStreak now h) <= Z.of_nat (length h).
Proof.
  unfold calculateStreak. destruct h as [| x h']; [simpl; lia |].
  set (h := x :: h'). cbv zeta.
  pose proof (currentStreakLoop_ge (setUTCHours0 now) (sort h) 0 0) as Hnonneg.
  pose proof (currentStreakLoop_le_longest (setUTCHours0 now) (sort h) 0 0 None 0 0
                ltac:(lia) ltac:(lia) eq_refl ltac:(lia)) as Hle.
  pose proof (longestStreakLoop_le (sort h) None 0 0 ltac:(lia)) as Hlen.
  destruct (longestStreakLoop (sort h) None 0 0) as [L T]. cbn [currentStreak longestStreak].
  rewrite (Permutation_length (sort_perm h)) in Hlen. lia.
Qed.

Lemma same_day (t now : Z) :
  setUTCHours0 t = setUTCHours0 now <-> t / MS_PER_DAY = now / MS_PER_DAY.
Proof.
  unfold setUTCHours0. pose proof (Z.div_mod t MS_PER_DAY ltac:(discriminate)).
  pose proof (Z.div_mod now MS_PER_DAY ltac:(discriminate)).
  assert (MS_PER_DAY = 86400000) as E by reflexivity. rewrite E in *. lia.
Qed.

Lemma sort_nonempty (x : HistEntry) (h : list HistEntry) :
  exists y l, sort (x :: h) = y :: l.
Proof.
  destruct (sort (x :: h)) as [| y l] eqn:E; [| eauto].
  pose proof (sort_perm (x :: h)) as Hperm. rewrite E in Hperm.
  apply Permutation_nil_l in Hperm. discriminate.
Qed.

(** When no entry of the history is dated today, the current streak is 0,
    whatever the earlier days are: the count starts at today. *)
Theorem calculateStreak_no_entry_today (now : Z) (h : list HistEntry) :
  (forall e, e ∈ h -> ~ on_day e (now / MS_PER_DAY)) ->
  currentStreak (calculateStreak now h) = 0.
Proof.
  intros Hnone. destruct h as [| x h']; [reflexivity |].
  unfold calculateStreak. cbv zeta.
  destruct (sort_nonempty x h') as (y & l & Hsort). rewrite Hsort.
  destruct (longestStreakLoop (y :: l) None 0 0) as [L T]. cbn [currentStreak].
  assert (Hy : y ∈ x :: h').
  { rewrite <- (sort_perm (x :: h')), Hsort. left. }
  cbn [currentStreakLoop]. cbv zeta.
  destruct (getTime y) as [t |] eqn:Ht; cbn [fmap option_fmap option_map];
    [| reflexivity].
  destruct (Z.eqb_spec (setUTCHours0 t) (setUTCHours0 now - 0 * MS_PER_DAY))
    as [Hmatch | _]; [| reflexivity].
  exfalso. apply (Hnone y Hy). unfold on_day, dayNumber. rewrite Ht. simpl.
  f_equal. apply same_day. lia.
Qed.

(** The first loop counts today when the sorted history holds an entry
    of today and none of a later day. *)
Lemma currentStreakLoop_today (now : Z) (l : list HistEntry) (e : HistEntry) :
  StronglySorted not_before l ->
  Forall (fun x => exists d, on_day x d /\ d <= now / MS_PER_DAY) l ->
  e ∈ l -> on_day e (now / MS_PER_DAY) ->
  1 <= currentStreakLoop (setUTCHours0 now) l 0 0.
Proof.
  intros Hsorted Hpast He Htoday. destruct l as [| y l]; [inversion He |].
  rewrite Forall_forall in Hpast.
  destruct (Hpast y ltac:(left)) as (dy & Hdy & Hle).
  apply on_day_time in Hdy as (ty & Hty & <-).
  apply on_day_time in Htoday as (te & Hte & Hde).
  assert (Hge : te <= ty).
  { apply elem_of_cons in He as [-> | Hin].
    - rewrite Hty in Hte. injection Hte as ->. lia.
    - apply StronglySorted_inv in Hsorted as [_ Hall].
      rewrite Forall_forall in Hall.
      destruct (Hall e Hin) as (ta & tb & Ha & Hb & Hab).
      rewrite Hty in Ha. rewrite Hte in Hb. injection Ha as <-. injection Hb as <-.
      exact Hab. }
  assert (Hday : ty / MS_PER_DAY = now / MS_PER_DAY).
  { pose proof (Z.div_le_mono te ty MS_PER_DAY MS_PER_DAY_pos Hge). lia. }
  cbn [currentStreakLoop]. cbv zeta. rewrite Hty.
  cbn [fmap option_fmap option_map].
  replace (setUTCHours0 now - 0 * MS_PER_DAY) with (setUTCHours0 now) by ring.
  rewrite (proj2 (Z.eqb_eq _ _) (proj2 (same_day ty now) Hday)).
  apply (currentStreakLoop_ge (setUTCHours0 now) l (0 + 1) (0 + 1)).
Qed.

Lemma dated_is_valid (now : Z) (h : list HistEntry) :
  Forall (fun x => exists d, on_day x d /\ d <= now / MS_PER_DAY) h ->
  Forall (fun y => is_Some (getTime y)) h.
Proof.
  intros Hpast. eapply Forall_impl; [exact Hpast |]. intros z (d & Hd & _).
  apply on_day_time in Hd as (t & -> & _). eauto.
Qed.

(** When every entry has a valid date that is not after today and one
    entry is dated today, the current streak is at least 1. *)
Theorem calculateStreak_voted_today (now : Z) (h : list HistEntry) (e : HistEntry) :
  Forall (fun x => exists d, on_day x d /\ d <= now / MS_PER_DAY) h ->
  e ∈ h -> on_day e (now / MS_PER_DAY) ->
  1 <= currentStreak (calculateStreak now h).
Proof.
  intros Hpast He Htoday. destruct h as [| x h']; [inversion He |].
  pose proof (sort_sorted (x :: h') (dated_is_valid now _ Hpast)) as Hsorted.
  pose proof (sort_perm (x :: h')) as Hperm.
  unfold calculateStreak. cbv zeta.
  destruct (longestStreakLoop (sort (x :: h')) None 0 0) as [L T]. cbn [currentStreak].
  apply (currentStreakLoop_today now (sort (x :: h')) e Hsorted).
  - rewrite Hperm. exact Hpast.
  - rewrite Hperm. exact He.
  - exact Htoday.
Qed.

(** A list sorted by an antisymmetric relation is determined by its
    elements. *)
Lemma sorted_perm_unique {A} (R : A -> A -> Prop) :
  (forall a b, R a b -> R b a -> a = b) ->
  forall l1 l2 : list A,
  StronglySorted R l1 -> StronglySorted R l2 -> l1 ≡ₚ l2 -> l1 = l2.
Proof.
  intros Hanti l1 l2 Hs1. revert l2.
  induction Hs1 as [| a l1 Hs1 IH Ha]; intros l2 Hs2 Hperm.
  - apply Permutation_nil_l in Hperm. congruence.
  - destruct Hs2 as [| b l2 Hs2 Hb].
    + apply Permutation_nil_r in Hperm. discriminate.
    + assert (a = b) as ->.
      { assert (Hin : a ∈ b :: l2) by (rewrite <- Hperm; left).
        apply elem_of_cons in Hin as [-> | Hin]; [reflexivity |].
        assert (Hin' : b ∈ a :: l1) by (rewrite Hperm; left).
        apply elem_of_cons in Hin' as [-> | Hin']; [reflexivity |].
        rewrite Forall_forall in Ha, Hb. apply Hanti; auto. }
      f_equal. apply IH; [assumption |].
      eapply Permutation_cons_inv; eassumption.
Qed.

Lemma sorted_fmap {A B} (f : A -> B) (R : B -> B -> Prop) (l : list A) :
  StronglySorted (fun a b => R (f a) (f b)) l -> StronglySorted R (f <$> l).
Proof.
  induction 1 as [| a l Hs IH Ha]; simpl; constructor; [assumption |].
  apply Forall_fmap. exact Ha.
Qed.

(** The two loops look at the entries through their dates only. *)
Lemma currentStreakLoop_ext (today : Z) (l : list HistEntry) :
  forall l' i acc, getTime <$> l = getTime <$> l' ->
  currentStreakLoop today l i acc = currentStreakLoop today l' i acc.
Proof.
  induction l as [| a l IH]; intros [| b l'] i acc E; try discriminate E;
    [reflexivity |].
  simpl in E. injection E as Ea El. simpl. rewrite Ea.
  destruct (getTime b); simpl; [| reflexivity].
  destruct (_ =? _); [apply IH; exact El | reflexivity].
Qed.

Lemma longestStreakLoop_ext (l : list HistEntry) :
  forall l' lastDate longest temp, getTime <$> l = getTime <$> l' ->
  longestStreakLoop l lastDate longest temp
  = longestStreakLoop l' lastDate longest temp.
Proof.
  induction l as [| a l IH]; intros [| b l'] lastDate longest temp E;
    try discriminate E; [reflexivity |].
  simpl in E. injection E as Ea El.
  rewrite !longestStreakLoop_cons. cbv zeta. rewrite Ea.
  destruct lastDate as [last |]; [destruct (bool_decide _) |]; apply IH; exact El.
Qed.

(** When every day of the history parses, the streaks do not depend on
    the order in which the entries are stored, repeated days included. *)
Theorem calculateStreak_order_independent (now : Z) (h h' : list HistEntry) :
  Forall (fun e => is_Some (getTime e)) h -> h ≡ₚ h' ->
  calculateStreak now h = calculateStreak now h'.
Proof.
  intros Hvalid Hperm.
  assert (Hvalid' : Forall (fun e => is_Some (getTime e)) h')
    by (rewrite <- Hperm; exact Hvalid).
  assert (Htimes : getTime <$> sort h = getTime <$> sort h').
  { apply (sorted_perm_unique
             (fun a b => exists ta tb, a = Some ta /\ b = Some tb /\ tb <= ta)).
    - intros a b (ta & tb & -> & -> & Hle) (tb' & ta' & [= <-] & [= <-] & Hge).
      f_equal. lia.
    - apply sorted_fmap. apply (sort_sorted h Hvalid).
    - apply sorted_fmap. apply (sort_sorted h' Hvalid').
    - apply fmap_Permutation. rewrite !sort_perm. exact Hperm. }
  unfold calculateStreak.
  destruct h as [| x h0], h' as [| x' h0'].
  - reflexivity.
  - apply Permutation_nil_l in Hperm. discriminate.
  - apply Permutation_nil_r in Hperm. discriminate.
  - cbv zeta.
    rewrite (currentStreakLoop_ext _ _ _ 0 0 Htimes).
    rewrite (longestStreakLoop_ext _ _ None 0 0 Htimes). reflexivity.
Qed.

End StreakBounds.

Lemma calculateStreak_no_entry_today_witness :
  Streaks.currentStreak
    (Streaks.calculateStreak (H := Reference.host) 1770811200000
       [ {| Streaks.day := "2026-02-09"; Streaks.choice := Game.cooperate |};
         {| Streaks.day := "2026-02-10"; Streaks.choice := Game.defect |} ]) = 0.
Proof.
  apply (calculateStreak_no_entry_today (H := Reference.host)).
  intros e He. apply elem_of_cons in He as [-> | He]; [vm_compute; discriminate |].
  apply elem_of_cons in He as [-> | He]; [vm_compute; discriminate |].
  inversion He.
Defined.

Lemma calculateStreak_voted_today_witness :
  1 <= Streaks.currentStreak
         (Streaks.calculateStreak (H := Reference.host) 1770811200000
            [ {| Streaks.day := "2026-02-08"; Streaks.choice := Game.cooperate |};
              {| Streaks.day := "2026-02-11"; Streaks.choice := Game.defect |} ]).
Proof.
  apply (calculateStreak_voted_today (H := Reference.host) 1770811200000 _
           {| Streaks.day := "2026-02-11"; Streaks.choice := Game.defect |}).
  - repeat constructor.
    + exists 20492. split; [reflexivity | vm_compute; discriminate].
    + exists 20495. split; [reflexivity | vm_compute; discriminate].
  - right. left.
  - reflexivity.
Defined.

Lemma calculateStreak_order_independent_witness :
  Streaks.calculateStreak (H := Reference.host) 1770811200000
    [ {| Streaks.day := "2026-02-10"; Streaks.choice := Game.cooperate |};
      {| Streaks.day := "2026-02-11"; Streaks.choice := Game.defect |};
      {| Streaks.day := "2026-02-10"; Streaks.choice := Game.defect |} ]
  = Streaks.calculateStreak (H := Reference.host) 1770811200000
      [ {| Streaks.day := "2026-02-11"; Streaks.choice := Game.defect |};
        {| Streaks.day := "2026-02-10"; Streaks.choice := Game.cooperate |};
        {| Streaks.day := "2026-02-10"; Streaks.choice := Game.defect |} ].
Proof.
  apply (calculateStreak_order_independent (H := Reference.host)).
  - repeat constructor; vm_compute; eauto.
  - apply Permutation_swap.
Defined.

(** ** The stored history after an update *)

Section HistoryNormalised.
Import Json Game Streaks.
Context `{Host}.

Lemma well_shaped_object (e : json) :
  well_shaped e = true -> exists members, e = JObj members.
Proof.
  destruct e; unfold well_shaped; simpl; try discriminate;
    rewrite ?andb_false_r; try discriminate.
  eauto.
Qed.

(** What the normaliser keeps is an object that it keeps unchanged when
    it sees it again. *)
Lemma normalizeHistoryEntry_fixed (e o : json) :
  normalizeHistoryEntry e = Some o ->
  normalizeHistoryEntry o = Some o /\ well_shaped o = true.
Proof.
  intros Hkept. apply normalizeHistoryEntry_kept in Hkept.
  assert (Hobj : forall x, well_shaped x = true ->
                 normalizeHistoryEntry x = Some x /\ well_shaped x = true).
  { intros x Hx. split; [| exact Hx].
    destruct (well_shaped_object x Hx) as [m ->]. simpl. rewrite Hx. reflexivity. }
  destruct e as [| b | z | x | s | items | members];
    try (destruct Hkept as [Hw ->]; apply Hobj; exact Hw).
  destruct Hkept as [(parsed & d & c & _ & Hw & Hd & Hc & ->) | [_ ->]].
  - apply Hobj. unfold well_shaped in *. rewrite Hd, Hc in Hw.
    apply andb_prop in Hw as [Hw Hchoice]. apply andb_prop in Hw as [_ Hday].
    change (prop (JObj [("day", d); ("choice", c)]) "day") with (Some d).
    change (prop (JObj [("day", d); ("choice", c)]) "choice") with (Some c).
    rewrite Hday, Hchoice. reflexivity.
  - apply Hobj. reflexivity.
Qed.

Lemma omap_normalised (l : list json) :
  Forall (fun e => normalizeHistoryEntry e = Some e) l ->
  omap normalizeHistoryEntry l = l.
Proof.
  induction 1 as [| e l He _ IH]; [reflexivity |].
  cbn [omap list_omap]. rewrite He, IH. reflexivity.
Qed.

Lemma omap_normalizeHistoryEntry_fixed (l : list json) :
  Forall (fun o => normalizeHistoryEntry o = Some o /\ well_shaped o = true)
         (omap normalizeHistoryEntry l).
Proof.
  induction l as [| e l IH]; [constructor |].
  cbn [omap list_omap]. destruct (normalizeHistoryEntry e) as [o |] eqn:He;
    [| exact IH].
  constructor; [| exact IH]. apply (normalizeHistoryEntry_fixed e o He).
Qed.

(** The history that [updateUserStats] returns holds objects only, each
    with a string day and a choice that is ['cooperate'], ['defect'] or
    [null]: legacy strings have been replaced or dropped.  Normalising it
    again changes nothing, so the next update keeps every entry and adds
    its own vote at the end. *)
Theorem updateUserStats_history_normalised
        (now : Z) (cs : UserStats) (v : HistEntry) (points : Z) :
  let updated := updateUserStats now cs v points in
  Forall (fun e => (exists members, e = JObj members)
                   /\ is_string (prop e "day") = true
                   /\ (is_null (prop e "choice") || isValidChoice (prop e "choice")) = true)
         (history updated)
  /\ omap normalizeHistoryEntry (history updated) = history updated
  /\ forall now' v' points',
       history (updateUserStats now' updated v' points')
       = (history updated ++ [entry_to_json v'])%list.
Proof.
  intros updated.
  assert (Hfixed : Forall (fun o => normalizeHistoryEntry o = Some o
                                    /\ well_shaped o = true) (history updated)).
  { unfold updated, updateUserStats. cbn [history].
    apply omap_normalizeHistoryEntry_fixed. }
  assert (Hsame : omap normalizeHistoryEntry (history updated) = history updated).
  { apply omap_normalised. eapply Forall_impl; [exact Hfixed |]. intros e [He _]. exact He. }
  split; [| split].
  - eapply Forall_impl; [exact Hfixed |]. intros e [_ Hw].
    split; [apply well_shaped_object; exact Hw |].
    unfold well_shaped in Hw.
    apply andb_prop in Hw as [Hw Hchoice]. apply andb_prop in Hw as [_ Hday]. auto.
  - exact Hsame.
  - intros now' v' points'.
    change (history (updateUserStats now' updated v' points'))
      with (omap normalizeHistoryEntry (history updated ++ [entry_to_json v'])%list).
    rewrite omap_app, Hsame. cbn [omap list_omap].
    rewrite normalize_new_entry. reflexivity.
Qed.

End HistoryNormalised.

(** ** The payoffs *)

Section Payoffs.
Import JSNumber Binary64 Config Game.

(** Whatever the counts, a defector never receives fewer points than a
    cooperator on the same day, the two receive different points only in
    the mixed outcome, and no payoff is negative or above 5. *)
Theorem calculateResults_defectors_never_behind (c d : number) :
  let r := calculateResults c d in
  0 <= pointsForCooperators r <= pointsForDefectors r
  /\ pointsForDefectors r <= 5
  /\ (pointsForCooperators r <> pointsForDefectors r -> outcome r = mixed).
Proof.
  unfold calculateResults. cbv zeta.
  destruct (strict_eq _ _); [simpl; repeat split; (lia || auto) |].
  destruct (ge _ _); [simpl; repeat split; (lia || congruence) |].
  destruct (ge _ _); simpl; repeat split; (lia || congruence).
Qed.

(** On counts the result is the one of the rule in exact arithmetic. *)
Lemma calculateResults_exact (c d : Z) :
  0 <= c -> 0 <= d -> 0 < c + d -> 9 * (c + d) < 2 ^ 53 ->
  calculateResults (of_Z c) (of_Z d)
  = if 70 * (c + d) <=? 100 * c then AllCooperate
    else if 70 * (c + d) <=? 100 * d then AllDefect
    else Mixed.
Proof.
  intros Hc Hd Hpos Hbound.
  assert (Hsafe : c + d < 2 ^ 53) by lia.
  rewrite calculateResults_cases
    by (rewrite add_counts by assumption; apply count_positive; lia).
  unfold cooperatePercent, defectPercent. rewrite add_counts by assumption.
  rewrite !percent_agrees by lia. rewrite !exactPercent_ge_70 by lia.
  reflexivity.
Qed.

(** The two thresholds cannot both be reached, so the order of the two
    tests does not matter, and the rule treats the two sides alike:
    exchanging the counts exchanges all-cooperate and all-defect and keeps
    mixed.  For counts whose total, times nine, is below [2 ^ 53]. *)
Theorem calculateResults_symmetric (c d : Z) :
  0 <= c -> 0 <= d -> 0 < c + d -> 9 * (c + d) < 2 ^ 53 ->
  let r := calculateResults (of_Z c) (of_Z d) in
  let r' := calculateResults (of_Z d) (of_Z c) in
  (ge (cooperatePercent (of_Z c) (of_Z d)) (of_Z 70) = true ->
   ge (defectPercent (of_Z c) (of_Z d)) (of_Z 70) = false)
  /\ (outcome r = all_cooperate <-> outcome r' = all_defect)
  /\ (outcome r = all_defect <-> outcome r' = all_cooperate)
  /\ (outcome r = mixed <-> outcome r' = mixed).
Proof.
  intros Hc Hd Hpos Hbound r r'.
  assert (Hsafe : c + d < 2 ^ 53) by lia.
  split.
  - unfold cooperatePercent, defectPercent. rewrite add_counts by assumption.
    rewrite !percent_agrees by lia. rewrite !exactPercent_ge_70 by lia.
    intros Hco%Z.leb_le. apply Z.leb_gt. lia.
  - unfold r, r'.
    rewrite (calculateResults_exact c d) by assumption.
    rewrite (calculateResults_exact d c) by lia.
    replace (d + c) with (c + d) by lia.
    destruct (Z.leb_spec (70 * (c + d)) (100 * c)),
             (Z.leb_spec (70 * (c + d)) (100 * d)); try lia;
      simpl; repeat split; intros; (congruence || reflexivity).
Qed.

End Payoffs.

Lemma calculateResults_symmetric_witness :
  Game.outcome (Game.calculateResults (JSNumber.of_Z 7) (JSNumber.of_Z 3)) = Game.all_cooperate
  <-> Game.outcome (Game.calculateResults (JSNumber.of_Z 3) (JSNumber.of_Z 7)) = Game.all_defect.
Proof.
  apply (calculateResults_symmetric 7 3); lia.
Defined.

(** ** The share grid *)

Section ShareGridRows.
Import Config Game Streaks ShareGrid.

Lemma join_app (a b : list string) : join (a ++ b) = join a ++ join b.
Proof.
  induction a as [| x a IH]; simpl; [reflexivity |].
  rewrite IH, append_assoc. reflexivity.
Qed.

Lemma forEachItem_app (a b : list HistEntry) :
  forall index grid row,
  forEachItem (a ++ b) index grid row
  = let '(g, r) := forEachItem a index grid row in
    forEachItem b (index + Z.of_nat (length a)) g r.
Proof.
  induction a as [| x a IH]; intros index grid row.
  - simpl. rewrite Z.add_0_r. reflexivity.
  - cbn [app forEachItem length]. cbv zeta.
    replace (index + Z.of_nat (S (length a)))
      with (index + 1 + Z.of_nat (length a)) by lia.
    destruct (_ =? 0); apply IH.
Qed.

(** Items that do not complete the row are appended to it. *)
Lemma forEachItem_within_row (items : list HistEntry) :
  forall index grid row,
  0 <= index ->
  index mod 10 + Z.of_nat (length items) < 10 ->
  forEachItem items index grid row = (grid, row ++ join (emojis items)).
Proof.
  induction items as [| x items IH]; intros index grid row Hi Hroom.
  - simpl. rewrite append_nil_r. reflexivity.
  - cbn [forEachItem length] in *. cbv zeta.
    change (SHARE_GRID_ROW_LENGTH GAME_CONFIG) with 10.
    pose proof (Z.mod_pos_bound index 10 ltac:(lia)) as Hm.
    pose proof (Z.div_mod index 10 ltac:(lia)) as Hd.
    assert (Hnext : (index + 1) mod 10 = index mod 10 + 1).
    { symmetry. apply (Z.mod_unique_pos _ _ (index / 10)); lia. }
    rewrite Hnext. rewrite (proj2 (Z.eqb_neq _ _)) by lia.
    rewrite IH by lia.
    unfold emojis. cbn [fmap list_fmap join]. rewrite append_assoc. reflexivity.
Qed.

(** Items that complete the row flush it into the grid. *)
Lemma forEachItem_complete_row (items : list HistEntry) :
  forall index grid row,
  0 <= index -> items <> [] ->
  index mod 10 + Z.of_nat (length items) = 10 ->
  forEachItem items index grid row
  = (grid ++ ((row ++ join (emojis items)) ++ newline), "").
Proof.
  intros index grid row Hi Hne Hfull.
  destruct (exists_last Hne) as (front & x & ->).
  rewrite length_app in Hfull. cbn [length] in Hfull.
  rewrite forEachItem_app.
  rewrite forEachItem_within_row by lia.
  cbn [forEachItem]. cbv zeta.
  change (SHARE_GRID_ROW_LENGTH GAME_CONFIG) with 10.
  pose proof (Z.div_mod index 10 ltac:(lia)) as Hd.
  assert (Hzero : (index + Z.of_nat (length front) + 1) mod 10 = 0).
  { symmetry. apply (Z.mod_unique_pos _ _ (index / 10 + 1)); lia. }
  rewrite Hzero. cbn [Z.eqb].
  unfold emojis. rewrite fmap_app, join_app. cbn [fmap list_fmap join].
  rewrite append_nil_r, !append_assoc. reflexivity.
Qed.

Lemma emoji_nonempty (c : Choice) (rest : string) :
  String.eqb (getEmojiForChoice c ++ rest) "" = false.
Proof. destruct c; reflexivity. Qed.

Lemma line_cons (x : HistEntry) (items : list HistEntry) :
  line (emojis (x :: items)) = join (emojis (x :: items)) ++ newline.
Proof. reflexivity. Qed.

Lemma row_nonempty (x : HistEntry) (items : list HistEntry) :
  String.eqb ("" ++ join (emojis (x :: items))) "" = false.
Proof. unfold emojis. cbn [fmap list_fmap join append]. apply emoji_nonempty. Qed.

Ltac row_index :=
  try assumption;
  rewrite ?length_take;
  try change (0 mod 10) with 0;
  try change ((0 + Z.of_nat 10) mod 10) with 0;
  try change ((0 + Z.of_nat 10 + Z.of_nat 10) mod 10) with 0;
  lia.

(** The grid of at most thirty items: up to three rows of ten. *)
Lemma grid_rows (recent : list HistEntry) :
  (length recent <= 30)%nat ->
  (let '(grid, row) := forEachItem recent 0 header "" in
   if negb (String.eqb row "") then grid ++ (row ++ newline) else grid)
  = header ++ line (emojis (take 10 recent))
           ++ line (emojis (take 10 (drop 10 recent)))
           ++ line (emojis (drop 20 recent)).
Proof.
  intros Hlen.
  destruct (le_lt_dec 10 (length recent)) as [H10 | H10].
  2:{ (* fewer than ten items: one open row *)
    rewrite forEachItem_within_row by row_index.
    rewrite take_ge by lia. rewrite !drop_ge by lia.
    change (emojis (take 10 [])) with (@nil string).
    change (emojis []) with (@nil string). cbn [line].
    rewrite !append_nil_r.
    destruct recent as [| x items]; [reflexivity |].
    rewrite row_nonempty. cbn [negb]. rewrite line_cons. reflexivity. }
  rewrite <- (take_drop 10 recent) at 1.
  rewrite forEachItem_app.
  assert (Hrow1 : take 10 recent <> []) by (destruct recent; [simpl in H10; lia | discriminate]).
  rewrite forEachItem_complete_row
    by row_index.
  rewrite length_take, Nat.min_l by lia.
  assert (Hline1 : ("" ++ join (emojis (take 10 recent))) ++ newline
                   = line (emojis (take 10 recent))).
  { destruct (take 10 recent); [contradiction | reflexivity]. }
  rewrite Hline1.
  set (rest := drop 10 recent).
  assert (Hrest : (length rest <= 20)%nat) by (unfold rest; rewrite length_drop; lia).
  replace (drop 20 recent) with (drop 10 rest)
    by (unfold rest; rewrite drop_drop; reflexivity).
  destruct (le_lt_dec 10 (length rest)) as [H20 | H20].
  2:{ rewrite forEachItem_within_row by row_index.
    rewrite (take_ge rest) by lia. rewrite (drop_ge rest) by lia.
    change (emojis []) with (@nil string). cbn [line]. rewrite append_nil_r.
    destruct rest as [| x items].
    - rewrite ?append_nil_r. reflexivity.
    - rewrite row_nonempty. cbn [negb]. rewrite line_cons, append_assoc. reflexivity. }
  rewrite <- (take_drop 10 rest) at 1.
  rewrite forEachItem_app.
  assert (Hrow2 : take 10 rest <> []) by (destruct rest; [simpl in H20; lia | discriminate]).
  rewrite forEachItem_complete_row
    by row_index.
  rewrite length_take, Nat.min_l by lia.
  assert (Hline2 : ("" ++ join (emojis (take 10 rest))) ++ newline
                   = line (emojis (take 10 rest))).
  { destruct (take 10 rest); [contradiction | reflexivity]. }
  rewrite Hline2.
  set (tail := drop 10 rest).
  assert (Htail : (length tail <= 10)%nat) by (unfold tail; rewrite length_drop; lia).
  destruct (le_lt_dec 10 (length tail)) as [H30 | H30].
  - assert (Hrow3 : tail <> []) by (destruct tail; [simpl in H30; lia | discriminate]).
    rewrite forEachItem_complete_row by row_index.
    cbn [String.eqb negb].
    destruct tail as [| x items]; [contradiction |].
    rewrite line_cons, !append_assoc. reflexivity.
  - rewrite forEachItem_within_row by row_index.
    destruct tail as [| x items].
    + rewrite ?append_nil_r. reflexivity.
    + rewrite row_nonempty. cbn [negb]. rewrite line_cons, !append_assoc. reflexivity.
Qed.

Lemma slice_last_length {A} (n : Z) (items : list A) :
  0 < n -> Z.of_nat (length (slice_last n items)) = Z.min n (Z.of_nat (length items)).
Proof.
  intros Hn. unfold slice_last. rewrite (proj2 (Z.leb_gt _ _)) by lia.
  rewrite length_drop. lia.
Qed.

Lemma slice_last_short {A} (n : Z) (items : list A) :
  Z.of_nat (length items) <= n -> slice_last n items = items.
Proof.
  intros Hlen. unfold slice_last. destruct (n <=? 0); [reflexivity |].
  replace (Z.to_nat _) with 0%nat by lia. reflexivity.
Qed.

Lemma slice_last_app {A} (n : Z) (older recent : list A) :
  0 < n -> Z.of_nat (length recent) = n -> slice_last n (older ++ recent) = recent.
Proof.
  intros Hn Hlen. unfold slice_last. rewrite (proj2 (Z.leb_gt _ _)) by lia.
  rewrite length_app.
  replace (Z.to_nat _) with (length older) by lia.
  apply drop_app_length.
Qed.

(** The grid is the header followed by the emojis of the last thirty
    entries in rows of ten, each row closed by a newline; there is no
    empty row, and entries before the last thirty do not appear. *)
Theorem generateShareGrid_rows (history : list HistEntry) :
  let recent := slice_last 30 history in
  (length recent <= 30)%nat
  /\ generateShareGrid history
     = header ++ line (emojis (take 10 recent))
              ++ line (emojis (take 10 (drop 10 recent)))
              ++ line (emojis (drop 20 recent)).
Proof.
  intros recent.
  assert (Hlen : (length recent <= 30)%nat).
  { pose proof (slice_last_length 30 history ltac:(lia)). fold recent in H. lia. }
  split; [exact Hlen |].
  unfold generateShareGrid. change (MAX_SHARE_GRID_DAYS GAME_CONFIG) with 30.
  cbv zeta. fold recent. apply grid_rows. exact Hlen.
Qed.

(** Entries older than the last thirty have no effect on the grid, and
    cutting the history to its last thirty entries before the call, as the
    history view does, changes nothing. *)
Theorem generateShareGrid_last_thirty (older recent history : list HistEntry) :
  length recent = 30%nat ->
  generateShareGrid (older ++ recent) = generateShareGrid recent
  /\ generateShareGrid (slice_last 30 history) = generateShareGrid history.
Proof.
  intros Hlen. unfold generateShareGrid.
  change (MAX_SHARE_GRID_DAYS GAME_CONFIG) with 30. cbv zeta. split.
  - rewrite slice_last_app by lia. rewrite slice_last_short by lia. reflexivity.
  - rewrite (slice_last_short 30 (slice_last 30 history)); [reflexivity |].
    rewrite slice_last_length by lia. lia.
Qed.

Lemma forEachItem_grid_prefix (items : list HistEntry) :
  forall index grid row,
  exists more, fst (forEachItem items index grid row) = grid ++ more.
Proof.
  induction items as [| x items IH]; intros index grid row.
  - exists "". simpl. rewrite append_nil_r. reflexivity.
  - cbn [forEachItem]. cbv zeta. destruct (_ =? 0).
    + destruct (IH (index + 1) (grid ++ ((row ++ getEmojiForChoice (choice x)) ++ newline)) "")
        as [more ->].
      eexists. rewrite append_assoc. reflexivity.
    + apply IH.
Qed.

(** The toast of the Copy button never shows a vote: for every history it
    is the same text, the fixed first line of the grid. *)
Theorem copyToast_shows_header_only (parsedHistory : list HistEntry) :
  parsedHistory <> [] ->
  copyToast parsedHistory = Some "Share your streak: DilemmaForge Streak:".
Proof.
  intros Hne. unfold copyToast.
  destruct parsedHistory as [| x items]; [contradiction |]. cbn [length Nat.ltb Nat.leb].
  f_equal. f_equal.
  unfold generateShareGrid. cbv zeta.
  destruct (forEachItem_grid_prefix
              (slice_last (MAX_SHARE_GRID_DAYS GAME_CONFIG) (slice_last 30 (x :: items)))
              0 header "") as [more Hmore].
  destruct (forEachItem _ 0 header "") as [grid row]. cbn [fst] in Hmore. subst grid.
  destruct (negb _); rewrite ?append_assoc; reflexivity.
Qed.

End ShareGridRows.

Lemma generateShareGrid_last_thirty_witness :
  ShareGrid.generateShareGrid
    ([ {| Streaks.day := "2026-01-01"; Streaks.choice := Game.defect |} ]
     ++ replicate 30 {| Streaks.day := "2026-02-01"; Streaks.choice := Game.cooperate |})
  = ShareGrid.generateShareGrid
      (replicate 30 {| Streaks.day := "2026-02-01"; Streaks.choice := Game.cooperate |}).
Proof.
  apply (generateShareGrid_last_thirty
           [ {| Streaks.day := "2026-01-01"; Streaks.choice := Game.defect |} ]
           (replicate 30 {| Streaks.day := "2026-02-01"; Streaks.choice := Game.cooperate |})
           []).
  reflexivity.
Defined.

Lemma copyToast_shows_header_only_witness :
  ShareGrid.copyToast
    [ {| Streaks.day := "2026-02-10"; Streaks.choice := Game.cooperate |};
      {| Streaks.day := "2026-02-11"; Streaks.choice := Game.defect |} ]
  = Some "Share your streak: DilemmaForge Streak:".
Proof.
  apply copyToast_shows_header_only. discriminate.
Defined.

(** ** The key pattern *)

Section KeyPattern.
Import Keys KeyScheme.

Lemma list_ascii_app (a b : string) :
  list_ascii_of_string (a ++ b)
  = (list_ascii_of_string a ++ list_ascii_of_string b)%list.
Proof.
  induction a as [| x a IH]; [reflexivity |].
  change (x :: list_ascii_of_string (a ++ b)
          = x :: (list_ascii_of_string a ++ list_ascii_of_string b)%list).
  rewrite IH. reflexivity.
Qed.

(** The last three characters of a key are those of its suffix. *)
Lemma ending_app (a b : string) :
  (3 <= String.length b)%nat ->
  take 3 (reverse (list_ascii_of_string (a ++ b)))
  = take 3 (reverse (list_ascii_of_string b)).
Proof.
  intros Hlen. rewrite list_ascii_app, reverse_app.
  apply take_app_le. rewrite length_reverse.
  clear a. revert Hlen. generalize 3%nat.
  induction b as [| c b IH]; intros n Hn; simpl in *; [exact Hn |].
  destruct n as [| n]; [lia |]. apply le_n_S, IH. lia.
Qed.

Ltac ending H :=
  apply (f_equal (fun k => take 3 (reverse (list_ascii_of_string k)))) in H;
  cbv beta in H;
  rewrite <- ?append_assoc in H;
  rewrite !ending_app in H by (cbn; lia);
  discriminate H.

(** Keys of different kinds never coincide, whatever the identifiers
    are: a vote key is never a counter key, a results key never a marker
    key, and so on for the seven generators the table declares. *)
Theorem REDIS_KEYS_kinds_disjoint
        (p1 u1 d1 p2 d2 p3 d3 p4 d4 p5 d5 p6 u6 p7 u7 : string) :
  NoDup [ userVote REDIS_KEYS p1 u1 d1;
          dailyCooperateCount REDIS_KEYS p2 d2;
          dailyDefectCount REDIS_KEYS p3 d3;
          dailyResults REDIS_KEYS p4 d4;
          dailyFinalized REDIS_KEYS p5 d5;
          userStats REDIS_KEYS p6 u6;
          userHistory REDIS_KEYS p7 u7 ].
Proof.
  cbn [userVote dailyCooperateCount dailyDefectCount dailyResults dailyFinalized
       userStats userHistory REDIS_KEYS].
  repeat (apply NoDup_cons_2;
          [ intros Hin;
            repeat (apply elem_of_cons in Hin as [Hin | Hin]; [ending Hin |]);
            inversion Hin
          | ]).
  apply NoDup_nil_2.
Qed.

Lemma split_at_colon (p p' r r' : string) :
  colon_free p = true -> colon_free p' = true ->
  p ++ String ":" r = p' ++ String ":" r' -> p = p' /\ r = r'.
Proof.
  revert p'. induction p as [| c p IH]; intros [| c' p'] Hp Hp' E.
  - injection E as ->. auto.
  - exfalso. injection E as <- _. simpl in Hp'. discriminate Hp'.
  - exfalso. injection E as -> _. simpl in Hp. discriminate Hp.
  - injection E as -> E.
    cbn [colon_free] in Hp, Hp'.
    apply andb_prop in Hp as [_ Hp]. apply andb_prop in Hp' as [_ Hp'].
    destruct (IH p' Hp Hp' E) as [-> ->]. auto.
Qed.

Lemma split_at_separator (p p' s r r' : string) :
  colon_free p = true -> colon_free p' = true ->
  p ++ (String ":" s ++ r) = p' ++ (String ":" s ++ r') -> p = p' /\ r = r'.
Proof.
  intros Hp Hp' E.
  change (String ":" s ++ r) with (String ":" (s ++ r)) in E.
  change (String ":" s ++ r') with (String ":" (s ++ r')) in E.
  apply split_at_colon in E as [-> E]; [| assumption | assumption].
  split; [reflexivity |]. exact (String.app_inj s _ _ E).
Qed.

Ltac peel E :=
  repeat first
    [ apply split_at_separator in E as [-> E]; [| assumption | assumption]
    | apply split_at_colon in E as [-> _]; [| assumption | assumption] ].

(** For identifiers without a colon every generator is injective: two
    keys of the same kind are equal only when they are built from the same
    post, participant and day.  In particular two posts never share a
    key. *)
Theorem REDIS_KEYS_injective (p u d p' u' d' : string) :
  colon_free p = true -> colon_free u = true -> colon_free d = true ->
  colon_free p' = true -> colon_free u' = true -> colon_free d' = true ->
  (userVote REDIS_KEYS p u d = userVote REDIS_KEYS p' u' d'
     <-> p = p' /\ u = u' /\ d = d')
  /\ (dailyCooperateCount REDIS_KEYS p d = dailyCooperateCount REDIS_KEYS p' d'
     <-> p = p' /\ d = d')
  /\ (dailyDefectCount REDIS_KEYS p d = dailyDefectCount REDIS_KEYS p' d'
     <-> p = p' /\ d = d')
  /\ (dailyResults REDIS_KEYS p d = dailyResults REDIS_KEYS p' d'
     <-> p = p' /\ d = d')
  /\ (dailyFinalized REDIS_KEYS p d = dailyFinalized REDIS_KEYS p' d'
     <-> p = p' /\ d = d')
  /\ (userStats REDIS_KEYS p u = userStats REDIS_KEYS p' u' <-> p = p' /\ u = u')
  /\ (userHistory REDIS_KEYS p u = userHistory REDIS_KEYS p' u' <-> p = p' /\ u = u').
Proof.
  intros Hp Hu Hd Hp' Hu' Hd'.
  cbn [userVote dailyCooperateCount dailyDefectCount dailyResults dailyFinalized
       userStats userHistory REDIS_KEYS].
  repeat match goal with |- _ /\ _ => split end.
  all: split; [intros E | intros E; decompose [and] E; subst; reflexivity].
  all: injection E as E.
  all: peel E.
  all: auto.
Qed.

(** With a colon inside an identifier the same key can stand for two
    participants of two posts. *)
Example REDIS_KEYS_collision :
  userStats REDIS_KEYS "a:user:b" "c" = userStats REDIS_KEYS "a" "b:user:c".
Proof. reflexivity. Qed.

End KeyPattern.

Lemma REDIS_KEYS_injective_witness :
  Keys.userVote Keys.REDIS_KEYS "t3_abc" "t2_u1" "2026-02-10"
  = Keys.userVote Keys.REDIS_KEYS "t3_abd" "t2_u1" "2026-02-10"
  <-> "t3_abc" = "t3_abd" /\ "t2_u1" = "t2_u1" /\ "2026-02-10" = "2026-02-10".
Proof.
  apply (REDIS_KEYS_injective "t3_abc" "t2_u1" "2026-02-10"
           "t3_abd" "t2_u1" "2026-02-10"); reflexivity.
Defined.

(** ** The history view and the tracker *)

Section HistoryViewAgrees.
Import Json Game Streaks HistoryView.
Context `{Host}.

Lemma parseViewEntry_object (e : json) :
  well_shaped e = true -> parseViewEntry e = Some e.
Proof.
  intros Hw. destruct e; try (unfold well_shaped in Hw; simpl in Hw;
    rewrite ?andb_false_r in Hw; discriminate Hw).
  simpl. rewrite Hw. reflexivity.
Qed.

(** The history view shows every entry of a history that
    [updateUserStats] has stored, unchanged and in order. *)
Theorem parsedHistory_shows_stored_history
        (now : Z) (cs : UserStats) (v : HistEntry) (points : Z) :
  parsedHistory (history (updateUserStats now cs v points))
  = history (updateUserStats now cs v points).
Proof.
  unfold parsedHistory, updateUserStats. cbn [history].
  generalize (history cs ++ [entry_to_json v])%list. intros l.
  induction l as [| e l IH]; [reflexivity |].
  cbn [omap list_omap].
  destruct (normalizeHistoryEntry e) as [o |] eqn:He; [| exact IH].
  cbn [omap list_omap].
  assert (Hshape : well_shaped o = true).
  { apply normalizeHistoryEntry_kept in He.
    destruct e as [| b | z | x | s | items | members];
      try (destruct He as [Hw ->]; exact Hw).
    destruct He as [(parsed & d & c & _ & Hw & Hd & Hc & ->) | [_ ->]];
      [| reflexivity].
    unfold well_shaped in *. rewrite Hd, Hc in Hw.
    apply andb_prop in Hw as [Hw Hchoice]. apply andb_prop in Hw as [_ Hday].
    change (prop (JObj [("day", d); ("choice", c)]) "day") with (Some d).
    change (prop (JObj [("day", d); ("choice", c)]) "choice") with (Some c).
    rewrite Hday, Hchoice. reflexivity. }
  rewrite (parseViewEntry_object o Hshape), IH. reflexivity.
Qed.

(** The view tests the legacy day format before it parses, the tracker
    after.  On a host whose parser never reads a date-shaped text as a
    well-shaped entry, as no JSON parser does, the two keep the same
    entries of every stored history and read them alike. *)
Theorem parsedHistory_agrees_with_tracker (stored : list json) :
  (forall s parsed,
      JStr s ∈ stored -> legacy_day_format s = true ->
      JSON_parse s = Some parsed -> well_shaped parsed = false) ->
  parsedHistory stored = omap normalizeHistoryEntry stored.
Proof.
  unfold parsedHistory. induction stored as [| e l IH]; intros Hdate;
    [reflexivity |].
  cbn [omap list_omap].
  rewrite IH by (intros s parsed Hin; apply Hdate; right; exact Hin).
  assert (He : parseViewEntry e = normalizeHistoryEntry e).
  { destruct e as [| b | z | x | s | items | members]; try reflexivity.
    cbn [parseViewEntry normalizeHistoryEntry]. unfold parseHistoryEntry.
    destruct (legacy_day_format s) eqn:Hl.
    - destruct (JSON_parse s) as [parsed |] eqn:Hp; [| reflexivity].
      rewrite (Hdate s parsed ltac:(left) Hl Hp). reflexivity.
    - destruct (JSON_parse s) as [parsed |]; [| reflexivity].
      destruct (well_shaped parsed); [| reflexivity].
      destruct (prop parsed "day"); [| reflexivity].
      destruct (prop parsed "choice"); reflexivity. }
  rewrite He. reflexivity.
Qed.

End HistoryViewAgrees.

Lemma parsedHistory_agrees_with_tracker_witness :
  HistoryView.parsedHistory (H := Reference.host)
    [ Json.JStr "2026-02-09";
      Json.JStr "not a history entry";
      Json.JStr (Reference.stringify
                   (Json.JObj [("day", Json.JStr "2026-02-10");
                               ("choice", Json.JStr "defect")])) ]
  = omap (Streaks.normalizeHistoryEntry (H := Reference.host))
      [ Json.JStr "2026-02-09";
        Json.JStr "not a history entry";
        Json.JStr (Reference.stringify
                     (Json.JObj [("day", Json.JStr "2026-02-10");
                                 ("choice", Json.JStr "defect")])) ].
Proof.
  apply (parsedHistory_agrees_with_tracker (H := Reference.host)).
  intros s parsed Hin Hl Hp.
  repeat (apply elem_of_cons in Hin as [[= ->] | Hin];
          [vm_compute in Hl; vm_compute in Hp; congruence |]).
  inversion Hin.
Defined.

(** ** The awarder, one invocation at a time *)

Section AwardSequential.
Import JSNumber Json Game Redis Keys Main IntString.
Context `{Host}.
Variable K : redis_keys.

(** When there is no vote for the day, or the stored vote already carries
    the award flag, [awardUserPoints] reads the vote and returns: it issues
    no other command and leaves the store as it is, whatever the key table
    and the rest of the store. *)
Theorem awardUserPoints_nothing_to_award
        (σ : store) (lockId finalizeLockId : string) (now : Z)
        (postId userId day : string) :
  let voteKey := userVote K postId userId day in
  falsy (data σ !! voteKey) = true
  \/ (exists text vote,
        data σ !! voteKey = Some text /\ JSON_parse text = Some vote
        /\ truthy_opt (prop vote "choice") = true
        /\ truthy_opt (prop vote "pointsAwarded") = true) ->
  run (awardUserPoints K lockId finalizeLockId now postId userId day) σ
  = (Returned tt, σ, [GET voteKey]).
Proof.
  intros voteKey [Hnone | (text & vote & Hvote & Hparse & Hchoice & Hflag)];
    unfold awardUserPoints; fold voteKey; simpl.
  - rewrite Hnone. reflexivity.
  - unfold safeJSONParse. rewrite Hvote. simpl.
    destruct (String.eqb text "") eqn:Hempty; [reflexivity |].
    simpl. rewrite Hparse. simpl. rewrite Hchoice, Hflag. reflexivity.
Qed.

(** One uninterrupted invocation on a settled day: the vote is stored
    without the award flag, the results of the day are cached, the score
    holds an integer and the award lock is free.  The invocation adds the
    points of the voter's side to the score, stores the vote with the flag
    and the time of the award, and releases its lock; nothing else in the
    store changes.  An invocation that follows it, on a host that reads
    the stored vote back with its flag, finds the flag and changes
    nothing: in sequence the points are credited once. *)
Theorem awardUserPoints_credits_settled_points
        (gs : string -> string -> string)
        (gl : string -> string -> string -> string)
        (σ : store) (lockId finalizeLockId : string) (now : Z)
        (postId userId day voteText resultsText scoreText : string)
        (vote results : json) (n s : Z) :
  let voteKey := userVote K postId userId day in
  let resultsKey := dailyResults K postId day in
  let scoreKey := gs postId userId in
  let lockKey := gl postId userId day in
  let flagged :=
    set_prop "pointsAwardedAt" (JNum now) (set_prop "pointsAwarded" (JBool true) vote) in
  userScore K = Some gs -> userAwardLock K = Some gl ->
  NoDup [voteKey; resultsKey; scoreKey; lockKey] ->
  data σ !! voteKey = Some voteText -> String.eqb voteText "" = false ->
  JSON_parse voteText = Some vote ->
  truthy_opt (prop vote "choice") = true ->
  truthy_opt (prop vote "pointsAwarded") = false ->
  data σ !! resultsKey = Some resultsText -> String.eqb resultsText "" = false ->
  JSON_parse resultsText = Some results -> truthy results = true ->
  (if is_text (prop vote "choice") "cooperate"
   then prop results "pointsForCooperators"
   else prop results "pointsForDefectors") = Some (JNum n) ->
  data σ !! scoreKey = Some scoreText -> String.eqb scoreText "" = false ->
  redis_int scoreText = Some s -> - 2 ^ 63 <= s + n < 2 ^ 63 ->
  data σ !! lockKey = None ->
  let '(res, σ', trace) :=
    run (awardUserPoints K lockId finalizeLockId now postId userId day) σ in
  res = Returned tt
  /\ data σ' = <[voteKey := JSON_stringify flagged]>
                 (<[scoreKey := String_of_Z (s + n)]> (data σ))
  /\ trace = [ GET voteKey; GET resultsKey; GET scoreKey;
               SET_NX lockKey lockId (Some (now + 30000));
               GET voteKey;
               WATCH [voteKey; scoreKey];
               EXEC [(voteKey, version_of σ voteKey); (scoreKey, version_of σ scoreKey)]
                    [TX_INCRBY scoreKey n; TX_SET voteKey (JSON_stringify flagged)];
               CONSOLE (AwardedPoints n userId day);
               GET lockKey; DEL lockKey ]
  /\ (forall stored lockId' finalizeLockId' now',
        String.eqb (JSON_stringify flagged) "" = false ->
        JSON_parse (JSON_stringify flagged) = Some stored ->
        truthy_opt (prop stored "choice") = true ->
        truthy_opt (prop stored "pointsAwarded") = true ->
        run (awardUserPoints K lockId' finalizeLockId' now' postId userId day) σ'
        = (Returned tt, σ', [GET voteKey])).
Proof.
  intros voteKey resultsKey scoreKey lockKey flagged Hgs Hgl Hkeys
         Hvote Hvtext Hvparse Hchoice Hflag Hresults Hrtext Hrparse Hrtruthy
         Hpoints Hscore Hstext Hint Hrange Hlock.
  destruct (NoDup_4 _ _ _ _ Hkeys) as (Hvr & Hvs & Hvl & Hrs & Hrl & Hsl).
  unfold awardUserPoints, safeJSONParse. rewrite Hgs, Hgl.
  fold voteKey resultsKey scoreKey lockKey.
  repeat (simpl; unfold awardUnderLock, applyAward, safeJSONParse, releaseLock,
            points_argument; simpl; fold scoreKey lockKey;
          progress rewrite ?Hvote, ?Hvtext, ?Hvparse, ?Hchoice, ?Hflag,
            ?Hresults, ?Hrtext, ?Hrparse, ?Hrtruthy, ?Hscore, ?Hstext, ?Hlock,
            ?Hpoints, ?Hint, ?Nat.eqb_refl,
            ?(lookup_insert_ne (data σ) lockKey voteKey) by congruence).
  cbn [andb].
  assert (Hincr : incr_by scoreKey n (write lockKey lockId (Some (now + 30000)) σ)
                  = (inr (s + n),
                     {| data := <[scoreKey := String_of_Z (s + n)]>
                                  (<[lockKey := lockId]> (data σ));
                        expires := <[lockKey := now + 30000]> (expires σ);
                        version := touch scoreKey (touch lockKey (version σ)) |})).
  { unfold incr_by. cbn [data write].
    rewrite lookup_insert_ne by congruence. rewrite Hscore, Hint.
    rewrite (proj2 (Z.leb_le _ _)) by lia. rewrite (proj2 (Z.ltb_lt _ _)) by lia.
    reflexivity. }
  rewrite Hincr. simpl.
  rewrite lookup_insert_ne by congruence.
  rewrite lookup_insert_ne by congruence.
  rewrite lookup_insert_eq.
  rewrite bool_decide_eq_true_2 by reflexivity. simpl.
  unfold remove. simpl.
  rewrite lookup_insert_ne by congruence.
  rewrite lookup_insert_ne by congruence.
  rewrite lookup_insert_eq. simpl.
  assert (Hdata :
    delete lockKey
      (<[voteKey := JSON_stringify flagged]>
         (<[scoreKey := String_of_Z (s + n)]> (<[lockKey := lockId]> (data σ))))
    = <[voteKey := JSON_stringify flagged]>
        (<[scoreKey := String_of_Z (s + n)]> (data σ))).
  { rewrite delete_insert_ne by congruence.
    rewrite delete_insert_ne by congruence.
    rewrite delete_insert_eq, delete_id by exact Hlock. reflexivity. }
  split; [reflexivity |]. split; [exact Hdata |]. split.
  - unfold version_of. simpl. unfold touch.
    rewrite !lookup_insert_ne by congruence. reflexivity.
  - intros stored lockId' finalizeLockId' now' Hnonempty Hstored Hchoice' Hflag'.
    unfold awardUserPoints, safeJSONParse. fold voteKey. simpl.
    fold flagged. rewrite Hdata. rewrite lookup_insert_eq. simpl.
    rewrite Hnonempty. simpl. rewrite Hstored. simpl.
    rewrite Hchoice', Hflag'. reflexivity.
Qed.
End AwardSequential.

Lemma awardUserPoints_nothing_to_award_witness :
  Redis.run (Main.awardUserPoints (H := Reference.host) Scenario.K
               "1770800000000-a" "1770800000000-fa" 1770800000000 "p" "u" "2026-02-08")
            Scenario.settled
  = (Redis.Returned tt, Scenario.settled,
     [Redis.GET (Keys.userVote Scenario.K "p" "u" "2026-02-08")]).
Proof.
  apply (awardUserPoints_nothing_to_award (H := Reference.host)).
  left. reflexivity.
Defined.

Lemma awardUserPoints_credits_settled_points_witness :
  let '(res, σ', trace) :=
    Redis.run (Main.awardUserPoints (H := Reference.host) Scenario.K
                 "1770800000000-a" "1770800000000-fa" 1770800000000 "p" "u" Scenario.day1)
      (Redis.write Scenario.scoreKey "4" None Scenario.settled) in
  res = Redis.Returned tt
  /\ Redis.data σ' !! Scenario.scoreKey = Some "7".
Proof.
  assert (Hkeys : NoDup [Scenario.voteKey1; Scenario.resultsKey1; Scenario.scoreKey;
                         Scenario.awardLockKey1]).
  { apply (bool_decide_unpack _). vm_compute. exact I. }
  pose proof (awardUserPoints_credits_settled_points (H := Reference.host) Scenario.K
                (fun postId userId => "post:" ++ postId ++ ":user:" ++ userId ++ ":score")%string
                (fun postId userId day =>
                   "post:" ++ postId ++ ":user:" ++ userId ++ ":day:" ++ day ++ ":award-lock")%string
                (Redis.write Scenario.scoreKey "4" None Scenario.settled)
                "1770800000000-a" "1770800000000-fa" 1770800000000 "p" "u" Scenario.day1
                Scenario.vote1 Scenario.results1 "4"
                (Main.vote_document Game.cooperate 1770700000000 Scenario.day1)
                (Main.results_document Scenario.day1 (JSNumber.of_Z 7) (JSNumber.of_Z 3))
                3 4 eq_refl eq_refl Hkeys) as Hrun.
  cbv zeta in Hrun.
  assert (Hrange : - 2 ^ 63 <= 4 + 3 < 2 ^ 63) by lia.
  specialize (Hrun ltac:(vm_compute; reflexivity) ltac:(vm_compute; reflexivity)
                   ltac:(vm_compute; reflexivity) ltac:(vm_compute; reflexivity)
                   ltac:(vm_compute; reflexivity) ltac:(vm_compute; reflexivity)
                   ltac:(vm_compute; reflexivity) ltac:(vm_compute; reflexivity)
                   ltac:(vm_compute; reflexivity) ltac:(vm_compute; reflexivity)
                   ltac:(vm_compute; reflexivity) ltac:(vm_compute; reflexivity)
                   ltac:(vm_compute; reflexivity) Hrange
                   ltac:(vm_compute; reflexivity)).
  destruct (Redis.run _ _) as [[res σ'] trace].
  destruct Hrun as (Hres & Hdata & _).
  split; [exact Hres |]. rewrite Hdata. vm_compute. reflexivity.
Defined.

(** ** The finalizer, one invocation at a time *)

Section FinalizerSequential.
Import JSNumber Json Game Redis Keys Main IntString Settlement.
Context `{Host}.
Variable K : redis_keys.

(** The result and the data after one uninterrupted invocation. *)
Lemma finalizeDailyResults_run
      (g : string -> string -> string) (σ : store) (lockId : string) (now : Z)
      (postId day : string) :
  dailyFinalizeLock K = Some g ->
  NoDup [g postId day; dailyFinalized K postId day; dailyResults K postId day;
         dailyCooperateCount K postId day; dailyDefectCount K postId day] ->
  let '(res, σ', trace) := run (finalizeDailyResults K lockId now postId day) σ in
  res = Returned tt /\ data σ' = finalized_data K g postId day (data σ).
Proof.
  intros Hg Hkeys.
  destruct (NoDup_5 _ _ _ _ _ Hkeys)
    as (Hlf & Hlr & Hlc & Hld & Hfr & Hfc & Hfd & Hrc & Hrd & Hcd).
  unfold finalizeDailyResults, finalized_data. rewrite Hg. cbv zeta. simpl.
  set (lockKey := g postId day) in *.
  set (finalizedKey := dailyFinalized K postId day) in *.
  set (resultsKey := dailyResults K postId day) in *.
  set (cooperateKey := dailyCooperateCount K postId day) in *.
  set (defectKey := dailyDefectCount K postId day) in *.
  destruct (data σ !! lockKey) as [holder |] eqn:Hlock; simpl; [auto |].
  rewrite !lookup_insert_ne by congruence.
  destruct (falsy (data σ !! resultsKey)) eqn:Hcached; simpl.
  2:{ destruct (falsy (data σ !! finalizedKey)) eqn:Hmarker; simpl.
      - rewrite lookup_insert_ne by congruence. rewrite lookup_insert_eq.
        rewrite bool_decide_eq_true_2 by reflexivity. simpl.
        unfold remove. simpl.
        rewrite lookup_insert_ne by congruence. rewrite lookup_insert_eq. simpl.
        rewrite delete_insert_ne by congruence.
        rewrite delete_insert_eq, delete_id by assumption. auto.
      - rewrite lookup_insert_eq.
        rewrite bool_decide_eq_true_2 by reflexivity. simpl.
        unfold remove. simpl. rewrite lookup_insert_eq. simpl.
        rewrite delete_insert_eq, delete_id by assumption. auto. }
  rewrite !lookup_insert_ne by congruence.
  destruct (parseInt (or_else (data σ !! cooperateKey) "0")) as [c |]; simpl.
  2:{ rewrite lookup_insert_eq.
      rewrite bool_decide_eq_true_2 by reflexivity. simpl.
      unfold remove. simpl. rewrite lookup_insert_eq. simpl.
      rewrite delete_insert_eq, delete_id by assumption. auto. }
  destruct (parseInt (or_else (data σ !! defectKey) "0")) as [d |]; simpl.
  2:{ rewrite lookup_insert_eq.
      rewrite bool_decide_eq_true_2 by reflexivity. simpl.
      unfold remove. simpl. rewrite lookup_insert_eq. simpl.
      rewrite delete_insert_eq, delete_id by assumption. auto. }
  destruct (strict_eq (of_Z c) _ && strict_eq (of_Z d) _); simpl.
  - rewrite lookup_insert_eq.
    rewrite bool_decide_eq_true_2 by reflexivity. simpl.
    unfold remove. simpl. rewrite lookup_insert_eq. simpl.
    rewrite delete_insert_eq, delete_id by assumption. auto.
  - rewrite lookup_insert_ne by congruence.
    rewrite lookup_insert_ne by congruence.
    rewrite lookup_insert_eq.
    rewrite bool_decide_eq_true_2 by reflexivity. simpl.
    unfold remove. simpl.
    rewrite lookup_insert_ne by congruence.
    rewrite lookup_insert_ne by congruence.
    rewrite lookup_insert_eq. simpl.
    rewrite delete_insert_ne by congruence.
    rewrite delete_insert_ne by congruence.
    rewrite delete_insert_eq, delete_id by assumption. auto.
Qed.

Lemma finalized_data_idempotent
      (g : string -> string -> string) (postId day : string) (m : gmap string string) :
  NoDup [g postId day; dailyFinalized K postId day; dailyResults K postId day;
         dailyCooperateCount K postId day; dailyDefectCount K postId day] ->
  finalized_data K g postId day (finalized_data K g postId day m)
  = finalized_data K g postId day m.
Proof.
  intros Hkeys.
  destruct (NoDup_5 _ _ _ _ _ Hkeys)
    as (Hlf & Hlr & Hlc & Hld & Hfr & Hfc & Hfd & Hrc & Hrd & Hcd).
  unfold finalized_data. cbv zeta.
  set (lockKey := g postId day) in *.
  set (finalizedKey := dailyFinalized K postId day) in *.
  set (resultsKey := dailyResults K postId day) in *.
  set (cooperateKey := dailyCooperateCount K postId day) in *.
  set (defectKey := dailyDefectCount K postId day) in *.
  destruct (m !! lockKey) as [holder |] eqn:Hlock.
  { rewrite Hlock. reflexivity. }
  destruct (falsy (m !! resultsKey)) eqn:Hcached; cbn [negb].
  2:{ destruct (falsy (m !! finalizedKey)) eqn:Hmarker.
      - rewrite lookup_insert_ne by congruence. rewrite Hlock.
        rewrite lookup_insert_ne by congruence. rewrite Hcached. cbn [negb].
        rewrite lookup_insert_eq. reflexivity.
      - rewrite Hlock, Hcached. cbn [negb]. rewrite Hmarker. reflexivity. }
  destruct (parseInt (or_else (m !! cooperateKey) "0")) as [c |] eqn:Hc.
  2:{ rewrite Hlock, Hcached. cbn [negb]. rewrite Hc. reflexivity. }
  destruct (parseInt (or_else (m !! defectKey) "0")) as [d |] eqn:Hd.
  2:{ rewrite Hlock, Hcached. cbn [negb]. rewrite Hc, Hd. reflexivity. }
  destruct (strict_eq (of_Z c) (of_Z 0) && strict_eq (of_Z d) (of_Z 0)) eqn:Hzero.
  { rewrite Hlock, Hcached. cbn [negb]. rewrite Hc, Hd, Hzero. reflexivity. }
  set (doc := JSON_stringify (results_document day (of_Z c) (of_Z d))).
  rewrite (lookup_insert_ne _ finalizedKey lockKey) by congruence.
  rewrite (lookup_insert_ne _ resultsKey lockKey) by congruence.
  rewrite Hlock.
  rewrite (lookup_insert_ne _ finalizedKey resultsKey) by congruence.
  rewrite (lookup_insert_eq _ resultsKey).
  rewrite (lookup_insert_ne _ finalizedKey cooperateKey) by congruence.
  rewrite (lookup_insert_ne _ resultsKey cooperateKey) by congruence.
  rewrite (lookup_insert_ne _ finalizedKey defectKey) by congruence.
  rewrite (lookup_insert_ne _ resultsKey defectKey) by congruence.
  rewrite (lookup_insert_eq _ finalizedKey).
  destruct (falsy (Some doc)) eqn:Hdoc; cbn [negb].
  - rewrite Hc, Hd, Hzero. fold doc.
    apply map_eq. intros k.
    destruct (decide (k = finalizedKey)) as [-> | Hkf];
      [rewrite !lookup_insert_eq; reflexivity |].
    rewrite !(lookup_insert_ne _ finalizedKey) by congruence.
    destruct (decide (k = resultsKey)) as [-> | Hkr];
      [rewrite !lookup_insert_eq; reflexivity |].
    rewrite !(lookup_insert_ne _ resultsKey) by congruence.
    rewrite !(lookup_insert_ne _ finalizedKey) by congruence.
    rewrite !(lookup_insert_ne _ resultsKey) by congruence. reflexivity.
  - reflexivity.
Qed.

(** The finalizer is idempotent in sequence, as its documentation says:
    an invocation that follows an uninterrupted one, whatever the store
    was, returns normally and leaves every value as the first one left
    it. *)
Theorem finalizeDailyResults_idempotent
        (g : string -> string -> string) (σ : store)
        (lockId lockId' : string) (now now' : Z) (postId day : string) :
  dailyFinalizeLock K = Some g ->
  NoDup [g postId day; dailyFinalized K postId day; dailyResults K postId day;
         dailyCooperateCount K postId day; dailyDefectCount K postId day] ->
  let '(_, σ1, _) := run (finalizeDailyResults K lockId now postId day) σ in
  let '(res, σ2, _) := run (finalizeDailyResults K lockId' now' postId day) σ1 in
  res = Returned tt /\ data σ2 = data σ1.
Proof.
  intros Hg Hkeys.
  pose proof (finalizeDailyResults_run g σ lockId now postId day Hg Hkeys) as Hfirst.
  destruct (run (finalizeDailyResults K lockId now postId day) σ) as [[res1 σ1] trace1].
  destruct Hfirst as [_ Hdata1].
  pose proof (finalizeDailyResults_run g σ1 lockId' now' postId day Hg Hkeys) as Hsecond.
  destruct (run (finalizeDailyResults K lockId' now' postId day) σ1) as [[res2 σ2] trace2].
  destruct Hsecond as [Hres2 Hdata2].
  split; [exact Hres2 |].
  rewrite Hdata2, Hdata1. apply finalized_data_idempotent. exact Hkeys.
Qed.

Lemma count_is_zero (c : Z) :
  0 <= c < 2 ^ 53 -> strict_eq (of_Z c) (of_Z 0) = (c =? 0).
Proof.
  intros Hc. destruct (Z.eqb_spec c 0) as [-> | Hne]; [reflexivity |].
  unfold strict_eq, of_Z, prec, emax.
  rewrite (of_Z_normal c) by lia. reflexivity.
Qed.

(** A day with votes: the lock is free, no results are cached and the two
    counters read as [c] and [d], not both zero.  One uninterrupted
    invocation stores the results document of [calculateResults(c, d)]
    and the finalized marker, releases the lock and changes nothing
    else. *)
Theorem finalizeDailyResults_settles_day
        (g : string -> string -> string) (σ : store) (lockId : string) (now : Z)
        (postId day : string) (c d : Z) :
  let lockKey := g postId day in
  let finalizedKey := dailyFinalized K postId day in
  let resultsKey := dailyResults K postId day in
  let cooperateKey := dailyCooperateCount K postId day in
  let defectKey := dailyDefectCount K postId day in
  dailyFinalizeLock K = Some g ->
  NoDup [lockKey; finalizedKey; resultsKey; cooperateKey; defectKey] ->
  data σ !! lockKey = None ->
  falsy (data σ !! resultsKey) = true ->
  parseInt (or_else (data σ !! cooperateKey) "0") = Some c ->
  parseInt (or_else (data σ !! defectKey) "0") = Some d ->
  0 <= c -> 0 <= d -> 0 < c + d < 2 ^ 53 ->
  let '(res, σ', _) := run (finalizeDailyResults K lockId now postId day) σ in
  res = Returned tt
  /\ data σ' = <[finalizedKey := "true"]>
                 (<[resultsKey :=
                      JSON_stringify (results_document day (of_Z c) (of_Z d))]>
                    (data σ)).
Proof.
  intros lockKey finalizedKey resultsKey cooperateKey defectKey
         Hg Hkeys Hlock Hcached Hc Hd Hc0 Hd0 Hsum.
  pose proof (finalizeDailyResults_run g σ lockId now postId day Hg Hkeys) as Hrun.
  destruct (run (finalizeDailyResults K lockId now postId day) σ) as [[res σ'] trace].
  destruct Hrun as [Hres Hdata]. split; [exact Hres |].
  rewrite Hdata. unfold finalized_data. cbv zeta.
  fold lockKey finalizedKey resultsKey cooperateKey defectKey.
  rewrite Hlock, Hcached. cbn [negb]. rewrite Hc, Hd.
  rewrite !count_is_zero by lia.
  destruct (Z.eqb_spec c 0), (Z.eqb_spec d 0); try reflexivity. lia.
Qed.

(** A day without votes is not settled: when the lock is free, no results
    are cached and the counters are missing, zero or unreadable, one
    uninterrupted invocation stores nothing and releases the lock. *)
Theorem finalizeDailyResults_without_votes
        (g : string -> string -> string) (σ : store) (lockId : string) (now : Z)
        (postId day : string) :
  let lockKey := g postId day in
  let finalizedKey := dailyFinalized K postId day in
  let resultsKey := dailyResults K postId day in
  let cooperateKey := dailyCooperateCount K postId day in
  let defectKey := dailyDefectCount K postId day in
  dailyFinalizeLock K = Some g ->
  NoDup [lockKey; finalizedKey; resultsKey; cooperateKey; defectKey] ->
  data σ !! lockKey = None ->
  falsy (data σ !! resultsKey) = true ->
  parseInt (or_else (data σ !! cooperateKey) "0") = None
  \/ parseInt (or_else (data σ !! defectKey) "0") = None
  \/ (parseInt (or_else (data σ !! cooperateKey) "0") = Some 0
      /\ parseInt (or_else (data σ !! defectKey) "0") = Some 0) ->
  let '(res, σ', _) := run (finalizeDailyResults K lockId now postId day) σ in
  res = Returned tt /\ data σ' = data σ.
Proof.
  intros lockKey finalizedKey resultsKey cooperateKey defectKey
         Hg Hkeys Hlock Hcached Hcounts.
  pose proof (finalizeDailyResults_run g σ lockId now postId day Hg Hkeys) as Hrun.
  destruct (run (finalizeDailyResults K lockId now postId day) σ) as [[res σ'] trace].
  destruct Hrun as [Hres Hdata]. split; [exact Hres |].
  rewrite Hdata. unfold finalized_data. cbv zeta.
  fold lockKey finalizedKey resultsKey cooperateKey defectKey.
  rewrite Hlock, Hcached. cbn [negb].
  destruct Hcounts as [Hc | [Hd | [Hc Hd]]]; rewrite ?Hc, ?Hd; try reflexivity.
  destruct (parseInt (or_else (data σ !! cooperateKey) "0")); reflexivity.
Qed.

End FinalizerSequential.

Lemma finalizeDailyResults_idempotent_witness :
  let '(_, σ1, _) :=
    Redis.run (Main.finalizeDailyResults (H := Reference.host) Scenario.K
                 "1770800000000-f" 1770800000000 "p" Scenario.day1) Counted.counted in
  let '(res, σ2, _) :=
    Redis.run (Main.finalizeDailyResults (H := Reference.host) Scenario.K
                 "1770800000009-g" 1770800000009 "p" Scenario.day1) σ1 in
  res = Redis.Returned tt /\ Redis.data σ2 = Redis.data σ1.
Proof.
  apply (finalizeDailyResults_idempotent (H := Reference.host) Scenario.K
           Counted.finalizeLock Counted.counted).
  - reflexivity.
  - apply (bool_decide_unpack _). vm_compute. exact I.
Defined.

Lemma finalizeDailyResults_settles_day_witness :
  let '(res, σ', _) :=
    Redis.run (Main.finalizeDailyResults (H := Reference.host) Scenario.K
                 "1770800000000-f" 1770800000000 "p" Scenario.day1) Counted.counted in
  res = Redis.Returned tt
  /\ Redis.data σ'
     = <[Scenario.finalizedKey1 := "true"]>
         (<[Scenario.resultsKey1 := Scenario.results1]> (Redis.data Counted.counted)).
Proof.
  apply (finalizeDailyResults_settles_day (H := Reference.host) Scenario.K
           Counted.finalizeLock Counted.counted "1770800000000-f" 1770800000000
           "p" Scenario.day1 7 3).
  - reflexivity.
  - apply (bool_decide_unpack _). vm_compute. exact I.
  - reflexivity.
  - reflexivity.
  - vm_compute. reflexivity.
  - vm_compute. reflexivity.
  - lia.
  - lia.
  - lia.
Defined.

Lemma finalizeDailyResults_without_votes_witness :
  let '(res, σ', _) :=
    Redis.run (Main.finalizeDailyResults (H := Reference.host) Scenario.K
                 "1770800000000-f" 1770800000000 "p" "2026-02-09") Counted.counted in
  res = Redis.Returned tt /\ Redis.data σ' = Redis.data Counted.counted.
Proof.
  apply (finalizeDailyResults_without_votes (H := Reference.host) Scenario.K
           Counted.finalizeLock Counted.counted "1770800000000-f" 1770800000000
           "p" "2026-02-09").
  - reflexivity.
  - apply (bool_decide_unpack _). vm_compute. exact I.
  - reflexivity.
  - reflexivity.
  - right. right. split; vm_compute; reflexivity.
Defined.

(** ** A first vote *)

Section FirstVote.
Import JSNumber Json Game Redis Keys Main IntString.
Context `{Host}.
Variable K : redis_keys.

(** The first vote of a participant on a post, on a key table that
    defines the score key: nothing is stored yet for the participant, and
    the counter of the chosen side holds [c] votes.  One uninterrupted
    invocation stores the vote, raises that counter to [c + 1], stores a
    history of this one vote and the stats that [updateUserStats] computes
    from an empty record, and reports success; nothing else changes. *)
Theorem handleVote_records_first_vote
        (gs : string -> string -> string) (σ : store) (choice : Choice) (now : Z)
        (postId userId currentDay : string) (c : Z) :
  let voteKey := userVote K postId userId currentDay in
  let countKey :=
    if Streaks.is_cooperate choice
    then dailyCooperateCount K postId currentDay
    else dailyDefectCount K postId currentDay in
  let historyKey := userHistory K postId userId in
  let statsKey := userStats K postId userId in
  let scoreKey := gs postId userId in
  let entry := {| Streaks.day := currentDay; Streaks.choice := choice |} in
  let fresh :=
    {| Streaks.totalScore := 0; Streaks.statsCurrentStreak := 0;
       Streaks.statsLongestStreak := 0; Streaks.totalVotes := 0;
       Streaks.cooperateCount := 0; Streaks.defectCount := 0;
       Streaks.history := [] |} in
  userScore K = Some gs ->
  choice <> no_choice ->
  NoDup [voteKey; countKey; historyKey; statsKey; scoreKey] ->
  data σ !! voteKey = None -> data σ !! historyKey = None ->
  data σ !! statsKey = None -> data σ !! scoreKey = None ->
  match data σ !! countKey with
  | Some text => redis_int text = Some c
  | None => c = 0
  end ->
  c + 1 < 2 ^ 63 ->
  let '(res, σ', trace) :=
    run (handleVote K false choice now postId userId currentDay) σ in
  res = Returned tt
  /\ data σ'
     = <[statsKey := JSON_stringify
                       (stats_to_json (Streaks.updateUserStats now fresh entry 0))]>
         (<[historyKey := JSON_stringify (JArr [Streaks.entry_to_json entry])]>
            (<[countKey := String_of_Z (c + 1)]>
               (<[voteKey := JSON_stringify (vote_document choice now currentDay)]>
                  (data σ))))
  /\ last trace = Some (UI ToastVoteSubmitted).
Proof.
  intros voteKey countKey historyKey statsKey scoreKey entry fresh
         Hgs Hchoice Hkeys Hvote Hhistory Hstats Hscore Hcount Hrange.
  destruct (NoDup_5 _ _ _ _ _ Hkeys)
    as (Hvc & Hvh & Hvs & Hvsc & Hch & Hcs & Hcsc & Hhs & Hhsc & Hssc).
  assert (Hincr :
    forall τ, data τ !! countKey = data σ !! countKey ->
    incr_by countKey 1 τ
    = (inr (c + 1),
       {| data := <[countKey := String_of_Z (c + 1)]> (data τ);
          expires := expires τ;
          version := touch countKey (version τ) |})).
  { intros τ Hsame. unfold incr_by. rewrite Hsame.
    assert (Hlow : - 2 ^ 63 <= c + 1).
    { destruct (data σ !! countKey) as [text |].
      - unfold redis_int in Hcount.
        destruct (NilZero.int_of_string text); [| discriminate].
        destruct (_ && _) eqn:Hb; [| discriminate].
        injection Hcount as <-.
        apply andb_prop in Hb as [Hb _]. apply andb_prop in Hb as [_ Hb].
        apply Z.leb_le in Hb. lia.
      - subst c. lia. }
    destruct (data σ !! countKey) as [text |].
    - rewrite Hcount.
      rewrite (proj2 (Z.leb_le _ _)) by lia. rewrite (proj2 (Z.ltb_lt _ _)) by lia.
      reflexivity.
    - subst c. reflexivity. }
  unfold handleVote, safeJSONParse.
  destruct choice; [| | contradiction].
  all: rewrite Hgs; simpl.
  all: fold voteKey historyKey statsKey scoreKey; rewrite Hvote; simpl.
  all: cbn [Streaks.is_cooperate] in countKey; fold countKey.
  all: rewrite (Hincr (write voteKey _ None σ))
         by (cbn [data write]; apply lookup_insert_ne; congruence).
  all: simpl.
  all: repeat (progress rewrite ?lookup_insert_ne, ?Hhistory, ?Hstats, ?Hscore
                 by congruence; simpl).
  all: repeat split; reflexivity.
Qed.

(** On a key table without the score key, as [REDIS_KEYS] is declared, a
    first vote is stored and counted and the history is extended; the
    handler then fails at the score key, shows the failure toast and
    returns without writing the stats.  The vote stays stored, so the
    participant cannot vote again that day. *)
Theorem handleVote_fails_after_recording
        (σ : store) (choice : Choice) (now : Z)
        (postId userId currentDay : string) (c : Z) (items : list json) :
  let voteKey := userVote K postId userId currentDay in
  let countKey :=
    if Streaks.is_cooperate choice
    then dailyCooperateCount K postId currentDay
    else dailyDefectCount K postId currentDay in
  let historyKey := userHistory K postId userId in
  let statsKey := userStats K postId userId in
  let entry := {| Streaks.day := currentDay; Streaks.choice := choice |} in
  userScore K = None ->
  choice <> no_choice ->
  NoDup [voteKey; countKey; historyKey; statsKey] ->
  data σ !! voteKey = None ->
  (data σ !! historyKey = None /\ items = []
   \/ exists text, data σ !! historyKey = Some text /\ String.eqb text "" = false
                   /\ JSON_parse text = Some (JArr items)) ->
  match data σ !! countKey with
  | Some text => redis_int text = Some c
  | None => c = 0
  end ->
  c + 1 < 2 ^ 63 ->
  let '(res, σ', trace) :=
    run (handleVote K false choice now postId userId currentDay) σ in
  res = Returned tt
  /\ data σ'
     = <[historyKey := JSON_stringify (JArr (items ++ [Streaks.entry_to_json entry]))]>
         (<[countKey := String_of_Z (c + 1)]>
            (<[voteKey := JSON_stringify (vote_document choice now currentDay)]>
               (data σ)))
  /\ data σ' !! statsKey = data σ !! statsKey
  /\ is_Some (data σ' !! voteKey)
  /\ last trace = Some (UI ToastFailedToSubmit).
Proof.
  intros voteKey countKey historyKey statsKey entry
         Hgs Hchoice Hkeys Hvote Hhistory Hcount Hrange.
  destruct (NoDup_4 _ _ _ _ Hkeys) as (Hvc & Hvh & Hvs & Hch & Hcs & Hhs).
  assert (Hincr :
    forall τ, data τ !! countKey = data σ !! countKey ->
    incr_by countKey 1 τ
    = (inr (c + 1),
       {| data := <[countKey := String_of_Z (c + 1)]> (data τ);
          expires := expires τ;
          version := touch countKey (version τ) |})).
  { intros τ Hsame. unfold incr_by. rewrite Hsame.
    assert (Hlow : - 2 ^ 63 <= c + 1).
    { destruct (data σ !! countKey) as [text |].
      - unfold redis_int in Hcount.
        destruct (NilZero.int_of_string text); [| discriminate].
        destruct (_ && _) eqn:Hb; [| discriminate].
        injection Hcount as <-.
        apply andb_prop in Hb as [Hb _]. apply andb_prop in Hb as [_ Hb].
        apply Z.leb_le in Hb. lia.
      - subst c. lia. }
    destruct (data σ !! countKey) as [text |].
    - rewrite Hcount.
      rewrite (proj2 (Z.leb_le _ _)) by lia. rewrite (proj2 (Z.ltb_lt _ _)) by lia.
      reflexivity.
    - subst c. reflexivity. }
  unfold handleVote, safeJSONParse.
  destruct choice; [| | contradiction].
  all: rewrite Hgs; simpl.
  all: fold voteKey historyKey statsKey; rewrite Hvote; simpl.
  all: cbn [Streaks.is_cooperate] in countKey; fold countKey.
  all: rewrite (Hincr (write voteKey _ None σ))
         by (cbn [data write]; apply lookup_insert_ne; congruence).
  all: simpl.
  all: destruct Hhistory as [[Hnone ->] | (text & Htext & Hnonempty & Hparse)].
  all: repeat (progress rewrite ?lookup_insert_ne, ?Hnone, ?Htext, ?Hnonempty, ?Hparse
                 by congruence; simpl).
  all: split; [reflexivity |]; split; [reflexivity |]; split; [reflexivity |];
         split; [rewrite lookup_insert_eq; eauto | reflexivity].
Qed.

End FirstVote.

Lemma handleVote_records_first_vote_witness :
  let '(res, σ', trace) :=
    Redis.run (Main.handleVote (H := Reference.host) Scenario.K false Game.defect
                 1770790000000 "p" "u" "2026-02-11") Scenario.settled in
  res = Redis.Returned tt
  /\ Redis.data σ' !! "post:p:day:2026-02-11:defect" = Some "1"
  /\ last trace = Some (Redis.UI Redis.ToastVoteSubmitted).
Proof.
  pose proof (handleVote_records_first_vote (H := Reference.host) Scenario.K
                (fun postId userId => "post:" ++ postId ++ ":user:" ++ userId ++ ":score")%string
                Scenario.settled Game.defect 1770790000000 "p" "u" "2026-02-11" 0
                eq_refl ltac:(discriminate)
                ltac:(apply (bool_decide_unpack _); vm_compute; exact I)
                eq_refl eq_refl eq_refl eq_refl eq_refl ltac:(lia)) as Hrun.
  destruct (Redis.run _ _) as [[res σ'] trace].
  destruct Hrun as (Hres & Hdata & Hlast).
  split; [exact Hres |]. split; [| exact Hlast].
  rewrite Hdata. vm_compute. reflexivity.
Defined.

Lemma handleVote_fails_after_recording_witness :
  let '(res, σ', trace) :=
    Redis.run (Main.handleVote (H := Reference.host) Keys.REDIS_KEYS false Game.defect
                 1770790000000 "p" "u" "2026-02-11") Scenario.settled in
  res = Redis.Returned tt
  /\ Redis.data σ' !! "post:p:day:2026-02-11:defect" = Some "1"
  /\ Redis.data σ' !! "post:p:user:u:stats" = None
  /\ last trace = Some (Redis.UI Redis.ToastFailedToSubmit).
Proof.
  pose proof (handleVote_fails_after_recording (H := Reference.host) Keys.REDIS_KEYS
                Scenario.settled Game.defect 1770790000000 "p" "u" "2026-02-11" 0 []
                eq_refl ltac:(discriminate)
                ltac:(apply (bool_decide_unpack _); vm_compute; exact I)
                eq_refl ltac:(left; split; reflexivity) eq_refl ltac:(lia)) as Hrun.
  destruct (Redis.run _ _) as [[res σ'] trace].
  destruct Hrun as (Hres & Hdata & Hstats & _ & Hlast).
  split; [exact Hres |]. split; [| split; [| exact Hlast]].
  - rewrite Hdata. vm_compute. reflexivity.
  - exact Hstats.
Defined.

(** ** The loaders *)

Section LoadersProperties.
Import JSNumber Binary64 Json Game Redis Keys Main IntString Settlement Loaders.
Context `{Host}.
Variable K : redis_keys.

(** Opening a post on the key table as [REDIS_KEYS] is declared changes
    nothing in the store: the vote loader and the results loader return
    normally after commands that only read or report, and the stats
    loader fails at the score key, before any store command, so that it
    never reaches the calls that settle and award the previous day. *)
Theorem loaders_leave_store_unchanged
        (σ : store) (finalizeId awardId awardFinalizeId : string) (now : Z)
        (postId userId currentDay yesterdayStr : string) :
  userScore K = None ->
  (exists vote trace,
      run (loadTodayVote K postId userId currentDay) σ = (Returned vote, σ, trace)
      /\ Forall (fun c => is_write c = false) trace)
  /\ (exists results trace,
        run (loadTodayResults K postId currentDay) σ = (Returned results, σ, trace)
        /\ Forall (fun c => is_write c = false) trace)
  /\ (exists e,
        run (loadUserStats K finalizeId awardId awardFinalizeId now
               postId userId yesterdayStr) σ
        = (Thrown e, σ, [])).
Proof.
  intros Hscore. split; [| split].
  - unfold loadTodayVote, safeJSONParse. cbn [await bind mbind prog_bind run perform].
    destruct (falsy (data σ !! userVote K postId userId currentDay));
      cbn [negb bind mbind prog_bind run perform];
      [eexists _, _; split; [reflexivity | repeat constructor] |].
    destruct (JSON_parse _) as [vote |];
      cbn [await bind mbind prog_bind run perform];
      [destruct (truthy_opt (prop vote "choice")) |];
      cbn [truthy_opt prop await bind mbind prog_bind run perform];
      eexists _, _; (split; [reflexivity | repeat constructor]).
  - unfold loadTodayResults, safeJSONParse. cbn [await bind mbind prog_bind run perform].
    destruct (falsy (data σ !! dailyResults K postId currentDay));
      cbn [negb bind mbind prog_bind run perform];
      [eexists _, _; split; [reflexivity | repeat constructor] |].
    destruct (JSON_parse _) as [results |];
      cbn [await bind mbind prog_bind run perform];
      [destruct (truthy results) |];
      cbn [await bind mbind prog_bind run perform];
      eexists _, _; (split; [reflexivity | repeat constructor]).
  - unfold loadUserStats. rewrite Hscore. cbn [member bind mbind prog_bind run]. eauto.
Qed.

Lemma live_results_document (day : string) (c d : Z) :
  0 <= c -> 0 <= d -> 0 < c + d < 2 ^ 53 ->
  live_results day (of_Z c) (of_Z d) = results_document day (of_Z c) (of_Z d).
Proof.
  intros Hc Hd Hsum. unfold live_results, results_document. cbv zeta.
  rewrite add_counts by lia.
  rewrite count_positive by lia. reflexivity.
Qed.

(** The results shown during the day are the ones that will be stored:
    while no results are cached for a day and its counters read as [c]
    and [d], with at least one vote, the results loader returns, after
    three reads and without writing, the document that the finalizer
    builds from these counts.  On a key table that defines the
    finalize-lock key, with the lock free, an uninterrupted run of the
    finalizer then stores this very document for the day. *)
Theorem loadTodayResults_previews_settlement
        (σ : store) (postId day : string) (c d : Z) :
  let resultsKey := dailyResults K postId day in
  let cooperateKey := dailyCooperateCount K postId day in
  let defectKey := dailyDefectCount K postId day in
  let preview := results_document day (of_Z c) (of_Z d) in
  falsy (data σ !! resultsKey) = true ->
  parseInt (or_else (data σ !! cooperateKey) "0") = Some c ->
  parseInt (or_else (data σ !! defectKey) "0") = Some d ->
  0 <= c -> 0 <= d -> 0 < c + d < 2 ^ 53 ->
  run (loadTodayResults K postId day) σ
  = (Returned preview, σ, [GET resultsKey; GET cooperateKey; GET defectKey])
  /\ (forall (g : string -> string -> string) (lockId : string) (now : Z),
        dailyFinalizeLock K = Some g ->
        NoDup [g postId day; dailyFinalized K postId day; resultsKey;
               cooperateKey; defectKey] ->
        data σ !! g postId day = None ->
        let '(_, σ', _) := run (finalizeDailyResults K lockId now postId day) σ in
        data σ' !! resultsKey = Some (JSON_stringify preview)).
Proof.
  intros resultsKey cooperateKey defectKey preview Hcached Hc Hd Hc0 Hd0 Hsum.
  split.
  - unfold loadTodayResults. simpl.
    fold resultsKey cooperateKey defectKey.
    rewrite Hcached. simpl. unfold count_or_zero. rewrite Hc, Hd. simpl.
    rewrite live_results_document by lia. reflexivity.
  - intros g lockId now Hg Hkeys Hlock.
    pose proof (finalizeDailyResults_run K g σ lockId now postId day Hg Hkeys) as Hrun.
    destruct (run (finalizeDailyResults K lockId now postId day) σ) as [[res σ'] trace].
    destruct Hrun as [_ Hdata]. rewrite Hdata.
    unfold finalized_data. cbv zeta.
    fold resultsKey cooperateKey defectKey.
    rewrite Hlock, Hcached. cbn [negb]. rewrite Hc, Hd.
    rewrite !count_is_zero by lia.
    assert (Hfr : dailyFinalized K postId day <> resultsKey).
    { intros E. inversion_clear Hkeys as [| ? ? _ Hrest].
      inversion_clear Hrest as [| ? ? Hnotin _]. apply Hnotin. rewrite E. left. }
    destruct (Z.eqb_spec c 0), (Z.eqb_spec d 0); try lia;
      cbn [andb]; rewrite lookup_insert_ne by exact Hfr; apply lookup_insert_eq.
Qed.

End LoadersProperties.

Lemma loaders_leave_store_unchanged_witness :
  (exists vote trace,
      Redis.run (Loaders.loadTodayVote (H := Reference.host) Keys.REDIS_KEYS
                   "p" "u" Scenario.day1) Scenario.settled
      = (Redis.Returned vote, Scenario.settled, trace)
      /\ Forall (fun c => Redis.is_write c = false) trace)
  /\ (exists results trace,
        Redis.run (Loaders.loadTodayResults (H := Reference.host) Keys.REDIS_KEYS
                     "p" Scenario.day1) Scenario.settled
        = (Redis.Returned results, Scenario.settled, trace)
        /\ Forall (fun c => Redis.is_write c = false) trace)
  /\ (exists e,
        Redis.run (Loaders.loadUserStats (H := Reference.host) Keys.REDIS_KEYS
                     "1770800000000-f" "1770800000000-a" "1770800000000-fa"
                     1770800000000 "p" "u" "2026-02-09") Scenario.settled
        = (Redis.Thrown e, Scenario.settled, [])).
Proof.
  apply (loaders_leave_store_unchanged (H := Reference.host) Keys.REDIS_KEYS).
  reflexivity.
Defined.

Lemma loadTodayResults_previews_settlement_witness :
  Redis.run (Loaders.loadTodayResults (H := Reference.host) Keys.REDIS_KEYS
               "p" Scenario.day1) Counted.counted
  = (Redis.Returned
       (Main.results_document Scenario.day1 (JSNumber.of_Z 7) (JSNumber.of_Z 3)),
     Counted.counted,
     [Redis.GET (Keys.dailyResults Keys.REDIS_KEYS "p" Scenario.day1);
      Redis.GET (Keys.dailyCooperateCount Keys.REDIS_KEYS "p" Scenario.day1);
      Redis.GET (Keys.dailyDefectCount Keys.REDIS_KEYS "p" Scenario.day1)])
  /\ (forall (g : string -> string -> string) (lockId : string) (now : Z),
        Keys.dailyFinalizeLock Keys.REDIS_KEYS = Some g ->
        NoDup [g "p" Scenario.day1;
               Keys.dailyFinalized Keys.REDIS_KEYS "p" Scenario.day1;
               Keys.dailyResults Keys.REDIS_KEYS "p" Scenario.day1;
               Keys.dailyCooperateCount Keys.REDIS_KEYS "p" Scenario.day1;
               Keys.dailyDefectCount Keys.REDIS_KEYS "p" Scenario.day1] ->
        Redis.data Counted.counted !! g "p" Scenario.day1 = None ->
        let '(_, σ', _) :=
          Redis.run (Main.finalizeDailyResults (H := Reference.host) Keys.REDIS_KEYS
                       lockId now "p" Scenario.day1) Counted.counted in
        Redis.data σ' !! Keys.dailyResults Keys.REDIS_KEYS "p" Scenario.day1
        = Some (Reference.stringify
                  (Main.results_document Scenario.day1 (JSNumber.of_Z 7)
                     (JSNumber.of_Z 3)))).
Proof.
  apply (loadTodayResults_previews_settlement (H := Reference.host) Keys.REDIS_KEYS
           Counted.counted "p" Scenario.day1 7 3).
  - reflexivity.
  - vm_compute. reflexivity.
  - vm_compute. reflexivity.
  - lia.
  - lia.
  - lia.
Defined.

(** The same day on the table completed with a lock key: the finalizer
    stores the document that the loader showed. *)
Example loadTodayResults_preview_is_stored :
  let '(_, σ', _) :=
    Redis.run (Main.finalizeDailyResults (H := Reference.host) Scenario.K
                 "1770800000000-f" 1770800000000 "p" Scenario.day1) Counted.counted in
  Redis.run (Loaders.loadTodayResults (H := Reference.host) Scenario.K
               "p" Scenario.day1) Counted.counted
  = (Redis.Returned
       (Main.results_document Scenario.day1 (JSNumber.of_Z 7) (JSNumber.of_Z 3)),
     Counted.counted,
     [Redis.GET Scenario.resultsKey1;
      Redis.GET "post:p:day:2026-02-10:cooperate";
      Redis.GET "post:p:day:2026-02-10:defect"])
  /\ Redis.data σ' !! Scenario.resultsKey1
     = Some (Reference.stringify
               (Main.results_document Scenario.day1 (JSNumber.of_Z 7)
                  (JSNumber.of_Z 3))).
Proof. vm_compute. split; reflexivity. Qed.

Section StatsLoader.
Import JSNumber Binary64 Json Game Redis Keys Main IntString Loaders.
Context `{Host}.
Variable K : redis_keys.

(** Running a sequence uninterrupted is running its parts one after the
    other. *)
Lemma run_bind {A B} (p : prog A) (f : A -> prog B) (σ : store) :
  run (bind p f) σ
  = let '(r, σ1, t1) := run p σ in
    match r with
    | Returned a => let '(r2, σ2, t2) := run (f a) σ1 in (r2, σ2, (t1 ++ t2)%list)
    | Thrown e => (Thrown e, σ1, t1)
    | Unmodelled why => (Unmodelled why, σ1, t1)
    end.
Proof.
  revert σ. induction p as [a | e | why | c k IH]; intros σ; cbn [bind run].
  - destruct (run (f a) σ) as [[r2 σ2] t2]. reflexivity.
  - reflexivity.
  - reflexivity.
  - destruct (perform c σ) as [r σ']. rewrite IH.
    destruct (run (k r) σ') as [[res σ1] t1].
    destruct res as [a | e | why]; [| reflexivity | reflexivity].
    destruct (run (f a) σ1) as [[r2 σ2] t2]. reflexivity.
Qed.

(** The score that the stats loader shows, on a key table with the score
    key: once the settlement and the award of the previous day have
    returned, the loader reads the stats document and the score key and
    returns the document with its total replaced by the integer of the
    score key.  Only when the score key is empty is the total of the
    document shown, and then, if it is positive, copied to the score key
    with a set-if-absent; the loader writes nothing else of its own. *)
Theorem loadUserStats_shows_score_key
        (gs : string -> string -> string) (σ σ1 σ2 : store)
        (finalizeId awardId awardFinalizeId : string) (now : Z)
        (postId userId yesterdayStr statsText : string)
        (t1 t2 : list cmd) (members : list (string * json)) (s : Z) :
  let statsKey := userStats K postId userId in
  let scoreKey := gs postId userId in
  let migrate := falsy (data σ2 !! scoreKey) && (0 <? s) in
  userScore K = Some gs ->
  run (finalizeDailyResults K finalizeId now postId yesterdayStr) σ
  = (Returned tt, σ1, t1) ->
  run (awardUserPoints K awardId awardFinalizeId now postId userId yesterdayStr) σ1
  = (Returned tt, σ2, t2) ->
  data σ2 !! statsKey = Some statsText -> String.eqb statsText "" = false ->
  JSON_parse statsText = Some (JObj members) ->
  (if falsy (data σ2 !! scoreKey)
   then stored_total (JObj members) = JNum s
   else parseInt (or_else (data σ2 !! scoreKey) "0") = Some s) ->
  run (loadUserStats K finalizeId awardId awardFinalizeId now
         postId userId yesterdayStr) σ
  = (Returned (set_prop "totalScore" (JNum s) (JObj members)),
     (if migrate then snd (perform (SET_NX scoreKey (String_of_Z s) None) σ2) else σ2),
     (t1 ++ t2 ++ [GET statsKey; GET scoreKey]
      ++ (if migrate then [SET_NX scoreKey (String_of_Z s) None] else []))%list).
Proof.
  intros statsKey scoreKey migrate Hscore Hfin Haward Hstats Hnonempty Hparse Htotal.
  unfold loadUserStats. rewrite Hscore. cbn [member].
  unfold mbind, prog_bind. cbn [bind].
  rewrite run_bind, Hfin, run_bind, Haward.
  fold statsKey scoreKey. cbn [await bind run perform].
  rewrite Hstats. unfold safeJSONParse. cbn [falsy or_else].
  rewrite Hnonempty, Hparse. cbn [negb bind truthy].
  unfold migrate. clear migrate.
  destruct (falsy (data σ2 !! scoreKey)) eqn:Hempty; cbn [negb andb].
  - rewrite Htotal. cbn [positive String_of].
    destruct (0 <? s); cbn [bind run perform set_prop].
    + destruct (data σ2 !! scoreKey) as [text |]; cbn [bind run snd]; reflexivity.
    + reflexivity.
  - unfold count_or_zero. rewrite Htotal. cbn [default bind run set_prop].
    reflexivity.
Qed.

End StatsLoader.

Lemma loadUserStats_shows_score_key_witness :
  Redis.run (Loaders.loadUserStats (H := Reference.host) Scenario.K
               "1770811200123-f" "1770811200123-a" "1770811200123-fa" 1770811200123
               "p" "u" Scenario.day1) Returning.opened
  = (Redis.Returned (Json.set_prop "totalScore" (Json.JNum 7) Returning.stored_stats),
     (if Main.falsy (Redis.data (snd (fst Returning.awarded)) !! Scenario.scoreKey)
         && (0 <? 7)
      then snd (Redis.perform
                  (Redis.SET_NX Scenario.scoreKey (IntString.String_of_Z 7) None)
                  (snd (fst Returning.awarded)))
      else snd (fst Returning.awarded)),
     (snd Returning.finalized ++ snd Returning.awarded
      ++ [Redis.GET Returning.statsKey; Redis.GET Scenario.scoreKey]
      ++ (if Main.falsy (Redis.data (snd (fst Returning.awarded)) !! Scenario.scoreKey)
             && (0 <? 7)
          then [Redis.SET_NX Scenario.scoreKey (IntString.String_of_Z 7) None]
          else []))%list).
Proof.
  apply (loadUserStats_shows_score_key (H := Reference.host) Scenario.K
           (fun postId userId => "post:" ++ postId ++ ":user:" ++ userId ++ ":score")
           Returning.opened (snd (fst Returning.finalized)) (snd (fst Returning.awarded))
           "1770811200123-f" "1770811200123-a" "1770811200123-fa" 1770811200123
           "p" "u" Scenario.day1 (Reference.stringify Returning.stored_stats)).
  - reflexivity.
  - vm_compute. reflexivity.
  - vm_compute. reflexivity.
  - vm_compute. reflexivity.
  - vm_compute. reflexivity.
  - vm_compute. reflexivity.
  - vm_compute. reflexivity.
Defined.

(** ** The day of the game *)

Section CalendarDay.
Import Game Date GameClock IntString Streaks.

Lemma DayFromYear_succ (y : Z) : DayFromYear (y + 1) = DayFromYear y + DaysInYear y.
Proof.
  unfold DayFromYear, DaysInYear.
  repeat match goal with |- context [?a =? ?b] => destruct (Z.eqb_spec a b) end;
    cbn [negb]; Z.div_mod_to_equations; lia.
Qed.

Lemma DayFromYear_lt (a b : Z) : a < b -> DayFromYear a < DayFromYear b.
Proof.
  intros Hab. unfold DayFromYear. Z.div_mod_to_equations. lia.
Qed.

Lemma year_estimate (day : Z) :
  let y := 1970 + day * 400 / 146097 in
  DayFromYear (y - 1) <= day < DayFromYear (y + 2).
Proof.
  intros y. subst y. unfold DayFromYear. Z.div_mod_to_equations. lia.
Qed.

(** [YearFromTime] has the property by which the standard defines it. *)
Lemma YearFromTime_spec (t : Z) :
  DayFromYear (YearFromTime t) <= Day t < DayFromYear (YearFromTime t + 1).
Proof.
  unfold YearFromTime. cbv zeta.
  pose proof (year_estimate (Day t)) as Hest. cbv zeta in Hest.
  set (y := 1970 + Day t * 400 / 146097) in *.
  replace (y + 2) with (y + 1 + 1) in Hest by ring.
  destruct (Z.leb_spec (DayFromYear (y + 1)) (Day t)); [lia |].
  destruct (Z.leb_spec (DayFromYear y) (Day t)); [lia |].
  replace (y - 1 + 1) with y by ring. lia.
Qed.

Lemma YearFromTime_unique (t y : Z) :
  DayFromYear y <= Day t < DayFromYear (y + 1) -> YearFromTime t = y.
Proof.
  intros Hy. pose proof (YearFromTime_spec t) as Hspec.
  destruct (Z.lt_trichotomy (YearFromTime t) y) as [Hlt | [Heq | Hgt]]; [| exact Heq |].
  - assert (YearFromTime t + 1 <= y) as Hle by lia.
    destruct (Z.eq_dec (YearFromTime t + 1) y) as [E | E].
    + rewrite E in Hspec. lia.
    + pose proof (DayFromYear_lt (YearFromTime t + 1) y ltac:(lia)). lia.
  - destruct (Z.eq_dec (y + 1) (YearFromTime t)) as [E | E].
    + rewrite <- E in Hspec. lia.
    + pose proof (DayFromYear_lt (y + 1) (YearFromTime t) ltac:(lia)). lia.
Qed.

Lemma leap_cases (y : Z) :
  (leap y = 0 /\ DaysInYear y = 365) \/ (leap y = 1 /\ DaysInYear y = 366).
Proof.
  unfold leap. destruct (Z.eqb_spec (DaysInYear y) 366) as [E | E]; [auto |].
  left. split; [reflexivity |]. unfold DaysInYear in *.
  destruct (negb (y mod 4 =? 0)); [reflexivity |].
  destruct (negb (y mod 100 =? 0)); [contradiction |].
  destruct (negb (y mod 400 =? 0)); [reflexivity | contradiction].
Qed.

Lemma february_length (y : Z) :
  (if Reference.is_leap y then 29 else 28) = 28 + leap y.
Proof.
  unfold Reference.is_leap, leap, DaysInYear.
  destruct (Z.eqb_spec (y mod 4) 0) as [H4 | H4];
    destruct (Z.eqb_spec (y mod 100) 0) as [H100 | H100];
    destruct (Z.eqb_spec (y mod 400) 0) as [H400 | H400];
    cbn; try reflexivity; exfalso; Z.div_mod_to_equations; lia.
Qed.

Lemma DayWithinYear_bounds (t : Z) :
  0 <= DayWithinYear t < DaysInYear (YearFromTime t).
Proof.
  unfold DayWithinYear. pose proof (YearFromTime_spec t) as Hspec.
  rewrite DayFromYear_succ in Hspec. lia.
Qed.

Lemma days_in_month_table (y : Z) :
  Reference.days_in_month y 1 = 31
  /\ Reference.days_in_month y 2 = 28 + leap y
  /\ Reference.days_in_month y 3 = 31
  /\ Reference.days_in_month y 4 = 30
  /\ Reference.days_in_month y 5 = 31
  /\ Reference.days_in_month y 6 = 30
  /\ Reference.days_in_month y 7 = 31
  /\ Reference.days_in_month y 8 = 31
  /\ Reference.days_in_month y 9 = 30
  /\ Reference.days_in_month y 10 = 31
  /\ Reference.days_in_month y 11 = 30
  /\ Reference.days_in_month y 12 = 31.
Proof.
  repeat split; try reflexivity.
  unfold Reference.days_in_month. change (2 =? 2) with true. cbv iota.
  apply february_length.
Qed.

Ltac month_number :=
  match goal with
  | |- context [Reference.days_in_month ?y (?m + 1)] =>
      let v := eval vm_compute in (m + 1) in change (m + 1) with v
  end.

(** The month and the date that a time value is read as. *)
Lemma month_date_cases (t : Z) :
  let m := MonthFromTime t in
  let d := DateFromTime t in
  0 <= m <= 11 /\ 1 <= d
  /\ d <= Reference.days_in_month (YearFromTime t) (m + 1)
  /\ FirstOfMonth (YearFromTime t) m + d - 1 = Day t.
Proof.
  cbv zeta. unfold DateFromTime, FirstOfMonth. cbv zeta.
  unfold MonthFromTime. cbv zeta. unfold InLeapYear.
  pose proof (DayWithinYear_bounds t) as Hdwy.
  assert (Hday : Day t = DayFromYear (YearFromTime t) + DayWithinYear t)
    by (unfold DayWithinYear; ring).
  rewrite Hday.
  destruct (days_in_month_table (YearFromTime t))
    as (H1 & H2 & H3 & H4 & H5 & H6 & H7 & H8 & H9 & H10 & H11 & H12).
  generalize dependent (DayWithinYear t). intros d Hd _.
  destruct (leap_cases (YearFromTime t)) as [[Hleap Hlen] | [Hleap Hlen]];
    rewrite Hleap in *; rewrite Hlen in Hd;
    repeat match goal with
           | |- context [?a <? ?b] =>
               destruct (Z.ltb_spec a b); [cbn; month_number; lia |]
           end; cbn; month_number; lia.
Qed.

Ltac closed_successor :=
  repeat match goal with
         | |- context [Z.pos ?p + 1] =>
             let v := eval vm_compute in (Z.pos p + 1) in change (Z.pos p + 1) with v
         | |- context [0 + 1] => change (0 + 1) with 1
         end.

(** The day count of the reference parser is the day number of the
    standard. *)
Lemma days_from_civil_FirstOfMonth (y m d : Z) :
  0 <= m <= 11 ->
  Reference.days_from_civil y (m + 1) d = FirstOfMonth y m + d - 1.
Proof.
  intros Hm.
  assert (Hcases : m = 0 \/ m = 1 \/ m = 2 \/ m = 3 \/ m = 4 \/ m = 5 \/ m = 6
                   \/ m = 7 \/ m = 8 \/ m = 9 \/ m = 10 \/ m = 11) by lia.
  unfold Reference.days_from_civil, FirstOfMonth, DayFromYear, leap, DaysInYear.
  cbv zeta.
  destruct (Z.eqb_spec (y mod 4) 0) as [H4 | H4];
    destruct (Z.eqb_spec (y mod 100) 0) as [H100 | H100];
    destruct (Z.eqb_spec (y mod 400) 0) as [H400 | H400];
    cbn [negb];
    repeat (destruct Hcases as [-> | Hcases]); try subst m;
    closed_successor; cbn; Z.div_mod_to_equations; lia.
Qed.

(** [FirstOfMonth] gives the day that [MakeDay] looks for. *)
Lemma FirstOfMonth_spec (ym mn : Z) :
  0 <= mn <= 11 ->
  let t := msPerDay * FirstOfMonth ym mn in
  YearFromTime t = ym /\ MonthFromTime t = mn /\ DateFromTime t = 1.
Proof.
  intros Hmn t.
  assert (Hday : Day t = FirstOfMonth ym mn).
  { unfold t, Day. rewrite Z.mul_comm. apply Z.div_mul. discriminate. }
  assert (Hcases : mn = 0 \/ mn = 1 \/ mn = 2 \/ mn = 3 \/ mn = 4 \/ mn = 5 \/ mn = 6
                   \/ mn = 7 \/ mn = 8 \/ mn = 9 \/ mn = 10 \/ mn = 11) by lia.
  assert (Hyear : YearFromTime t = ym).
  { apply YearFromTime_unique. rewrite Hday, DayFromYear_succ. unfold FirstOfMonth.
    cbv zeta. destruct (leap_cases ym) as [[-> ->] | [-> ->]];
      repeat (destruct Hcases as [-> | Hcases]); try subst mn; cbn; lia. }
  unfold DateFromTime, MonthFromTime, InLeapYear, DayWithinYear. cbv zeta.
  rewrite Hyear, Hday. unfold FirstOfMonth. cbv zeta.
  split; [reflexivity |].
  destruct (leap_cases ym) as [[-> _] | [-> _]];
    repeat (destruct Hcases as [-> | Hcases]); try subst mn;
    match goal with
    | |- context [DayFromYear ym + ?k - DayFromYear ym] =>
        let v := eval vm_compute in k in
        replace (DayFromYear ym + k - DayFromYear ym) with v by (cbn; lia)
    end; split; reflexivity.
Qed.

Example getCurrentDay_documented :
  getCurrentDay 1770768000000 = "2026-02-11"
  /\ getCurrentDay 1770854399999 = "2026-02-11"
  /\ getCurrentDay 1709251199999 = "2024-02-29"
  /\ getNextMidnightUTC 1709251199999 = Some 1709251200000
  /\ getCurrentDay 1709251200000 = "2024-03-01".
Proof. vm_compute. repeat split. Qed.

Lemma from_to_elem (first count z : Z) :
  first <= z < first + count -> In z (from_to first count).
Proof.
  intros Hz. unfold from_to. apply list_elem_of_In, list_elem_of_fmap.
  exists (Z.to_nat (z - first)). split; [lia |].
  apply elem_of_seq. lia.
Qed.

Lemma uint_value_of_uint_acc (l : Decimal.uint) (a : positive) :
  Z.pos (Pos.of_uint_acc l a) = uint_value l (Z.pos a).
Proof.
  revert a. induction l as [| l IH | l IH | l IH | l IH | l IH | l IH | l IH | l IH
                            | l IH | l IH]; intros a;
    cbn [Pos.of_uint_acc uint_value]; [reflexivity | ..];
    rewrite IH; f_equal; lia.
Qed.

Lemma uint_value_of_uint (u : Decimal.uint) : Z.of_N (Pos.of_uint u) = uint_value u 0.
Proof.
  induction u as [| l IH | l IH | l IH | l IH | l IH | l IH | l IH | l IH
                  | l IH | l IH];
    cbn [Pos.of_uint uint_value]; [reflexivity | exact IH | ..];
    cbn [Z.of_N]; rewrite uint_value_of_uint_acc; reflexivity.
Qed.

Lemma uint_value_bounds (l : Decimal.uint) :
  forall acc,
  uint_value l acc = acc * 10 ^ Z.of_nat (Decimal.nb_digits l) + uint_value l 0
  /\ 0 <= uint_value l 0 < 10 ^ Z.of_nat (Decimal.nb_digits l).
Proof.
  induction l as [| l IH | l IH | l IH | l IH | l IH | l IH | l IH | l IH
                  | l IH | l IH]; intros acc;
    cbn [uint_value Decimal.nb_digits];
    [change (10 ^ Z.of_nat 0) with 1; lia | ..];
    rewrite Nat2Z.inj_succ, Z.pow_succ_r by lia;
    match goal with
    | |- uint_value l (10 * acc + ?k) = _ /\ _ =>
        destruct (IH (10 * acc + k)) as [Ha Hb];
        destruct (IH (10 * 0 + k)) as [Hc _];
        rewrite Ha, Hc; split; [ring | lia]
    end.
Qed.

Lemma read_digits_uint (u : Decimal.uint) :
  forall acc,
  Reference.read_digits (NilEmpty.string_of_uint u) acc = (uint_value u acc, "").
Proof.
  induction u as [| l IH | l IH | l IH | l IH | l IH | l IH | l IH | l IH
                  | l IH | l IH]; intros acc;
    cbn [NilEmpty.string_of_uint Reference.read_digits uint_value];
    [reflexivity | ..];
    match goal with
    | |- (if ?t then _ else _) = _ => change t with true
    end; cbv iota; rewrite IH; reflexivity.
Qed.

Lemma uint_first_digit (u : Decimal.uint) (n : nat) :
  Decimal.nb_digits u = S n ->
  exists c l,
    NilEmpty.string_of_uint u = String c (NilEmpty.string_of_uint l)
    /\ Streaks.is_digit c = true /\ Decimal.nb_digits l = n.
Proof.
  intros Hn. destruct u as [| l | l | l | l | l | l | l | l | l | l];
    [discriminate Hn | ..]; injection Hn as Hn;
    eexists _, l; (split; [reflexivity | split; [reflexivity | exact Hn]]).
Qed.

(** A normalised numeral starts with [0] only when it is [0]. *)
Lemma unorm_fixed_head (d l : Decimal.uint) :
  Decimal.unorm d = Decimal.D0 l -> l = Decimal.Nil.
Proof.
  induction d as [| d IH | d _ | d _ | d _ | d _ | d _ | d _ | d _ | d _ | d _];
    cbn [Decimal.unorm]; intros Hd; try discriminate Hd.
  - injection Hd as <-. reflexivity.
  - apply IH. exact Hd.
Qed.

(** The text of a number of four digits. *)
Lemma four_digits_year (y : Z) : 1000 <= y <= 9999 -> four_digits y = true.
Proof.
  intros Hy. destruct y as [| p |]; try lia.
  set (u := Pos.to_uint p).
  assert (Hvalue : uint_value u 0 = Z.pos p).
  { rewrite <- uint_value_of_uint. unfold u.
    rewrite DecimalPos.Unsigned.of_to. reflexivity. }
  assert (Hnorm : Decimal.unorm u = u).
  { rewrite <- DecimalPos.Unsigned.to_of. unfold u.
    rewrite DecimalPos.Unsigned.of_to. reflexivity. }
  assert (Hlen : Decimal.nb_digits u = 4%nat).
  { destruct u as [| l | l | l | l | l | l | l | l | l | l] eqn:Hu;
      [discriminate Hvalue | ..];
      try (apply unorm_fixed_head in Hnorm; subst l; discriminate Hvalue);
      cbn [uint_value Decimal.nb_digits] in *;
      match type of Hvalue with
      | uint_value l (10 * 0 + ?k) = _ =>
          destruct (uint_value_bounds l (10 * 0 + k)) as [Ha Hb]
      end;
      rewrite Ha in Hvalue; f_equal;
      destruct (Decimal.nb_digits l) as [| [| [| [| n]]]];
      try reflexivity; exfalso;
      try (change (10 ^ Z.of_nat 0) with 1 in *; lia);
      try (change (10 ^ Z.of_nat 1) with 10 in *; lia);
      try (change (10 ^ Z.of_nat 2) with 100 in *; lia);
      assert (10 ^ 4 <= 10 ^ Z.of_nat (S (S (S (S n)))))
        by (apply Z.pow_le_mono_r; lia);
      change (10 ^ 4) with 10000 in *; lia. }
  assert (Htext : String_of_Z (Z.pos p) = NilEmpty.string_of_uint u).
  { unfold String_of_Z. cbn [Z.to_int NilZero.string_of_int]. fold u.
    destruct u; [discriminate Hlen | reflexivity ..]. }
  pose proof (read_digits_uint u 0) as Hread. rewrite Hvalue in Hread.
  destruct (uint_first_digit u 3 Hlen) as (a & u1 & Eu & Ha & Hlen1).
  destruct (uint_first_digit u1 2 Hlen1) as (b & u2 & Eu1 & Hb & Hlen2).
  destruct (uint_first_digit u2 1 Hlen2) as (c & u3 & Eu2 & Hc & Hlen3).
  destruct (uint_first_digit u3 0 Hlen3) as (d & u4 & Eu3 & Hd & Hlen4).
  destruct u4; try discriminate Hlen4.
  cbn [NilEmpty.string_of_uint] in Eu3.
  rewrite Eu, Eu1, Eu2, Eu3 in Hread, Htext.
  unfold four_digits. rewrite Htext. unfold digit. rewrite Ha, Hb, Hc, Hd.
  cbn [andb]. apply Z.eqb_eq.
  cbn [Reference.read_digits] in Hread.
  change (IntString.is_digit a) with (Streaks.is_digit a) in Hread.
  change (IntString.is_digit b) with (Streaks.is_digit b) in Hread.
  change (IntString.is_digit c) with (Streaks.is_digit c) in Hread.
  change (IntString.is_digit d) with (Streaks.is_digit d) in Hread.
  rewrite Ha, Hb, Hc, Hd in Hread. injection Hread as Hread. lia.
Qed.

Lemma two_digits_number (n : Z) : 1 <= n <= 31 -> two_digits n = true.
Proof.
  intros Hn.
  assert (Hall : forallb two_digits (from_to 1 31) = true)
    by (vm_compute; reflexivity).
  rewrite forallb_forall in Hall. apply Hall, from_to_elem. lia.
Qed.

Lemma year_range (now : Z) :
  - 30610224000000 <= now < 253402300800000 -> 1000 <= YearFromTime now <= 9999.
Proof.
  intros Hnow. pose proof (YearFromTime_spec now) as Hspec.
  assert (Hday : DayFromYear 1000 <= Day now < DayFromYear 10000).
  { change (DayFromYear 1000) with (- 354285). change (DayFromYear 10000) with 2932897.
    unfold Day, msPerDay. Z.div_mod_to_equations. lia. }
  split.
  - destruct (Z.le_gt_cases 1000 (YearFromTime now)) as [Hle | Hgt]; [exact Hle |].
    destruct (Z.eq_dec (YearFromTime now + 1) 1000) as [E | E].
    + rewrite E in Hspec. lia.
    + pose proof (DayFromYear_lt (YearFromTime now + 1) 1000 ltac:(lia)). lia.
  - destruct (Z.le_gt_cases (YearFromTime now) 9999) as [Hle | Hgt]; [exact Hle |].
    destruct (Z.eq_dec (YearFromTime now) 10000) as [E | E].
    + rewrite E in Hspec. lia.
    + pose proof (DayFromYear_lt 10000 (YearFromTime now) ltac:(lia)). lia.
Qed.

Lemma days_in_month_le (y m : Z) : Reference.days_in_month y m <= 31.
Proof.
  unfold Reference.days_in_month.
  destruct (m =? 2); [destruct (Reference.is_leap y); lia |].
  destruct ((m =? 4) || (m =? 6) || (m =? 9) || (m =? 11)); lia.
Qed.

(** The text of the day: four digits, two digits and two digits that
    read as the year, the month and the date of the time value. *)
Lemma getCurrentDay_text (now : Z) :
  1000 <= YearFromTime now <= 9999 ->
  exists y1 y2 y3 y4 m1 m2 d1 d2 : ascii,
    getCurrentDay now
    = String y1 (String y2 (String y3 (String y4 (String "-"
        (String m1 (String m2 (String "-" (String d1 (String d2 "")))))))))
    /\ Forall (fun c => Streaks.is_digit c = true) [y1; y2; y3; y4; m1; m2; d1; d2]
    /\ 1000 * digit_value y1 + 100 * digit_value y2 + 10 * digit_value y3
       + digit_value y4 = YearFromTime now
    /\ 10 * digit_value m1 + digit_value m2 = MonthFromTime now + 1
    /\ 10 * digit_value d1 + digit_value d2 = DateFromTime now.
Proof.
  intros Hyear.
  pose proof (month_date_cases now) as (Hm & Hd1 & Hd2 & _).
  pose proof (days_in_month_le (YearFromTime now) (MonthFromTime now + 1)) as Hd3.
  pose proof (four_digits_year _ Hyear) as Hy.
  pose proof (two_digits_number (MonthFromTime now + 1) ltac:(lia)) as Hmt.
  pose proof (two_digits_number (DateFromTime now) ltac:(lia)) as Hdt.
  unfold getCurrentDay. cbv zeta.
  unfold four_digits in Hy. unfold two_digits in Hmt, Hdt.
  destruct (String_of_Z (YearFromTime now)) as [| y1 [| y2 [| y3 [| y4 [| ? ?]]]]];
    try discriminate Hy.
  destruct (padStart 2 (String_of_Z (MonthFromTime now + 1))) as [| m1 [| m2 [| ? ?]]];
    try discriminate Hmt.
  destruct (padStart 2 (String_of_Z (DateFromTime now))) as [| d1 [| d2 [| ? ?]]];
    try discriminate Hdt.
  unfold digit in *.
  repeat match goal with
         | H : _ && _ = true |- _ => apply andb_prop in H as [? ?]
         end.
  exists y1, y2, y3, y4, m1, m2, d1, d2.
  split; [reflexivity |]. split; [repeat constructor; assumption |].
  repeat split; apply Z.eqb_eq; assumption.
Qed.

Lemma MS_PER_DAY_msPerDay : MS_PER_DAY = msPerDay.
Proof. reflexivity. Qed.

(** On the reference host the day of a time value parses back to the
    midnight that starts its day. *)
Lemma iso_date_getCurrentDay (now : Z) :
  1000 <= YearFromTime now <= 9999 ->
  Reference.iso_date (getCurrentDay now) = Some (setUTCHours0 now).
Proof.
  intros Hyear.
  destruct (getCurrentDay_text now Hyear)
    as (y1 & y2 & y3 & y4 & m1 & m2 & d1 & d2 & -> & Hdigits & Hy & Hm & Hd).
  pose proof (month_date_cases now) as (Hmonth & Hd1 & Hd2 & Hday).
  cbv zeta in Hmonth, Hd1, Hd2, Hday.
  repeat match goal with
         | H : Forall _ (_ :: _) |- _ => inversion_clear H
         end.
  unfold Reference.iso_date, legacy_day_format.
  cbn [list_ascii_of_string String.substring Reference.read_digits fst].
  repeat match goal with
         | H : Streaks.is_digit ?c = true |- _ =>
             rewrite ?H; change (IntString.is_digit c) with (Streaks.is_digit c);
             rewrite ?H; clear H
         end.
  cbn [andb Ascii.eqb Bool.eqb Reference.read_digits fst].
  replace (10 * (10 * (10 * (10 * 0 + digit_value y1) + digit_value y2)
                 + digit_value y3) + digit_value y4)
    with (YearFromTime now) by lia.
  replace (10 * (10 * 0 + digit_value m1) + digit_value m2)
    with (MonthFromTime now + 1) by lia.
  replace (10 * (10 * 0 + digit_value d1) + digit_value d2)
    with (DateFromTime now) by lia.
  destruct (Z.leb_spec 1 (MonthFromTime now + 1)); [| lia].
  destruct (Z.leb_spec (MonthFromTime now + 1) 12); [| lia].
  destruct (Z.leb_spec 1 (DateFromTime now)); [| lia].
  destruct (Z.leb_spec (DateFromTime now)
              (Reference.days_in_month (YearFromTime now) (MonthFromTime now + 1)));
    [| lia].
  cbn [andb]. f_equal.
  rewrite days_from_civil_FirstOfMonth by lia. rewrite Hday.
  rewrite setUTCHours0_day. unfold Day. rewrite MS_PER_DAY_msPerDay. ring.
Qed.

Lemma colon_free_digit (c : ascii) :
  Streaks.is_digit c = true -> negb (Ascii.eqb c ":") = true.
Proof.
  intros Hc. destruct (Ascii.eqb_spec c ":") as [-> | _]; [discriminate Hc | reflexivity].
Qed.

(** From year 1000 through year 9999, [getCurrentDay] returns a text of
    the form YYYY-MM-DD, which holds no colon, and the host reads this
    text back as the midnight (UTC) that starts the day of the clock. *)
Theorem getCurrentDay_round_trip (now : Z) :
  - 30610224000000 <= now < 253402300800000 ->
  legacy_day_format (getCurrentDay now) = true
  /\ KeyScheme.colon_free (getCurrentDay now) = true
  /\ Date_parse (Host := Reference.host) (getCurrentDay now) = Some (setUTCHours0 now).
Proof.
  intros Hnow. pose proof (year_range now Hnow) as Hyear.
  pose proof (iso_date_getCurrentDay now Hyear) as Hparse.
  assert (Hformat : legacy_day_format (getCurrentDay now) = true).
  { unfold Reference.iso_date in Hparse.
    destruct (legacy_day_format (getCurrentDay now)); [reflexivity | discriminate]. }
  split; [exact Hformat |]. split.
  - destruct (getCurrentDay_text now Hyear)
      as (y1 & y2 & y3 & y4 & m1 & m2 & d1 & d2 & -> & Hdigits & _).
    repeat match goal with
           | H : Forall _ (_ :: _) |- _ => inversion_clear H
           end.
    cbn [KeyScheme.colon_free].
    rewrite (colon_free_digit y1), (colon_free_digit y2), (colon_free_digit y3),
      (colon_free_digit y4), (colon_free_digit m1), (colon_free_digit m2),
      (colon_free_digit d1), (colon_free_digit d2) by assumption.
    reflexivity.
  - exact Hparse.
Qed.

Lemma getCurrentDay_of_day (a b : Z) :
  Day a = Day b -> getCurrentDay a = getCurrentDay b.
Proof.
  intros E.
  unfold getCurrentDay, DateFromTime, MonthFromTime, InLeapYear, DayWithinYear,
    YearFromTime.
  rewrite E. reflexivity.
Qed.

(** Two clock readings give the same day text exactly when they fall on
    the same UTC day: the keys of a day are shared by all votes of that
    day and by no vote of another day. *)
Theorem getCurrentDay_same_day (a b : Z) :
  - 30610224000000 <= a < 253402300800000 ->
  - 30610224000000 <= b < 253402300800000 ->
  getCurrentDay a = getCurrentDay b <-> a / MS_PER_DAY = b / MS_PER_DAY.
Proof.
  intros Ha Hb. split.
  - intros E.
    pose proof (iso_date_getCurrentDay a (year_range a Ha)) as Hpa.
    pose proof (iso_date_getCurrentDay b (year_range b Hb)) as Hpb.
    rewrite E, Hpb in Hpa. injection Hpa as Hsame.
    apply same_day. symmetry. exact Hsame.
  - intros E. apply getCurrentDay_of_day. exact E.
Qed.

Lemma next_midnight (now : Z) :
  0 <= now < 8640000000000000 ->
  getNextMidnightUTC now = Some (msPerDay * (Day now + 1)).
Proof.
  intros Hnow. unfold getNextMidnightUTC, UTC, MakeDate, MakeDay. cbv zeta.
  pose proof (month_date_cases now) as (Hm & _ & _ & Hday). cbv zeta in Hm, Hday.
  assert (Hyear : 1970 <= YearFromTime now).
  { pose proof (YearFromTime_spec now) as Hspec.
    assert (0 <= Day now) by (unfold Day, msPerDay; Z.div_mod_to_equations; lia).
    destruct (Z.le_gt_cases 1970 (YearFromTime now)) as [Hle | Hgt]; [exact Hle |].
    destruct (Z.eq_dec (YearFromTime now + 1) 1970) as [E | E].
    - rewrite E in Hspec. change (DayFromYear 1970) with 0 in Hspec. lia.
    - pose proof (DayFromYear_lt (YearFromTime now + 1) 1970 ltac:(lia)) as Hlt.
      change (DayFromYear 1970) with 0 in Hlt. lia. }
  destruct (Z.leb_spec (YearFromTime now) 99); [lia |].
  rewrite andb_false_r.
  rewrite Z.div_small, Z.mod_small by lia.
  replace (YearFromTime now + 0) with (YearFromTime now) by ring.
  replace (FirstOfMonth (YearFromTime now) (MonthFromTime now)
           + (DateFromTime now + 1) - 1) with (Day now + 1) by lia.
  unfold TimeClip.
  assert (Hclip : Z.abs ((Day now + 1) * msPerDay + 0) <= 8640000000000000).
  { unfold Day, msPerDay. Z.div_mod_to_equations. lia. }
  destruct (Z.leb_spec (Z.abs ((Day now + 1) * msPerDay + 0)) 8640000000000000);
    [| lia].
  f_equal. ring.
Qed.

(** [getNextMidnightUTC] returns the first instant of the next UTC day:
    it is later than the clock by at most a day, [getCurrentDay] is
    constant from the clock up to it and changes at it. *)
Theorem getNextMidnightUTC_starts_next_day (now : Z) :
  0 <= now < 253402214400000 ->
  exists next,
    getNextMidnightUTC now = Some next
    /\ next = MS_PER_DAY * (now / MS_PER_DAY + 1)
    /\ now < next <= now + MS_PER_DAY
    /\ (forall t, now <= t < next -> getCurrentDay t = getCurrentDay now)
    /\ getCurrentDay next <> getCurrentDay now.
Proof.
  intros Hnow. exists (msPerDay * (Day now + 1)).
  assert (Hnext : now < msPerDay * (Day now + 1) <= now + msPerDay)
    by (unfold Day, msPerDay; Z.div_mod_to_equations; lia).
  split; [apply next_midnight; lia |].
  split; [reflexivity |]. split; [exact Hnext |]. split.
  - intros t Ht. apply getCurrentDay_of_day.
    unfold Day, msPerDay in *. Z.div_mod_to_equations. lia.
  - intros E.
    assert (Hday : Day (msPerDay * (Day now + 1)) = Day now + 1).
    { unfold Day at 1. rewrite Z.mul_comm. apply Z.div_mul. discriminate. }
    assert (Hrange : msPerDay * (Day now + 1) < 253402300800000)
      by (unfold msPerDay in *; lia).
    pose proof (iso_date_getCurrentDay now (year_range now ltac:(lia))) as Hpa.
    assert (Hlow : - 30610224000000 <= msPerDay * (Day now + 1)) by lia.
    pose proof (iso_date_getCurrentDay (msPerDay * (Day now + 1))
                  (year_range _ (conj Hlow Hrange))) as Hpb.
    rewrite E, Hpa in Hpb. injection Hpb as Hsame.
    apply same_day in Hsame.
    change (Day now = Day (msPerDay * (Day now + 1))) in Hsame.
    lia.
Qed.

Lemma as_entry_entry_to_json (v : HistEntry) : as_entry (entry_to_json v) = v.
Proof. destruct v as [d c]; destruct c; reflexivity. Qed.

End CalendarDay.

Section VoteOfToday.
Import Game Date GameClock IntString Streaks.
Context `{Host}.

(** After a vote the streak counts today, on every host whose date parser
    reads the day text of the clock as the midnight that starts that day:
    when every entry that the normaliser keeps of the stored history has a
    day that parses and is not after today, [updateUserStats], called for
    a vote whose day is [getCurrentDay] of the clock, returns a current
    streak of at least 1. *)
Theorem updateUserStats_counts_vote_of_today
        (now : Z) (cs : UserStats) (c : Choice) (points : Z) :
  Date_parse (getCurrentDay now) = Some (setUTCHours0 now) ->
  Forall (fun e => exists d, on_day (as_entry e) d /\ d <= now / MS_PER_DAY)
         (omap normalizeHistoryEntry (history cs)) ->
  1 <= statsCurrentStreak
         (updateUserStats now cs {| day := getCurrentDay now; choice := c |} points).
Proof.
  intros Hparse Hpast.
  set (v := {| day := getCurrentDay now; choice := c |}).
  assert (Htoday : on_day v (now / MS_PER_DAY)).
  { unfold on_day, dayNumber, getTime. cbn [day v]. rewrite Hparse.
    cbn [fmap option_fmap option_map]. f_equal. rewrite setUTCHours0_day.
    rewrite Z.mul_comm, Z.div_mul; [reflexivity | discriminate]. }
  unfold updateUserStats. cbv zeta. cbn [statsCurrentStreak].
  rewrite normalized_history, fmap_app. cbn [fmap list_fmap].
  rewrite as_entry_entry_to_json.
  set (h := as_entry <$> omap normalizeHistoryEntry (history cs)).
  assert (Hall : Forall (fun x => exists d, on_day x d /\ d <= now / MS_PER_DAY)
                        (h ++ [v])%list).
  { apply Forall_app. split.
    - apply Forall_fmap. exact Hpast.
    - constructor; [| constructor].
      exists (now / MS_PER_DAY). split; [exact Htoday | lia]. }
  assert (Hin : v ∈ (h ++ [v])%list) by (apply elem_of_app; right; left).
  pose proof (sort_sorted (h ++ [v])%list (dated_is_valid now _ Hall)) as Hsorted.
  pose proof (sort_perm (h ++ [v])%list) as Hperm.
  unfold calculateStreak.
  destruct (h ++ [v])%list as [| x l] eqn:Hl; [destruct h; discriminate Hl |].
  cbv zeta.
  destruct (longestStreakLoop (sort (x :: l)) None 0 0) as [L T]. cbn [currentStreak].
  apply (currentStreakLoop_today now (sort (x :: l)) v Hsorted).
  - rewrite Hperm. exact Hall.
  - rewrite Hperm. exact Hin.
  - exact Htoday.
Qed.

End VoteOfToday.

Lemma getCurrentDay_round_trip_witness :
  Streaks.legacy_day_format (GameClock.getCurrentDay 1770811200123) = true
  /\ KeyScheme.colon_free (GameClock.getCurrentDay 1770811200123) = true
  /\ Date_parse (Host := Reference.host) (GameClock.getCurrentDay 1770811200123)
     = Some (Streaks.setUTCHours0 1770811200123).
Proof.
  apply (getCurrentDay_round_trip 1770811200123). lia.
Defined.

Lemma getCurrentDay_same_day_witness :
  GameClock.getCurrentDay 1770768000000 = GameClock.getCurrentDay 1770854399999
  <-> 1770768000000 / Streaks.MS_PER_DAY = 1770854399999 / Streaks.MS_PER_DAY.
Proof.
  apply (getCurrentDay_same_day 1770768000000 1770854399999); lia.
Defined.

Lemma getNextMidnightUTC_starts_next_day_witness :
  exists next,
    GameClock.getNextMidnightUTC 1770811200123 = Some next
    /\ next = Streaks.MS_PER_DAY * (1770811200123 / Streaks.MS_PER_DAY + 1)
    /\ 1770811200123 < next <= 1770811200123 + Streaks.MS_PER_DAY
    /\ (forall t, 1770811200123 <= t < next ->
        GameClock.getCurrentDay t = GameClock.getCurrentDay 1770811200123)
    /\ GameClock.getCurrentDay next <> GameClock.getCurrentDay 1770811200123.
Proof.
  apply (getNextMidnightUTC_starts_next_day 1770811200123). lia.
Defined.

Lemma updateUserStats_counts_vote_of_today_witness :
  1 <= Streaks.statsCurrentStreak
         (Streaks.updateUserStats (H := Reference.host) 1770811200123
            {| Streaks.totalScore := 3; Streaks.statsCurrentStreak := 0;
               Streaks.statsLongestStreak := 1; Streaks.totalVotes := 2;
               Streaks.cooperateCount := 1; Streaks.defectCount := 0;
               Streaks.history :=
                 [ Json.JStr "2026-02-08";
                   Streaks.entry_to_json
                     {| Streaks.day := "2026-02-10";
                        Streaks.choice := Game.cooperate |} ] |}
            {| Streaks.day := GameClock.getCurrentDay 1770811200123;
               Streaks.choice := Game.defect |} 0).
Proof.
  apply (updateUserStats_counts_vote_of_today (H := Reference.host) 1770811200123).
  - vm_compute. reflexivity.
  - repeat constructor.
    + exists 20492. split; [reflexivity | vm_compute; discriminate].
    + exists 20494. split; [reflexivity | vm_compute; discriminate].
Defined.
